(** * operator-controller: preflight orchestration, applier and resolver

    A shallow embedding of
    - [crdupgradesafety]: the CRD upgrade-safety preflight ([Preflight.Upgrade]
      and [crossVersionValidator.Validate]),
    - [applier]: the Helm applier ([Helm.Apply], [Helm.getReleaseState]),
    - [resolution]: bundle resolution ([Resolver.Resolve]).

    Go statements are embedded in a small state monad whose store holds the
    append-only error slice of the running function and the sequence of
    calls made to collaborators (library functions, clients, preflights). *)

From Stdlib Require Import List String Bool Arith Lia Sorted.
Import ListNotations.
Local Open Scope string_scope.
Local Open Scope list_scope.

Set Warnings "-register-all".
Set Warnings "-notation-overridden".

(* ================================================================== *)
(** ** Go errors *)
(* ================================================================== *)

Module errors.

(** An error value.  [New] stands for [errors.New] and for the opaque errors
    handed back by libraries and clients; [Errorf] for [fmt.Errorf] with its
    format string, its string operands in order and the operand of [%w], if
    the format has one; [joinError] for the value built by [errors.Join]. *)
Inductive error : Type :=
  | New (text : string)
  | Errorf (format : string) (args : list string) (wrapped : option error)
  | joinError (errs : list error).

(** [errors.Join]: nil when there is nothing to join, otherwise one error
    wrapping all of them in order.  Every slice joined in this code base
    only ever receives non-nil errors, so the slice is a [list error]. *)
Definition Join (errs : list error) : option error :=
  match errs with
  | [] => None
  | _ :: _ => Some (joinError errs)
  end.

(** [errors.Is] against a sentinel, identified by its text: the chain of
    [%w] operands and every branch of a joined error are searched. *)
Fixpoint Is (err : error) (target : string) {struct err} : bool :=
  match err with
  | New text => String.eqb text target
  | Errorf _ _ (Some w) => Is w target
  | Errorf _ _ None => false
  | joinError errs => existsb (fun e => Is e target) errs
  end.

End errors.

(* ================================================================== *)
(** ** Statements: a state monad over the error slice and the call log *)
(* ================================================================== *)

Module stmt.
Section Stmt.

Variable Ev : Type.

(** The store of a running function body. *)
Record Store : Type := mkStore {
  errs : list errors.error;   (* the [[]error] slice being appended to *)
  calls : list Ev             (* calls made so far, oldest first *)
}.

Definition empty : Store := mkStore [] [].

Definition extend (s d : Store) : Store :=
  mkStore (errs s ++ errs d) (calls s ++ calls d).

Definition M (A : Type) : Type := Store -> A * Store.

Definition ret {A} (a : A) : M A := fun s => (a, s).

Definition bind {A B} (m : M A) (k : A -> M B) : M B :=
  fun s => let (a, s') := m s in k a s'.

(** [errs = append(errs, e)] *)
Definition appendErr (e : errors.error) : M unit :=
  fun s => (tt, mkStore (errs s ++ [e]) (calls s)).

(** A call to a collaborator is entered in the log. *)
Definition call (ev : Ev) : M unit :=
  fun s => (tt, mkStore (errs s) (calls s ++ [ev])).

(** [for _, x := range xs { body }] without [break] or [return]. *)
Fixpoint forRange {A} (xs : list A) (body : A -> M unit) : M unit :=
  match xs with
  | [] => ret tt
  | x :: rest => bind (body x) (fun _ => forRange rest body)
  end.

(** [for _, x := range xs { body }] where the body may [return r]
    ([Some r]); [None] lets the loop go on. *)
Fixpoint forRangeReturn {A R} (xs : list A) (body : A -> M (option R))
  : M (option R) :=
  match xs with
  | [] => ret None
  | x :: rest =>
      bind (body x) (fun r =>
        match r with
        | Some v => ret (Some v)
        | None => forRangeReturn rest body
        end)
  end.

(** A statement is append-only when it never reads the store: it yields the
    same value from any store and only extends it. *)
Definition appendOnly {A} (m : M A) : Prop :=
  forall s, m s = (fst (m empty), extend s (snd (m empty))).

End Stmt.

Arguments mkStore {Ev} errs calls.
Arguments errs {Ev} s.
Arguments calls {Ev} s.
Arguments empty {Ev}.
Arguments extend {Ev} s d.
Arguments ret {Ev A} a.
Arguments bind {Ev A B} m k.
Arguments appendErr {Ev} e.
Arguments call {Ev} ev.
Arguments forRange {Ev A} xs body.
Arguments forRangeReturn {Ev A R} xs body.
Arguments appendOnly {Ev A} m.

End stmt.

Declare Scope stmt_scope.
Delimit Scope stmt_scope with stmt.
Notation "x <- c ;; k" := (stmt.bind c (fun x => k))
  (at level 100, c at next level, right associativity) : stmt_scope.
Notation "c ;;; k" := (stmt.bind c (fun _ => k))
  (at level 100, right associativity) : stmt_scope.

(* ================================================================== *)
(** ** Kubernetes and Helm types at the boundary *)
(* ================================================================== *)

Module schema.

Record GroupVersionKind : Type := mkGVK {
  Group : string;
  Version : string;
  Kind : string
}.

Definition eqb (a b : GroupVersionKind) : bool :=
  String.eqb (Group a) (Group b) && String.eqb (Version a) (Version b)
  && String.eqb (Kind a) (Kind b).

End schema.

Module release.

(** [release.Status] of a Helm release. *)
Inductive Status : Type :=
  | StatusUnknown | StatusDeployed | StatusUninstalled | StatusSuperseded
  | StatusFailed | StatusUninstalling | StatusPendingInstall
  | StatusPendingUpgrade | StatusPendingRollback.

Definition Status_eqb (a b : Status) : bool :=
  match a, b with
  | StatusUnknown, StatusUnknown | StatusDeployed, StatusDeployed
  | StatusUninstalled, StatusUninstalled | StatusSuperseded, StatusSuperseded
  | StatusFailed, StatusFailed | StatusUninstalling, StatusUninstalling
  | StatusPendingInstall, StatusPendingInstall
  | StatusPendingUpgrade, StatusPendingUpgrade
  | StatusPendingRollback, StatusPendingRollback => true
  | _, _ => false
  end.

(** The fields of [release.Release] this code reads. *)
Record Release : Type := mkRelease {
  Name : string;
  Manifest : string;
  InfoStatus : Status         (* [Info.Status] *)
}.

End release.

(* ================================================================== *)
(** ** The kapp upgrade-safety library, as this code uses it *)
(* ================================================================== *)

Module kappcus.

Import errors.

(** The schema types of the library are kept abstract: this code only
    passes them along. *)
Class Schemas : Type := {
  JSONSchemaProps : Type;     (* a recursive schema node tree *)
  FlatSchema : Type;          (* field path -> leaf descriptor *)
  FieldDiff : Type            (* old and new descriptor of one field *)
}.

Section Types.
Context `{Schemas}.

(** Modelled from the spec: the declaration of a definition's version is
    in the Kubernetes API package; section 3 gives it as [Name] and
    [Schema].  [ver_Schema] is the tree behind [Schema.OpenAPIV3Schema];
    both pointers are taken to be set, as the API requires of a served
    version. *)
Record CustomResourceDefinitionVersion : Type := mkVersion {
  ver_Name : string;
  ver_Schema : JSONSchemaProps
}.

Inductive ResourceScope : Type := NamespaceScoped | ClusterScoped.

(** Modelled from the spec: section 3, StructuredDefinition. *)
Record CustomResourceDefinition : Type := mkCRD {
  crd_Name : string;
  crd_Scope : ResourceScope;
  crd_Versions : list CustomResourceDefinitionVersion;   (* [Spec.Versions] *)
  crd_StoredVersions : list string
}.

(** [kappcus.ChangeValidation]: [(handled, err)] for one field diff. *)
Definition ChangeValidation : Type := FieldDiff -> bool * option error.

(** What a [kappcus.Validator] is made of. *)
Inductive Validation : Type :=
  | NewValidationFunc
      (name : string)
      (f : CustomResourceDefinition -> CustomResourceDefinition -> option error)
  | ChangeValidator (Validations : list ChangeValidation).

Record Validator : Type := mkValidator {
  Validations : list Validation
}.
End Types.

(** The functions of the library.  A Go map result is given as the list of
    its entries in the order a [range] over it visits them; nothing below
    depends on that order. *)
Class Library `{Schemas} : Type := {
  FlattenSchema : JSONSchemaProps -> FlatSchema;
  CalculateFlatSchemaDiff :
    FlatSchema -> FlatSchema -> list (string * FieldDiff) + error;
  Validate :
    Validator -> CustomResourceDefinition -> CustomResourceDefinition ->
    option error;
  NoScopeChange :
    CustomResourceDefinition -> CustomResourceDefinition -> option error;
  NoStoredVersionRemoved :
    CustomResourceDefinition -> CustomResourceDefinition -> option error;
  NoExistingFieldRemoved :
    CustomResourceDefinition -> CustomResourceDefinition -> option error;
  EnumChangeValidation : ChangeValidation;
  RequiredFieldChangeValidation : ChangeValidation;
  MaximumChangeValidation : ChangeValidation;
  MaximumItemsChangeValidation : ChangeValidation;
  MaximumLengthChangeValidation : ChangeValidation;
  MaximumPropertiesChangeValidation : ChangeValidation;
  MinimumChangeValidation : ChangeValidation;
  MinimumItemsChangeValidation : ChangeValidation;
  MinimumLengthChangeValidation : ChangeValidation;
  MinimumPropertiesChangeValidation : ChangeValidation;
  DefaultValueChangeValidation : ChangeValidation
}.

End kappcus.

(* ================================================================== *)
(** ** package crdupgradesafety *)
(* ================================================================== *)

Module crdupgradesafety.

Import errors stmt kappcus.
Local Open Scope stmt_scope.

(** The objects of a release manifest and their conversion
    ([util.ManifestObjects], [runtime.DefaultUnstructuredConverter]). *)
Class Runtime `{Schemas} : Type := {
  Object : Type;
  Unstructured : Type;
  GroupVersionKind : Object -> schema.GroupVersionKind;
  GetName : Object -> string;
  ManifestObjects : string -> string -> list Object + error;
  ToUnstructured : Object -> Unstructured + error;
  FromUnstructured : Unstructured -> CustomResourceDefinition + error
}.

Section Package.
Context `{Library} `{!Runtime}.

(** [apiextensionsv1.SchemeGroupVersion.WithKind("CustomResourceDefinition")] *)
Definition CustomResourceDefinitionGVK : schema.GroupVersionKind :=
  schema.mkGVK "apiextensions.k8s.io" "v1" "CustomResourceDefinition".

(** [apiextensionsv1client.CustomResourceDefinitionInterface], reduced to
    the one method called. *)
Record CustomResourceDefinitionInterface : Type := mkClient {
  Get : string -> CustomResourceDefinition + error
}.

Record crossVersionValidator : Type := mkCVV {
  changeValidations : list ChangeValidation
}.

Record Preflight : Type := mkPreflight {
  crdClient : CustomResourceDefinitionInterface;
  validator : Validator;
  crossVersionValidatorOf : crossVersionValidator
}.

Definition Option : Type := Preflight -> Preflight.

Definition WithValidator (v : Validator) : Option :=
  fun p => mkPreflight (crdClient p) v (crossVersionValidatorOf p).

(** The change rules, in the order both validators list them. *)
Definition defaultChangeValidations : list ChangeValidation :=
  [ EnumChangeValidation;
    RequiredFieldChangeValidation;
    MaximumChangeValidation;
    MaximumItemsChangeValidation;
    MaximumLengthChangeValidation;
    MaximumPropertiesChangeValidation;
    MinimumChangeValidation;
    MinimumItemsChangeValidation;
    MinimumLengthChangeValidation;
    MinimumPropertiesChangeValidation;
    DefaultValueChangeValidation ].

Definition NewPreflight (crdCli : CustomResourceDefinitionInterface)
           (opts : list Option) : Preflight :=
  let p :=
    mkPreflight crdCli
      (mkValidator
         [ NewValidationFunc "NoScopeChange" NoScopeChange;
           NewValidationFunc "NoStoredVersionRemoved" NoStoredVersionRemoved;
           NewValidationFunc "NoExistingFieldRemoved" NoExistingFieldRemoved;
           ChangeValidator defaultChangeValidations ])
      (mkCVV defaultChangeValidations) in
  fold_left (fun p o => o p) opts p.

(** Calls made to collaborators. *)
Inductive Event : Type :=
  | FlattenSchemaCall (version : CustomResourceDefinitionVersion)
  | CalculateFlatSchemaDiffCall
      (versionA versionB : CustomResourceDefinitionVersion)
  | ChangeValidationCall
      (index : nat) (versionA versionB field : string)
  | GetCall (name : string)
  | ValidatorValidateCall (oldCrd newCrd : CustomResourceDefinition)
  | CrossVersionValidateCall (crd : CustomResourceDefinition).

Definition unknownChangeFormat : string :=
  "version %q compared to version %q, field %q has unknown change, refusing to determine that change is safe".

(** The error recorded for a field no rule handled. *)
Definition unknownChange (versionA versionB field : string) : error :=
  Errorf unknownChangeFormat [versionA; versionB; field] None.

(** The error recorded for the verdict of one rule, if it carries one. *)
Definition ruleErrs (versionA versionB field : string) (diff : FieldDiff)
           (validation : ChangeValidation) : list error :=
  match snd (validation diff) with
  | Some e =>
      [Errorf "version %q compared to version %q, field %q: %w"
              [versionA; versionB; field] (Some e)]
  | None => []
  end.

(** The error recorded when the diff of two versions cannot be computed. *)
Definition diffFailed (versionA versionB : string) : error :=
  Errorf "calculating schema diff for CRD version %q against CRD version %q"
         [versionA; versionB] None.

(** The calls to the rules at [index], [index + 1], ... for one field. *)
Definition ruleCalls (index count : nat) (versionA versionB field : string)
  : list Event :=
  map (fun i => ChangeValidationCall i versionA versionB field)
      (seq index count).

(** The loop over [cvv.changeValidations] for one field, from the rule at
    [index] on; the value is the final [handled]. *)
Fixpoint tryValidations (validations : list ChangeValidation) (index : nat)
         (versionA versionB field : string) (diff : FieldDiff)
  : M Event bool :=
  match validations with
  | [] => ret false
  | validation :: rest =>
      call (ChangeValidationCall index versionA versionB field) ;;;
      let (ok, err) := validation diff in
      match err with
      | Some e =>
          appendErr (Errorf "version %q compared to version %q, field %q: %w"
                            [versionA; versionB; field] (Some e))
      | None => ret tt
      end ;;;
      if ok then ret true
      else tryValidations rest (S index) versionA versionB field diff
  end.

(** The body of [for field, diff := range diffs]. *)
Definition validateField (cvv : crossVersionValidator)
           (versionA versionB : string) (entry : string * FieldDiff)
  : M Event unit :=
  let (field, diff) := entry in
  handled <- tryValidations (changeValidations cvv) 0
                            versionA versionB field diff ;;
  if negb handled
  then appendErr (unknownChange versionA versionB field)
  else ret tt.

(** The body of the inner loop, for one ordered pair of versions. *)
Definition validatePair (cvv : crossVersionValidator)
           (versionA versionB : CustomResourceDefinitionVersion)
  : M Event unit :=
  if String.eqb (ver_Name versionA) (ver_Name versionB) then ret tt
  else
    call (FlattenSchemaCall versionA) ;;;
    let flatOld := FlattenSchema (ver_Schema versionA) in
    call (FlattenSchemaCall versionB) ;;;
    let flatNew := FlattenSchema (ver_Schema versionB) in
    call (CalculateFlatSchemaDiffCall versionA versionB) ;;;
    match CalculateFlatSchemaDiff flatOld flatNew with
    | inr _ =>
        appendErr (diffFailed (ver_Name versionA) (ver_Name versionB))
    | inl diffs =>
        forRange diffs
          (validateField cvv (ver_Name versionA) (ver_Name versionB))
    end.

Definition validateBody (cvv : crossVersionValidator)
           (crd : CustomResourceDefinition) : M Event unit :=
  forRange (crd_Versions crd) (fun versionA =>
    forRange (crd_Versions crd) (fun versionB =>
      validatePair cvv versionA versionB)).

(** [crossVersionValidator.Validate]: the returned error and the calls
    made. *)
Definition cvvValidate (cvv : crossVersionValidator)
           (crd : CustomResourceDefinition)
  : option error * list Event :=
  let s := snd (validateBody cvv crd empty) in
  (Join (errs s), calls s).

(** The body of [for _, obj := range relObjects] in [Upgrade]:
    [Some r] is [return r], [None] goes on with the next object. *)
Definition upgradeObject (p : Preflight) (obj : Object)
  : M Event (option (option error)) :=
  if negb (schema.eqb (GroupVersionKind obj) CustomResourceDefinitionGVK)
  then ret None
  else
    match ToUnstructured obj with
    | inr err =>
        ret (Some (Some (Errorf "converting object %q to unstructured: %w"
                                [GetName obj] (Some err))))
    | inl uMap =>
        match FromUnstructured uMap with
        | inr err =>
            ret (Some (Some (Errorf "converting unstructured to CRD object: %w"
                                    [] (Some err))))
        | inl newCrd =>
            call (GetCall (crd_Name newCrd)) ;;;
            match Get (crdClient p) (crd_Name newCrd) with
            | inr err =>
                ret (Some (Some
                  (Errorf "getting existing resource for CRD %q: %w"
                          [crd_Name newCrd] (Some err))))
            | inl oldCrd =>
                call (ValidatorValidateCall oldCrd newCrd) ;;;
                match Validate (validator p) oldCrd newCrd with
                | Some err =>
                    appendErr
                      (Errorf "validating upgrade for CRD %q failed: %w"
                              [crd_Name newCrd] (Some err))
                | None => ret tt
                end ;;;
                call (CrossVersionValidateCall newCrd) ;;;
                match fst (cvvValidate (crossVersionValidatorOf p) newCrd) with
                | Some err =>
                    appendErr
                      (Errorf "cross version validation for CRD %q failed: %w"
                              [crd_Name newCrd] (Some err))
                | None => ret tt
                end ;;;
                ret None
            end
        end
    end.

(** [Preflight.Install] *)
Definition Install (p : Preflight) (rel : option release.Release)
  : option error * list Event :=
  (None, []).

(** [Preflight.Upgrade]: the returned error and the calls made. *)
Definition Upgrade (p : Preflight) (rel : option release.Release)
  : option error * list Event :=
  match rel with
  | None => (None, [])
  | Some rel =>
      match ManifestObjects (release.Manifest rel)
                            (release.Name rel ++ "-release-manifest") with
      | inr err =>
          (Some (Errorf "parsing release %q objects: %w"
                        [release.Name rel] (Some err)), [])
      | inl relObjects =>
          let (r, s) :=
            forRangeReturn relObjects (upgradeObject p) empty in
          match r with
          | Some returned => (returned, calls s)
          | None => (Join (errs s), calls s)
          end
      end
  end.

(** *** Vocabulary of the statements about [Upgrade] *)

Definition isDefinition (obj : Object) : bool :=
  schema.eqb (GroupVersionKind obj) CustomResourceDefinitionGVK.

(** The active and the proposed definition of an object of the release:
    the object is a definition, it converts, and the cluster returns the
    definition of its name. *)
Definition fetched (p : Preflight) (obj : Object)
  : option (CustomResourceDefinition * CustomResourceDefinition) :=
  if isDefinition obj then
    match ToUnstructured obj with
    | inr _ => None
    | inl uMap =>
        match FromUnstructured uMap with
        | inr _ => None
        | inl newCrd =>
            match Get (crdClient p) (crd_Name newCrd) with
            | inr _ => None
            | inl oldCrd => Some (oldCrd, newCrd)
            end
        end
    end
  else None.

(** The failures of the two validations of one definition. *)
Definition crdFailures (p : Preflight)
           (oldCrd newCrd : CustomResourceDefinition) : list error :=
  match Validate (validator p) oldCrd newCrd with
  | Some err =>
      [Errorf "validating upgrade for CRD %q failed: %w"
              [crd_Name newCrd] (Some err)]
  | None => []
  end ++
  match fst (cvvValidate (crossVersionValidatorOf p) newCrd) with
  | Some err =>
      [Errorf "cross version validation for CRD %q failed: %w"
              [crd_Name newCrd] (Some err)]
  | None => []
  end.

Definition objectFailures (p : Preflight) (obj : Object) : list error :=
  match fetched p obj with
  | Some (oldCrd, newCrd) => crdFailures p oldCrd newCrd
  | None => []
  end.

(** The statement that no failure of a definition of the release is missing
    from what [Upgrade] returns. *)
Definition collectsEveryFailure (p : Preflight) (rel : release.Release) : Prop :=
  forall relObjects obj oldCrd newCrd e,
    ManifestObjects (release.Manifest rel)
                    (release.Name rel ++ "-release-manifest") = inl relObjects ->
    In obj relObjects ->
    fetched p obj = Some (oldCrd, newCrd) ->
    In e (crdFailures p oldCrd newCrd) ->
    exists errs,
      fst (Upgrade p (Some rel)) = Some (joinError errs) /\ In e errs.

(** An error built by [errors.Join], as [Upgrade] returns for failed
    validations. *)
Definition isJoined (e : error) : bool :=
  match e with
  | joinError _ => true
  | _ => false
  end.

(** The calls [Upgrade] makes for an object whose active definition is
    fetched: the fetch and the two validations. *)
Definition objectCalls (p : Preflight) (obj : Object) : list Event :=
  match fetched p obj with
  | Some (oldCrd, newCrd) =>
      [ GetCall (crd_Name newCrd);
        ValidatorValidateCall oldCrd newCrd;
        CrossVersionValidateCall newCrd ]
  | None => []
  end.

Definition isDiffCall (ev : Event) : bool :=
  match ev with
  | CalculateFlatSchemaDiffCall _ _ => true
  | _ => false
  end.

(** The validator [NewPreflight] builds when no option replaces it. *)
Definition defaultValidator : Validator :=
  mkValidator
    [ NewValidationFunc "NoScopeChange" NoScopeChange;
      NewValidationFunc "NoStoredVersionRemoved" NoStoredVersionRemoved;
      NewValidationFunc "NoExistingFieldRemoved" NoExistingFieldRemoved;
      ChangeValidator defaultChangeValidations ].

(** *** Vocabulary of the statements about the cross-version validator *)

(** The rules tried for a field diff: those up to and including the first
    that returns handled, all of them when none does. *)
Fixpoint triedRules (validations : list ChangeValidation) (diff : FieldDiff)
  : list ChangeValidation :=
  match validations with
  | [] => []
  | validation :: rest =>
      if fst (validation diff) then [validation]
      else validation :: triedRules rest diff
  end.

(** Whether some rule returns handled for a field diff. *)
Definition handledBy (validations : list ChangeValidation) (diff : FieldDiff)
  : bool :=
  existsb (fun validation : ChangeValidation => fst (validation diff))
          validations.

(** The failures of one field of one ordered pair: the errors of the rules
    tried, in their order, then the unknown-change error when no rule
    handled the field. *)
Definition fieldFailures (cvv : crossVersionValidator)
           (versionA versionB : string) (entry : string * FieldDiff)
  : list error :=
  flat_map (ruleErrs versionA versionB (fst entry) (snd entry))
           (triedRules (changeValidations cvv) (snd entry)) ++
  (if handledBy (changeValidations cvv) (snd entry) then []
   else [unknownChange versionA versionB (fst entry)]).

(** The calls to the rules for one field of one ordered pair. *)
Definition fieldCalls (cvv : crossVersionValidator)
           (versionA versionB : string) (entry : string * FieldDiff)
  : list Event :=
  ruleCalls 0 (List.length (triedRules (changeValidations cvv) (snd entry)))
            versionA versionB (fst entry).

(** The failures of one ordered pair of versions: none when both carry one
    name; otherwise both schemas are flattened and their diff is calculated,
    and the failures are that the diff cannot be calculated, or those of the
    fields of the diff. *)
Definition pairFailures (cvv : crossVersionValidator)
           (versionA versionB : CustomResourceDefinitionVersion)
  : list error :=
  if String.eqb (ver_Name versionA) (ver_Name versionB) then []
  else
    match CalculateFlatSchemaDiff (FlattenSchema (ver_Schema versionA))
                                  (FlattenSchema (ver_Schema versionB)) with
    | inr _ => [diffFailed (ver_Name versionA) (ver_Name versionB)]
    | inl diffs =>
        flat_map (fieldFailures cvv (ver_Name versionA) (ver_Name versionB))
                 diffs
    end.

(** The calls made for one ordered pair of versions. *)
Definition pairCalls (cvv : crossVersionValidator)
           (versionA versionB : CustomResourceDefinitionVersion)
  : list Event :=
  if String.eqb (ver_Name versionA) (ver_Name versionB) then []
  else
    [ FlattenSchemaCall versionA; FlattenSchemaCall versionB;
      CalculateFlatSchemaDiffCall versionA versionB ] ++
    match CalculateFlatSchemaDiff (FlattenSchema (ver_Schema versionA))
                                  (FlattenSchema (ver_Schema versionB)) with
    | inr _ => []
    | inl diffs =>
        flat_map (fieldCalls cvv (ver_Name versionA) (ver_Name versionB))
                 diffs
    end.

(** The ordered pairs of the declared versions, in the order the two loops
    visit them. *)
Definition orderedPairs (crd : CustomResourceDefinition)
  : list (CustomResourceDefinitionVersion * CustomResourceDefinitionVersion) :=
  list_prod (crd_Versions crd) (crd_Versions crd).

(** The error recorded for the error [e] of a rule. *)
Definition ruleFailed (versionA versionB field : string) (e : error) : error :=
  Errorf "version %q compared to version %q, field %q: %w"
         [versionA; versionB; field] (Some e).

(** The statement that what is recorded for a field is the error of the
    first rule that returns handled, if it has one, and nothing else. *)
Definition recordsTheHandlingRule (cvv : crossVersionValidator)
           (versionA versionB : string) (entry : string * FieldDiff) : Prop :=
  forall (before : list ChangeValidation) (validation : ChangeValidation)
         (after : list ChangeValidation),
    changeValidations cvv = before ++ validation :: after ->
    Forall (fun v : ChangeValidation => fst (v (snd entry)) = false) before ->
    fst (validation (snd entry)) = true ->
    errs (snd (validateField cvv versionA versionB entry empty)) =
      ruleErrs versionA versionB (fst entry) (snd entry) validation.

End Package.
End crdupgradesafety.

(* ================================================================== *)
(** ** package applier *)
(* ================================================================== *)

Module applier.

Import errors stmt kappcus.
Local Open Scope stmt_scope.

(** The fields of [ocv1alpha1.ClusterExtension] read by the applier. *)
Record CRDUpgradeSafetyPreflightConfig : Type := mkCRDUpgradeSafetyConfig {
  Disabled : bool
}.

Record PreflightConfig : Type := mkPreflightConfig {
  CRDUpgradeSafety : option CRDUpgradeSafetyPreflightConfig
}.

Record ClusterExtension : Type := mkClusterExtension {
  ext_Name : string;                             (* [GetName()] *)
  ext_InstallNamespace : string;                 (* [Spec.InstallNamespace] *)
  ext_Preflight : option PreflightConfig         (* [Spec.Preflight] *)
}.

Inductive releaseState : Type :=
| stateNeedsInstall | stateNeedsUpgrade | stateUnchanged | stateError.

Definition releaseState_string (s : releaseState) : string :=
  match s with
  | stateNeedsInstall => "NeedsInstall"
  | stateNeedsUpgrade => "NeedsUpgrade"
  | stateUnchanged => "Unchanged"
  | stateError => "Error"
  end.

Definition maxHelmReleaseHistory : nat := 10.

(** [driver.ErrReleaseNotFound], by its text. *)
Definition ErrReleaseNotFound : string := "release: not found".

(** The panic of the Go runtime on a nil pointer, kept as a value so that
    a dereference of an optional release stays total. *)
Definition nilDereference : error :=
  New "runtime error: invalid memory address or nil pointer dereference".

(** Collaborators of the applier that live in other packages: the chart
    conversion, the label keys, the bundle's version. *)
Class Deps : Type := {
  FS : Type;
  Chart : Type;
  SemVer : Type;
  SemVer_String : SemVer -> string;
  RegistryV1ToHelmChart : FS -> string -> list string -> Chart + error;
  ClusterExtensionKind : string;
  OwnerKindKey : string;
  OwnerNameKey : string;
  BundleNameKey : string;
  PackageNameKey : string;
  BundleVersionKey : string
}.

Section Package.
Context `{Library} `{!crdupgradesafety.Runtime} `{Deps}.

(** The fields and the method of [catalogmetadata.Bundle] used here. *)
Record Bundle : Type := mkBundle {
  bundle_Name : string;
  bundle_Package : string;
  bundle_Version : SemVer + error                (* [Version()] *)
}.

Record postrenderer : Type := mkPostrenderer {
  labels : list (string * string)
}.

(** What the option closures leave in [action.Install] and [action.Upgrade]. *)
Record InstallOptions : Type := mkInstallOptions {
  install_CreateNamespace : bool;
  install_DryRun : bool;
  install_DryRunOption : string;
  install_Labels : list (string * string);
  install_PostRenderer : postrenderer
}.

Record UpgradeOptions : Type := mkUpgradeOptions {
  upgrade_MaxHistory : nat;
  upgrade_DryRun : bool;
  upgrade_DryRunOption : string;
  upgrade_Labels : list (string * string);
  upgrade_PostRenderer : postrenderer
}.

(** [helmclient.ActionInterface]: each method yields a release or an error. *)
Record ActionInterface : Type := mkActionInterface {
  ac_Get : string -> release.Release + error;
  ac_Install :
    string -> string -> Chart -> InstallOptions -> release.Release + error;
  ac_Upgrade :
    string -> string -> Chart -> UpgradeOptions -> release.Release + error;
  ac_Reconcile : option release.Release -> option error
}.

(** The [Preflight] interface with the two kinds of implementation the
    applier tells apart by a type assertion. *)
Inductive Preflight : Type :=
| CRDUpgradeSafetyPreflight (p : crdupgradesafety.Preflight)
| OtherPreflight
    (Install Upgrade : option release.Release -> option error).

Definition isCRDUpgradeSafety (preflight : Preflight) : bool :=
  match preflight with
  | CRDUpgradeSafetyPreflight _ => true
  | OtherPreflight _ _ => false
  end.

Definition preflight_Install (preflight : Preflight)
           (rel : option release.Release) : option error :=
  match preflight with
  | CRDUpgradeSafetyPreflight p => fst (crdupgradesafety.Install p rel)
  | OtherPreflight install _ => install rel
  end.

Definition preflight_Upgrade (preflight : Preflight)
           (rel : option release.Release) : option error :=
  match preflight with
  | CRDUpgradeSafetyPreflight p => fst (crdupgradesafety.Upgrade p rel)
  | OtherPreflight _ upgrade => upgrade rel
  end.

Record Helm : Type := mkHelm {
  ActionClientFor : ClusterExtension -> ActionInterface + error;
  Preflights : list Preflight
}.

(** Calls made by the applier. *)
Inductive Event : Type :=
| ActionGetCall (name : string)
| ActionInstallCall (opts : InstallOptions)
| ActionUpgradeCall (opts : UpgradeOptions)
| ActionReconcileCall (rel : option release.Release)
| PreflightInstallCall (preflight : Preflight) (rel : option release.Release)
| PreflightUpgradeCall (preflight : Preflight) (rel : option release.Release).

(** [Helm.getReleaseState].  A failed [Get] that is [ErrReleaseNotFound]
    returns at the first of the two tests on it, so the dry-run install
    under the second test is never reached and has no counterpart here. *)
Definition getReleaseState (cl : ActionInterface) (ext : ClusterExtension)
           (chrt : Chart) (post : postrenderer)
  : M Event (option release.Release * option release.Release
             * releaseState * option error) :=
  call (ActionGetCall (ext_Name ext)) ;;;
  match ac_Get cl (ext_Name ext) with
  | inr err =>
      if negb (Is err ErrReleaseNotFound)
      then ret (None, None, stateError, Some err)
      else ret (None, None, stateNeedsInstall, None)
  | inl currentRelease =>
      let opts := mkUpgradeOptions maxHelmReleaseHistory true "server" [] post in
      call (ActionUpgradeCall opts) ;;;
      match ac_Upgrade cl (ext_Name ext) (ext_InstallNamespace ext) chrt opts with
      | inr err => ret (Some currentRelease, None, stateError, Some err)
      | inl desiredRelease =>
          let relState :=
            if negb (String.eqb (release.Manifest desiredRelease)
                                (release.Manifest currentRelease))
               || release.Status_eqb (release.InfoStatus currentRelease)
                                     release.StatusFailed
               || release.Status_eqb (release.InfoStatus currentRelease)
                                     release.StatusSuperseded
            then stateNeedsUpgrade
            else stateUnchanged in
          ret (Some currentRelease, Some desiredRelease, relState, None)
      end
  end.

(** The test that skips a preflight: the extension carries the
    upgrade-safety configuration, the preflight is of the upgrade-safety
    type and the configuration disables it. *)
Definition skipped (ext : ClusterExtension) (preflight : Preflight) : bool :=
  match ext_Preflight ext with
  | Some cfg =>
      match CRDUpgradeSafety cfg with
      | Some safety => isCRDUpgradeSafety preflight && Disabled safety
      | None => false
      end
  | None => false
  end.

(** The body of [for _, preflight := range h.Preflights]: [Some err] is
    [return nil, err]. *)
Definition runPreflight (ext : ClusterExtension) (state : releaseState)
           (desiredRel : option release.Release) (preflight : Preflight)
  : M Event (option error) :=
  if skipped ext preflight then ret None
  else
    match state with
    | stateNeedsInstall =>
        call (PreflightInstallCall preflight desiredRel) ;;;
        ret (preflight_Install preflight desiredRel)
    | stateNeedsUpgrade =>
        call (PreflightUpgradeCall preflight desiredRel) ;;;
        ret (preflight_Upgrade preflight desiredRel)
    | _ => ret None
    end.

(** The second [switch state] of [Apply]: the release to read the managed
    objects from, or the error returned. *)
Definition applyRelease (ac : ActionInterface) (ext : ClusterExtension)
           (chrt : Chart) (installLabels : list (string * string))
           (post : postrenderer) (state : releaseState)
           (rel : option release.Release)
  : M Event (option release.Release + error) :=
  match state with
  | stateNeedsInstall =>
      let opts := mkInstallOptions false false "" installLabels post in
      call (ActionInstallCall opts) ;;;
      match ac_Install ac (ext_Name ext) (ext_InstallNamespace ext) chrt opts with
      | inr err => ret (inr err)
      | inl installed => ret (inl (Some installed))
      end
  | stateNeedsUpgrade =>
      let opts :=
        mkUpgradeOptions maxHelmReleaseHistory false "" installLabels post in
      call (ActionUpgradeCall opts) ;;;
      match ac_Upgrade ac (ext_Name ext) (ext_InstallNamespace ext) chrt opts with
      | inr err => ret (inr err)
      | inl upgraded => ret (inl (Some upgraded))
      end
  | stateUnchanged =>
      call (ActionReconcileCall rel) ;;;
      match ac_Reconcile ac rel with
      | Some err => ret (inr err)
      | None => ret (inl rel)
      end
  | stateError =>
      ret (inr (Errorf "unexpected release state %q"
                       [releaseState_string state] None))
  end.

(** The end of [Apply]: the objects of the manifest of the release that
    was installed, upgraded or reconciled. *)
Definition managedObjects (applied : option release.Release + error)
  : list crdupgradesafety.Object + error :=
  match applied with
  | inr e => inr e
  | inl None => inr nilDereference
  | inl (Some rel) =>
      match crdupgradesafety.ManifestObjects
              (release.Manifest rel)
              (release.Name rel ++ "-release-manifest") with
      | inr e => inr (Errorf "getting managed objects: %w" [] (Some e))
      | inl relObjects => inl relObjects
      end
  end.

(** [Helm.Apply] from the call of [getReleaseState] on. *)
Definition applyBody (h : Helm) (ac : ActionInterface) (ext : ClusterExtension)
           (chrt : Chart) (installLabels : list (string * string))
           (post : postrenderer)
  : M Event (list crdupgradesafety.Object + error) :=
  got <- getReleaseState ac ext chrt post ;;
  let '(rel, desiredRel, state, err) := got in
  match err with
  | Some e => ret (inr e)
  | None =>
      failed <- forRangeReturn (Preflights h)
                  (runPreflight ext state desiredRel) ;;
      match failed with
      | Some e => ret (inr e)
      | None =>
          applied <- applyRelease ac ext chrt installLabels post state rel ;;
          ret (managedObjects applied)
      end
  end.

Definition postrendererFor (ext : ClusterExtension) (bundle : Bundle)
           (bundleVersion : SemVer) : postrenderer :=
  mkPostrenderer
    [ (OwnerKindKey, ClusterExtensionKind);
      (OwnerNameKey, ext_Name ext);
      (BundleNameKey, bundle_Name bundle);
      (PackageNameKey, bundle_Package bundle);
      (BundleVersionKey, SemVer_String bundleVersion) ].

Definition installLabelsFor (bundle : Bundle) (bundleVersion : SemVer)
  : list (string * string) :=
  [ (BundleNameKey, bundle_Name bundle);
    (PackageNameKey, bundle_Package bundle);
    (BundleVersionKey, SemVer_String bundleVersion) ].

(** [Helm.Apply]: the managed objects or the error, and the calls made. *)
Definition Apply (h : Helm) (contentFS : FS) (ext : ClusterExtension)
           (bundle : Bundle)
  : (list crdupgradesafety.Object + error) * list Event :=
  match RegistryV1ToHelmChart contentFS (ext_InstallNamespace ext) [""] with
  | inr err => (inr err, [])
  | inl chrt =>
  match ActionClientFor h ext with
  | inr err => (inr err, [])
  | inl ac =>
  match bundle_Version bundle with
  | inr err => (inr err, [])
  | inl bundleVersion =>
      let (result, s) :=
        applyBody h ac ext chrt (installLabelsFor bundle bundleVersion)
                  (postrendererFor ext bundle bundleVersion) empty in
      (result, calls s)
  end end end.

(** The release state [Apply] computes, when it gets as far as computing
    one. *)
Definition computedState (h : Helm) (contentFS : FS) (ext : ClusterExtension)
           (bundle : Bundle) : option releaseState :=
  match RegistryV1ToHelmChart contentFS (ext_InstallNamespace ext) [""] with
  | inr _ => None
  | inl chrt =>
  match ActionClientFor h ext with
  | inr _ => None
  | inl ac =>
  match bundle_Version bundle with
  | inr _ => None
  | inl bundleVersion =>
      let '(_, _, state, _) :=
        fst (getReleaseState ac ext chrt
               (postrendererFor ext bundle bundleVersion) empty) in
      Some state
  end end end.

Definition isPreflightCall (ev : Event) : bool :=
  match ev with
  | PreflightInstallCall _ _ | PreflightUpgradeCall _ _ => true
  | _ => false
  end.

(** The applier with its upgrade-safety preflights taken out. *)
Definition withoutCRDUpgradeSafety (h : Helm) : Helm :=
  mkHelm (ActionClientFor h)
         (filter (fun p => negb (isCRDUpgradeSafety p)) (Preflights h)).

(** The calls that change the release: an install, an upgrade that is no
    dry run, a reconciliation. *)
Definition isMutating (ev : Event) : bool :=
  match ev with
  | ActionInstallCall opts => negb (install_DryRun opts)
  | ActionUpgradeCall opts => negb (upgrade_DryRun opts)
  | ActionReconcileCall _ => true
  | _ => false
  end.

(** The options of the dry-run upgrade of [getReleaseState]. *)
Definition dryRunUpgrade (post : postrenderer) : UpgradeOptions :=
  mkUpgradeOptions maxHelmReleaseHistory true "server" [] post.

(** The options of the install and of the upgrade of [Apply]. *)
Definition installOptions (installLabels : list (string * string))
           (post : postrenderer) : InstallOptions :=
  mkInstallOptions false false "" installLabels post.

Definition upgradeOptions (installLabels : list (string * string))
           (post : postrenderer) : UpgradeOptions :=
  mkUpgradeOptions maxHelmReleaseHistory false "" installLabels post.

(** [Apply] once the state is computed without error: the preflights, then
    the install, upgrade or reconciliation; [gets] are the calls that
    computed the state. *)
Definition staged (h : Helm) (ac : ActionInterface) (ext : ClusterExtension)
           (chrt : Chart) (installLabels : list (string * string))
           (post : postrenderer) (state : releaseState)
           (rel desiredRel : option release.Release) (gets : list Event)
  : (list crdupgradesafety.Object + error) * list Event :=
  let loop :=
    forRangeReturn (Preflights h) (runPreflight ext state desiredRel) empty in
  match fst loop with
  | Some e => (inr e, gets ++ calls (snd loop))
  | None =>
      let applied :=
        applyRelease ac ext chrt installLabels post state rel empty in
      (managedObjects (fst applied),
       gets ++ calls (snd loop) ++ calls (snd applied))
  end.

End Package.
End applier.

(* ================================================================== *)
(** ** package resolution *)
(* ================================================================== *)

Module sort.

(** Where [x] goes in a sorted slice so that it stays ahead of the elements
    it is not greater than. *)
Fixpoint insert {A} (less : A -> A -> bool) (x : A) (l : list A) : list A :=
  match l with
  | [] => [x]
  | y :: rest => if less y x then y :: insert less x rest else x :: y :: rest
  end.

(** [sort.SliceStable]: sorts by [less] and keeps equal elements in their
    original order.  The library sorts blocks by insertion and merges them in
    place; for a [less] that is a strict weak order every stable sort yields
    the same slice, which is computed here by insertion from the right. *)
Definition SliceStable {A} (less : A -> A -> bool) (l : list A) : list A :=
  fold_right (insert less) [] l.

(** In a sorted slice no later element is less than an earlier one. *)
Definition ordered {A} (less : A -> A -> bool) (a b : A) : Prop :=
  less b a = false.

End sort.

Module resolution.

Import errors.

(** The fields of [ocv1alpha1.ClusterExtension] read by the resolver. *)
Record ClusterExtension : Type := mkClusterExtension {
  PackageName : string;
  Channel : string;
  Version : string;
  UpgradeConstraintPolicy : string
}.

Definition UpgradeConstraintPolicyIgnore : string := "Ignore".

Record BundleMetadata : Type := mkBundleMetadata {
  meta_Name : string;
  meta_Version : string
}.

(** The catalog packages and the semver library, which the resolver calls
    and which are not part of these sources. *)
Class Catalog : Type := {
  Bundle : Type;
  Constraints : Type;
  SemVer : Type;
  SemVer_String : SemVer -> string;
  NewConstraint : string -> Constraints + error;
  NewVersion : string -> SemVer + error;
  Sprintf : string -> list string -> string;
  IsDeprecated : Bundle -> bool;
  WithPackageName : string -> Bundle -> bool;
  InChannel : string -> Bundle -> bool;
  InMastermindsSemverRange : Constraints -> Bundle -> bool;
  SuccessorsPredicate :
    string -> BundleMetadata -> (Bundle -> bool) + error;
  ByVersion : Bundle -> Bundle -> bool
}.

Section Package.
Context `{Catalog}.

Definition Predicate : Type := Bundle -> bool.

(** Modelled from the spec: [catalogfilter.Filter] and [catalogfilter.And]
    are missing from the sources; "filtering by channel and semver range"
    keeps the bundles that satisfy every predicate given. *)
Definition And (predicates : list Predicate) : Predicate :=
  fun b => forallb (fun p => p b) predicates.

Definition Filter (bundles : list Bundle) (p : Predicate) : list Bundle :=
  filter p bundles.

(** Modelled from the spec: [catalogsort.ByDeprecated] is missing from the
    sources; "tie-breaking by deprecation" orders a bundle that is not
    deprecated before one that is. *)
Definition ByDeprecated (b1 b2 : Bundle) : bool :=
  negb (IsDeprecated b1) && IsDeprecated b2.

Definition ValidationFunc : Type := Bundle -> option error.

Record Resolver : Type := mkResolver {
  Bundles : string -> list Bundle + error;                 (* [BundleProvider] *)
  GetInstalledBundle :
    ClusterExtension -> option BundleMetadata + error;     (* [InstalledBundleGetter] *)
  Validations : list ValidationFunc
}.

(** The predicates [Resolve] collects, or the error it returns meanwhile. *)
Definition resolvePredicates (ext : ClusterExtension)
           (installedBundle : option BundleMetadata)
  : list Predicate + error :=
  let packageName := PackageName ext in
  let channelName := Channel ext in
  let versionRange := Version ext in
  let predicates := [WithPackageName packageName] in
  let predicates :=
    if negb (String.eqb channelName "")
    then predicates ++ [InChannel channelName]
    else predicates in
  let ranged :=
    if negb (String.eqb versionRange "")
    then match NewConstraint versionRange with
         | inr err =>
             inr (Errorf "invalid version range %q: %w" [versionRange] (Some err))
         | inl vr => inl (predicates ++ [InMastermindsSemverRange vr])
         end
    else inl predicates in
  match ranged with
  | inr e => inr e
  | inl predicates =>
      match installedBundle with
      | Some installed =>
          if negb (String.eqb (UpgradeConstraintPolicy ext)
                              UpgradeConstraintPolicyIgnore)
          then match SuccessorsPredicate (PackageName ext) installed with
               | inr err => inr err
               | inl upgradePredicate => inl (predicates ++ [upgradePredicate])
               end
          else inl predicates
      | None => inl predicates
      end
  end.

(** The error for an empty result set. *)
Definition notFound (upgradeErrorPrefix packageName versionRange channelName : string)
  : error :=
  if negb (String.eqb versionRange "") && negb (String.eqb channelName "")
  then Errorf "%sno package %q matching version %q in channel %q found"
              [upgradeErrorPrefix; packageName; versionRange; channelName] None
  else if negb (String.eqb versionRange "")
  then Errorf "%sno package %q matching version %q found"
              [upgradeErrorPrefix; packageName; versionRange] None
  else if negb (String.eqb channelName "")
  then Errorf "%sno package %q in channel %q found"
              [upgradeErrorPrefix; packageName; channelName] None
  else Errorf "%sno package %q found" [upgradeErrorPrefix; packageName] None.

(** [for _, validation := range r.Validations] on the resolved bundle. *)
Fixpoint validateResolved (validations : list ValidationFunc)
         (resolvedBundle : Bundle) : Bundle + error :=
  match validations with
  | [] => inl resolvedBundle
  | validation :: rest =>
      match validation resolvedBundle with
      | Some err => inr (Errorf "validating resolved bundle: %w" [] (Some err))
      | None => validateResolved rest resolvedBundle
      end
  end.

(** The two stable sorts of the result set. *)
Definition sortResultSet (resultSet : list Bundle) : list Bundle :=
  sort.SliceStable ByDeprecated (sort.SliceStable ByVersion resultSet).

(** [Resolver.Resolve] *)
Definition Resolve (r : Resolver) (ext : option ClusterExtension)
  : Bundle + error :=
  match ext with
  | None => inr (New "nil ClusterExtension provided, unable to resolve")
  | Some ext =>
  match Bundles r (PackageName ext) with
  | inr err => inr (Errorf "fetching bundles: %w" [] (Some err))
  | inl allBundles =>
  match GetInstalledBundle r ext with
  | inr err => inr (Errorf "fetching installed bundle: %w" [] (Some err))
  | inl installedBundle =>
  match resolvePredicates ext installedBundle with
  | inr err => inr err
  | inl predicates =>
      let resultSet := Filter allBundles (And predicates) in
      let prefixed :=
        match installedBundle with
        | Some installed =>
            match NewVersion (meta_Version installed) with
            | inr err => inr err
            | inl installedBundleVersion =>
                inl (Sprintf "error upgrading from currently installed version %q: "
                             [SemVer_String installedBundleVersion])
            end
        | None => inl ""
        end in
      match prefixed with
      | inr err => inr err
      | inl upgradeErrorPrefix =>
          match resultSet with
          | [] =>
              inr (notFound upgradeErrorPrefix (PackageName ext)
                            (Version ext) (Channel ext))
          | first :: _ =>
              (* [resultSet[0]] after the sorts, which keep the length *)
              let resolvedBundle := hd first (sortResultSet resultSet) in
              validateResolved (Validations r) resolvedBundle
          end
      end
  end end end end.

(** A bundle that matches the package, the channel when one is given and
    the version range when one is given. *)
Definition matches (ext : ClusterExtension) (c : Bundle) : Prop :=
  WithPackageName (PackageName ext) c = true /\
  (Channel ext <> "" -> InChannel (Channel ext) c = true) /\
  (Version ext <> "" ->
   exists vr, NewConstraint (Version ext) = inl vr /\
              InMastermindsSemverRange vr c = true).

(** The statement that a deprecated bundle is resolved only when no bundle
    of the catalog that matches is not deprecated. *)
Definition deprecatedOnlyAsLastResort (r : Resolver) (ext : ClusterExtension)
  : Prop :=
  forall allBundles b c,
    Bundles r (PackageName ext) = inl allBundles ->
    Resolve r (Some ext) = inl b ->
    IsDeprecated b = true ->
    In c allBundles ->
    matches ext c ->
    IsDeprecated c = true.

End Package.

(** A property of a bundle ([property.Property]): its type and its raw
    value. *)
Record Property : Type := mkProperty {
  prop_Type : string;
  prop_Value : string
}.

(** The name and the properties of a bundle, and the property types of the
    registry that declare a dependency. *)
Class BundleFields `{Catalog} : Type := {
  BundleName : Bundle -> string;
  Properties : Bundle -> list Property;
  TypePackageRequired : string;
  TypeGVKRequired : string;
  TypeConstraint : string
}.

Section Validations.
Context `{BundleFields}.

(** [sets.New(...)] of the three property types, and its [Has]. *)
Definition unsupportedProps : list string :=
  [TypePackageRequired; TypeGVKRequired; TypeConstraint].

Definition Has (set : list string) (item : string) : bool :=
  existsb (String.eqb item) set.

(** The loop of [NoDependencyValidation] over the properties. *)
Fixpoint firstUnsupported (bundleName : string) (properties : list Property)
  : option error :=
  match properties with
  | [] => None
  | prop :: rest =>
      if Has unsupportedProps (prop_Type prop)
      then Some (Errorf
                   "bundle %q has a dependency declared via property %q which is currently not supported"
                   [bundleName; prop_Type prop] None)
      else firstUnsupported bundleName rest
  end.

(** [NoDependencyValidation] *)
Definition NoDependencyValidation (bundle : Bundle) : option error :=
  firstUnsupported (BundleName bundle) (Properties bundle).

End Validations.

Section Installed.
Context `{kappcus.Library} `{!crdupgradesafety.Runtime} `{applier.Deps}.

(** [release.Labels] of a Helm release, a Go map: reading a key it does not
    hold gives the empty string. *)
Variable Labels : release.Release -> list (string * string).

Definition label (labels : list (string * string)) (key : string) : string :=
  match find (fun entry => String.eqb (fst entry) key) labels with
  | Some entry => snd entry
  | None => ""
  end.

(** [helmclient.ActionInterface], by the one method [GetInstalledBundle]
    calls, with both results of [Get]: the release, nil or not, and the
    error, nil or not. *)
Record ActionInterface : Type := mkActionInterface {
  Get : string -> option release.Release * option error
}.

(** [DefaultInstalledBundleGetter] embeds the getter of action clients. *)
Record DefaultInstalledBundleGetter : Type := mkDefaultInstalledBundleGetter {
  getter_ActionClientFor : applier.ClusterExtension -> ActionInterface + error
}.

(** [DefaultInstalledBundleGetter.GetInstalledBundle] *)
Definition DefaultInstalledBundleGetter_GetInstalledBundle
           (d : DefaultInstalledBundleGetter) (ext : applier.ClusterExtension)
  : option BundleMetadata + error :=
  match getter_ActionClientFor d ext with
  | inr err => inr err
  | inl cl =>
      let (release, err) := Get cl (applier.ext_Name ext) in
      let found :=
        match release with
        | None => inl None
        | Some release =>
            inl (Some (mkBundleMetadata
                         (label (Labels release) applier.BundleNameKey)
                         (label (Labels release) applier.BundleVersionKey)))
        end in
      match err with
      | Some e =>
          if negb (Is e applier.ErrReleaseNotFound) then inr e else found
      | None => found
      end
  end.

End Installed.
End resolution.

(* ================================================================== *)
(** ** The content manager
    ([internal/contentmanager/contentmanager.go]) *)
(* ================================================================== *)

Module contentmanager.

Import errors stmt.
Local Open Scope stmt_scope.

(** The field of [v1alpha1.ClusterExtension] read by the content manager:
    [ce.Name], which [ce.GetName()] returns. *)
Record ClusterExtension : Type := mkClusterExtension {
  Name : string
}.

(** [schema.GroupVersion] *)
Record GroupVersion : Type := mkGroupVersion {
  gv_Group : string;
  gv_Version : string
}.

(** The two types [buildScheme] registers: an [unstructured.Unstructured] and
    an [unstructured.UnstructuredList] with their kind set. *)
Inductive KnownType : Type :=
| Unstructured (gvk : schema.GroupVersionKind)
| UnstructuredList (gvk : schema.GroupVersionKind).

(** What apimachinery, client-go and controller-runtime give: the
    configurations, the schemes and their registry, the caches and their
    constructor, the contexts, the mapper and the objects. *)
Class Runtime : Type := {
  Config : Type;                                  (* [*rest.Config] *)
  Cache : Type;                                   (* [cache.Cache] *)
  Context : Type;                                 (* [context.Context] *)
  CancelFunc : Type;                              (* [context.CancelFunc] *)
  Scheme : Type;                                  (* [*runtime.Scheme] *)
  RESTMapper : Type;                              (* [meta.RESTMapper] *)
  Object : Type;                                  (* [client.Object] *)
  Selector : Type;                                (* [labels.Selector] *)
  (* [obj.GetObjectKind().GroupVersionKind()] *)
  GroupVersionKind : Object -> schema.GroupVersionKind;
  (* a kind as [%s] prints it *)
  GroupVersionKind_String : schema.GroupVersionKind -> string;
  NewScheme : Scheme;                             (* [runtime.NewScheme()] *)
  (* [v1alpha1.AddToScheme(scheme)] *)
  AddToScheme : Scheme -> Scheme + error;
  Recognizes : Scheme -> schema.GroupVersionKind -> bool;
  AddKnownTypeWithName :
    Scheme -> schema.GroupVersionKind -> KnownType -> Scheme;
  (* [metav1.AddToGroupVersion(scheme, gv)] *)
  AddToGroupVersion : Scheme -> GroupVersion -> Scheme;
  (* [labels.Set{...}.AsSelector()] *)
  AsSelector : list (string * string) -> Selector;
  (* [cache.New(cfg, cache.Options{Scheme: ..., DefaultLabelSelector: ...})] *)
  cache_New : Config -> Scheme -> Selector -> Cache + error;
  (* [context.WithCancel(ctx)] *)
  WithCancel : Context -> Context * CancelFunc
}.

Section Package.
Context `{Runtime} `{applier.Deps}.

Definition RestConfigMapper : Type :=
  ClusterExtension -> Config -> Config + error.

Record extensionCacheData : Type := mkExtensionCacheData {
  data_Cache : Cache;
  Cancel : CancelFunc
}.

(** [instance]; the map of caches is a function from the extension's
    name. *)
Record instance : Type := mkInstance {
  rcm : RestConfigMapper;
  baseCfg : Config;
  extensionCaches : string -> option extensionCacheData;
  mapper : RESTMapper
}.

(** [New] *)
Definition New (rcm : RestConfigMapper) (cfg : Config) (mapper : RESTMapper)
  : instance :=
  mkInstance rcm cfg (fun _ => None) mapper.

(** The body of the loop of [buildScheme]: the scheme it leaves, or the
    error returned. *)
Definition addObject (scheme : Scheme) (obj : Object) : Scheme + error :=
  let gvk := GroupVersionKind obj in
  let listKind := (schema.Kind gvk ++ "List")%string in
  if String.eqb (schema.Kind gvk) "" || String.eqb (schema.Version gvk) ""
  then inr (errors.New "object Kind or Version is not defined")
  else
    if negb (Recognizes scheme gvk)
    then
      let listGVK :=
        schema.mkGVK (schema.Group gvk) (schema.Version gvk) listKind in
      let scheme := AddKnownTypeWithName scheme gvk (Unstructured gvk) in
      let scheme :=
        AddKnownTypeWithName scheme listGVK (UnstructuredList listGVK) in
      inl (AddToGroupVersion scheme
             (mkGroupVersion (schema.Group gvk) (schema.Version gvk)))
    else inl scheme.

(** [for _, obj := range objs] of [buildScheme]. *)
Fixpoint addObjects (scheme : Scheme) (objs : list Object) : Scheme + error :=
  match objs with
  | [] => inl scheme
  | obj :: rest =>
      match addObject scheme obj with
      | inr err => inr err
      | inl scheme => addObjects scheme rest
      end
  end.

(** [buildScheme] *)
Definition buildScheme (objs : list Object) : Scheme + error :=
  match AddToScheme NewScheme with
  | inr err =>
      inr (Errorf "adding operator controller APIs to scheme: %w" []
                  (Some err))
  | inl scheme => addObjects scheme objs
  end.

(** [handler.TypedEnqueueRequestForOwner(scheme, mapper, owner)] *)
Record EnqueueRequestForOwner : Type := mkEnqueueRequestForOwner {
  owner_Scheme : Scheme;
  owner_Mapper : RESTMapper;
  owner_Object : ClusterExtension
}.

(** [source.Kind(cache, object, handler)] *)
Record Kind : Type := mkKind {
  kind_Cache : Cache;
  kind_Object : Object;
  kind_Handler : EnqueueRequestForOwner
}.

(** [controller.Controller], by its [Watch]. *)
Record Controller : Type := mkController {
  Watch : Kind -> option error
}.

(** Calls made by the content manager; [CacheStart] is [go c.Start(ctx)]. *)
Inductive Event : Type :=
| CacheNew (cfg : Config) (scheme : Scheme) (selector : Selector)
| ControllerWatch (src : Kind)
| CancelCall (cancel : CancelFunc)
| CacheStart (c : Cache) (ctx : Context).

(** The source [ManageContent] watches for an object. *)
Definition sourceFor (i : instance) (ce : ClusterExtension) (scheme : Scheme)
           (c : Cache) (obj : Object) : Kind :=
  mkKind c obj (mkEnqueueRequestForOwner scheme (mapper i) ce).

(** The body of [for _, obj := range objs] of [ManageContent]: [Some err] is
    [return err]. *)
Definition watchObject (i : instance) (ctrl : Controller)
           (ce : ClusterExtension) (scheme : Scheme) (c : Cache) (obj : Object)
  : M Event (option error) :=
  let src := mkKind c obj (mkEnqueueRequestForOwner scheme (mapper i) ce) in
  call (ControllerWatch src) ;;;
  match Watch ctrl src with
  | Some err =>
      ret (Some (Errorf
                   "creating watch for ClusterExtension %q managed resource %s: %w"
                   [Name ce; GroupVersionKind_String (GroupVersionKind obj)]
                   (Some err)))
  | None => ret None
  end.

(** [i.extensionCaches[name] = data] and [delete(i.extensionCaches, name)] *)
Definition setCache (i : instance) (name : string) (data : extensionCacheData)
  : instance :=
  mkInstance (rcm i) (baseCfg i)
             (fun key => if String.eqb key name then Some data
                         else extensionCaches i key)
             (mapper i).

Definition deleteCache (i : instance) (name : string) : instance :=
  mkInstance (rcm i) (baseCfg i)
             (fun key => if String.eqb key name then None
                         else extensionCaches i key)
             (mapper i).

(** [tgtLabels] of [ManageContent] *)
Definition tgtLabels (ce : ClusterExtension) : list (string * string) :=
  [ (applier.OwnerKindKey, applier.ClusterExtensionKind);
    (applier.OwnerNameKey, Name ce) ].

(** [if data, ok := i.extensionCaches[name]; ok { data.Cancel() }] *)
Definition cancelCache (i : instance) (name : string) : list Event :=
  match extensionCaches i name with
  | Some data => [CancelCall (Cancel data)]
  | None => []
  end.

(** [instance.ManageContent]: the error returned and the instance it leaves,
    and the calls made. *)
Definition ManageContent (i : instance) (ctx : Context) (ctrl : Controller)
           (ce : ClusterExtension) (objs : list Object)
  : (option error * instance) * list Event :=
  match rcm i ce (baseCfg i) with
  | inr err =>
      (Some (Errorf "getting rest.Config for ClusterExtension %q: %w"
                    [Name ce] (Some err)), i, [])
  | inl cfg =>
  match buildScheme objs with
  | inr err => (Some err, i, [])
  | inl scheme =>
      let selector := AsSelector (tgtLabels ce) in
      match cache_New cfg scheme selector with
      | inr err =>
          (Some (Errorf "creating cache for ClusterExtension %q: %w"
                        [Name ce] (Some err)), i,
           [CacheNew cfg scheme selector])
      | inl c =>
          let (failed, s) :=
            forRangeReturn objs (watchObject i ctrl ce scheme c) empty in
          match failed with
          | Some err => (Some err, i, CacheNew cfg scheme selector :: calls s)
          | None =>
              let cancelled := cancelCache i (Name ce) in
              let (started, cancel) := WithCancel ctx in
              (None,
               setCache i (Name ce) (mkExtensionCacheData c cancel),
               CacheNew cfg scheme selector
                 :: calls s ++ cancelled ++ [CacheStart c started])
          end
      end
  end end.

(** [instance.RemoveManagedContent] *)
Definition RemoveManagedContent (i : instance) (ce : ClusterExtension)
  : (option error * instance) * list Event :=
  match extensionCaches i (Name ce) with
  | Some data => (None, deleteCache i (Name ce), [CancelCall (Cancel data)])
  | None => (None, i, [])
  end.

(** The calls that start a cache or cancel one. *)
Definition isStartOrCancel (ev : Event) : bool :=
  match ev with
  | CacheStart _ _ | CancelCall _ => true
  | _ => false
  end.

(** An object that [buildScheme] refuses. *)
Definition undefinedKind (obj : Object) : bool :=
  String.eqb (schema.Kind (GroupVersionKind obj)) ""
  || String.eqb (schema.Version (GroupVersionKind obj)) "".

End Package.
End contentmanager.

(* ================================================================== *)
(** ** Test doubles

    A small stand-in for the library, the cluster and the Helm client, in the
    manner of the fakes of the Go tests: schemas are flat already, a field
    carries a type and a maximum, and only the maximum rule knows a change. *)
(* ================================================================== *)

Module fake.

Import errors kappcus.

Definition Field : Type := (string * nat)%type.          (* type, maximum *)

#[export] Instance schemas : Schemas := {|
  JSONSchemaProps := list (string * Field);
  FlatSchema := list (string * Field);
  FieldDiff := (Field * Field)%type
|}.

Definition Field_eqb (a b : Field) : bool :=
  String.eqb (fst a) (fst b) && Nat.eqb (snd a) (snd b).

Fixpoint lookup (field : string) (flat : list (string * Field)) : option Field :=
  match flat with
  | [] => None
  | (name, d) :: rest => if String.eqb name field then Some d else lookup field rest
  end.

(** Fields of [o] that changed in [n]; a field missing from [n] is an error. *)
Fixpoint diff (o n : list (string * Field))
  : list (string * (Field * Field)) + error :=
  match o with
  | [] => inl []
  | (field, old) :: rest =>
      match lookup field n with
      | None => inr (New "field in existing not found in new")
      | Some new =>
          match diff rest n with
          | inr e => inr e
          | inl diffs =>
              if Field_eqb old new then inl diffs
              else inl ((field, (old, new)) :: diffs)
          end
      end
  end.

(** Handles a change of the maximum alone; rejects a lowered maximum. *)
Definition maximumChange (d : Field * Field) : bool * option error :=
  let (old, new) := d in
  (String.eqb (fst old) (fst new),
   if Nat.ltb (snd new) (snd old) then Some (New "maximum decreased") else None).

Definition declines (d : Field * Field) : bool * option error := (false, None).

Definition scope_eqb (a b : ResourceScope) : bool :=
  match a, b with
  | NamespaceScoped, NamespaceScoped | ClusterScoped, ClusterScoped => true
  | _, _ => false
  end.

Definition noScopeChange (old new : CustomResourceDefinition) : option error :=
  if scope_eqb (crd_Scope old) (crd_Scope new) then None
  else Some (New "scope changed").

Definition passes (old new : CustomResourceDefinition) : option error := None.

Definition runValidator (v : Validator) (old new : CustomResourceDefinition)
  : option error :=
  Join (flat_map
          (fun validation =>
             match validation with
             | NewValidationFunc name f =>
                 match f old new with
                 | Some e => [Errorf "%q validation failed: %w" [name] (Some e)]
                 | None => []
                 end
             | ChangeValidator _ => []
             end)
          (Validations v)).

#[export] Instance library : Library := {|
  FlattenSchema := fun tree => tree;
  CalculateFlatSchemaDiff := diff;
  Validate := runValidator;
  NoScopeChange := noScopeChange;
  NoStoredVersionRemoved := passes;
  NoExistingFieldRemoved := passes;
  EnumChangeValidation := declines;
  RequiredFieldChangeValidation := declines;
  MaximumChangeValidation := maximumChange;
  MaximumItemsChangeValidation := declines;
  MaximumLengthChangeValidation := declines;
  MaximumPropertiesChangeValidation := declines;
  MinimumChangeValidation := declines;
  MinimumItemsChangeValidation := declines;
  MinimumLengthChangeValidation := declines;
  MinimumPropertiesChangeValidation := declines;
  DefaultValueChangeValidation := declines
|}.

(** Two versions of [widgets]: [v2] turns [spec.size] from an integer into
    a string, which no rule knows, and lowers the maximum of
    [spec.replicas]. *)
Definition v1 : CustomResourceDefinitionVersion :=
  mkVersion "v1" [("spec.replicas", ("integer", 10)); ("spec.size", ("integer", 5))].

Definition v2 : CustomResourceDefinitionVersion :=
  mkVersion "v2" [("spec.replicas", ("integer", 3)); ("spec.size", ("string", 5))].

Definition widgets : CustomResourceDefinition :=
  mkCRD "widgets" NamespaceScoped [v1; v2] ["v1"].

(** [widgets] as proposed with another scope and a single version, and
    [gadgets], which the cluster does not have. *)
Definition widgetsActive : CustomResourceDefinition :=
  mkCRD "widgets" NamespaceScoped [v1] ["v1"].

Definition widgetsProposed : CustomResourceDefinition :=
  mkCRD "widgets" ClusterScoped [v1] ["v1"].

Definition gadgets : CustomResourceDefinition :=
  mkCRD "gadgets" NamespaceScoped [v1] ["v1"].

(** A manifest object is its kind and, for a definition, its content. *)
Record Obj : Type := mkObj {
  obj_gvk : schema.GroupVersionKind;
  obj_name : string;
  obj_crd : option CustomResourceDefinition
}.

Definition crdObject (crd : CustomResourceDefinition) : Obj :=
  mkObj crdupgradesafety.CustomResourceDefinitionGVK (crd_Name crd) (Some crd).

Definition configMap : Obj :=
  mkObj (schema.mkGVK "" "v1" "ConfigMap") "settings" None.

(** Manifests are named rather than parsed. *)
Definition manifestObjects (manifest name : string) : list Obj + error :=
  if String.eqb manifest "widgets" then inl [configMap; crdObject widgetsProposed]
  else if String.eqb manifest "widgets,gadgets"
  then inl [crdObject widgetsProposed; configMap; crdObject gadgets]
  else if String.eqb manifest "" then inl []
  else inr (New "malformed manifest").

#[export] Instance runtime : crdupgradesafety.Runtime := {|
  crdupgradesafety.Object := Obj;
  crdupgradesafety.Unstructured := Obj;
  crdupgradesafety.GroupVersionKind := obj_gvk;
  crdupgradesafety.GetName := obj_name;
  crdupgradesafety.ManifestObjects := manifestObjects;
  crdupgradesafety.ToUnstructured := fun obj => inl obj;
  crdupgradesafety.FromUnstructured := fun u =>
    match obj_crd u with
    | Some crd => inl crd
    | None => inr (New "not a definition")
    end
|}.

(** A cluster that has [widgets] only. *)
Definition cluster : crdupgradesafety.CustomResourceDefinitionInterface :=
  crdupgradesafety.mkClient (fun name =>
    if String.eqb name "widgets" then inl widgetsActive
    else inr (New "customresourcedefinitions.apiextensions.k8s.io not found")).

Definition preflight : crdupgradesafety.Preflight :=
  crdupgradesafety.NewPreflight cluster [].

Definition widgetsRelease : release.Release :=
  release.mkRelease "demo" "widgets" release.StatusDeployed.

Definition bothRelease : release.Release :=
  release.mkRelease "demo" "widgets,gadgets" release.StatusDeployed.

(** The applier's side: a Helm client whose current release has an empty
    manifest while the dry-run upgrade renders [widgets], and an applier
    with the upgrade-safety preflight and one other preflight that passes. *)
#[export] Instance deps : applier.Deps := {|
  applier.FS := unit;
  applier.Chart := string;
  applier.SemVer := string;
  applier.SemVer_String := fun v => v;
  applier.RegistryV1ToHelmChart := fun _ _ _ => inl "chart";
  applier.ClusterExtensionKind := "ClusterExtension";
  applier.OwnerKindKey := "olm.operatorframework.io/owner-kind";
  applier.OwnerNameKey := "olm.operatorframework.io/owner-name";
  applier.BundleNameKey := "olm.operatorframework.io/bundle-name";
  applier.PackageNameKey := "olm.operatorframework.io/package-name";
  applier.BundleVersionKey := "olm.operatorframework.io/bundle-version"
|}.

Definition currentRelease : release.Release :=
  release.mkRelease "demo" "" release.StatusDeployed.

Definition helmClient : applier.ActionInterface :=
  applier.mkActionInterface
    (fun _ => inl currentRelease)
    (fun _ _ _ _ => inl widgetsRelease)
    (fun _ _ _ _ => inl widgetsRelease)
    (fun _ => None).

(** A Helm client whose dry-run upgrade renders the manifest of the
    current release again. *)
Definition steadyClient : applier.ActionInterface :=
  applier.mkActionInterface
    (fun _ => inl currentRelease)
    (fun _ _ _ _ => inl currentRelease)
    (fun _ _ _ _ => inl currentRelease)
    (fun _ => None).

Definition passing : applier.Preflight :=
  applier.OtherPreflight (fun _ => None) (fun _ => None).

Definition helm : applier.Helm :=
  applier.mkHelm (fun _ => inl helmClient)
                 [applier.CRDUpgradeSafetyPreflight preflight; passing].

Definition steadyHelm : applier.Helm :=
  applier.mkHelm (fun _ => inl steadyClient)
                 [applier.CRDUpgradeSafetyPreflight preflight; passing].

Definition disabledConfig : applier.PreflightConfig :=
  applier.mkPreflightConfig (Some (applier.mkCRDUpgradeSafetyConfig true)).

Definition extension : applier.ClusterExtension :=
  applier.mkClusterExtension "demo" "demo-system" (Some disabledConfig).

Definition bundle : applier.Bundle :=
  applier.mkBundle "widgets.v2" "widgets" (inl "2.0.0").

(** The resolver's side: a catalog of three [widgets] bundles in one
    channel, the highest of which is deprecated. *)
Record CatalogBundle : Type := mkCatalogBundle {
  cb_Name : string;
  cb_Package : string;
  cb_Channel : string;
  cb_Version : nat;
  cb_Deprecated : bool
}.

#[export] Instance catalog : resolution.Catalog := {|
  resolution.Bundle := CatalogBundle;
  resolution.Constraints := nat;                   (* a least version *)
  resolution.SemVer := nat;
  resolution.SemVer_String := fun _ => "1.0.0";
  resolution.NewConstraint := fun range =>
    if String.eqb range ">=2" then inl 2 else inr (New "improper constraint");
  resolution.NewVersion := fun _ => inl 1;
  resolution.Sprintf := fun format _ => format;
  resolution.IsDeprecated := cb_Deprecated;
  resolution.WithPackageName := fun name b => String.eqb (cb_Package b) name;
  resolution.InChannel := fun name b => String.eqb (cb_Channel b) name;
  resolution.InMastermindsSemverRange := fun least b =>
    Nat.leb least (cb_Version b);
  resolution.SuccessorsPredicate := fun _ _ => inl (fun _ => true);
  resolution.ByVersion := fun b1 b2 => Nat.ltb (cb_Version b2) (cb_Version b1)
|}.

Definition widgets1 : CatalogBundle :=
  mkCatalogBundle "widgets.v1" "widgets" "stable" 1 false.

Definition widgets2 : CatalogBundle :=
  mkCatalogBundle "widgets.v2" "widgets" "stable" 2 false.

Definition widgets3 : CatalogBundle :=
  mkCatalogBundle "widgets.v3" "widgets" "stable" 3 true.

Definition gadgets1 : CatalogBundle :=
  mkCatalogBundle "gadgets.v1" "gadgets" "stable" 1 false.

Definition resolver : resolution.Resolver :=
  resolution.mkResolver
    (fun _ => inl [widgets1; gadgets1; widgets2; widgets3])
    (fun _ => inl None)
    [fun _ => None].

Definition wanted : resolution.ClusterExtension :=
  resolution.mkClusterExtension "widgets" "stable" "" "Enforce".

End fake.

(** More test doubles: a version that lacks a field, and a manifest with a
    definition that does not convert. *)
Module fake_more.

Import errors kappcus fake.

Definition v3 : CustomResourceDefinitionVersion :=
  mkVersion "v3" [("spec.replicas", ("integer", 10))].

(** Going from [v1] to [v3] drops [spec.size], which the diff refuses. *)
Definition shrunk : CustomResourceDefinition :=
  mkCRD "widgets" NamespaceScoped [v1; v3] ["v1"].

Definition brokenObject : Obj :=
  mkObj crdupgradesafety.CustomResourceDefinitionGVK "broken" None.

Definition brokenManifestObjects (manifest name : string) : list Obj + error :=
  if String.eqb manifest "widgets,broken,gadgets"
  then inl [crdObject widgetsProposed; brokenObject; crdObject gadgets]
  else inr (New "malformed manifest").

Definition brokenRuntime : crdupgradesafety.Runtime := {|
  crdupgradesafety.Object := Obj;
  crdupgradesafety.Unstructured := Obj;
  crdupgradesafety.GroupVersionKind := obj_gvk;
  crdupgradesafety.GetName := obj_name;
  crdupgradesafety.ManifestObjects := brokenManifestObjects;
  crdupgradesafety.ToUnstructured := fun obj => inl obj;
  crdupgradesafety.FromUnstructured := fun u =>
    match obj_crd u with
    | Some crd => inl crd
    | None => inr (New "not a definition")
    end
|}.

Definition brokenRelease : release.Release :=
  release.mkRelease "demo" "widgets,broken,gadgets" release.StatusDeployed.

(** An extension that leaves the upgrade-safety preflight on. *)
Definition plainExtension : applier.ClusterExtension :=
  applier.mkClusterExtension "demo" "demo-system" None.

(** The catalog of [fake] with the property types of the registry; version 2
    of [widgets] declares a dependency on [gadgets]. *)
#[export] Instance bundleFields : resolution.BundleFields := {|
  resolution.BundleName := cb_Name;
  resolution.Properties := fun b =>
    if String.eqb (cb_Name b) "widgets.v2"
    then [resolution.mkProperty "olm.package" "widgets";
          resolution.mkProperty "olm.package.required" "gadgets";
          resolution.mkProperty "olm.constraint" "all"]
    else [resolution.mkProperty "olm.package" (cb_Package b)];
  resolution.TypePackageRequired := "olm.package.required";
  resolution.TypeGVKRequired := "olm.gvk.required";
  resolution.TypeConstraint := "olm.constraint"
|}.

Definition carefulResolver : resolution.Resolver :=
  resolution.mkResolver
    (fun _ => inl [widgets1; gadgets1; widgets2; widgets3])
    (fun _ => inl None)
    [resolution.NoDependencyValidation].

(** The same resolver over a cluster that has version 1 of [widgets]
    installed. *)
Definition carefulUpgrader : resolution.Resolver :=
  resolution.mkResolver
    (fun _ => inl [widgets1; gadgets1; widgets2; widgets3])
    (fun _ => inl (Some (resolution.mkBundleMetadata "widgets.v1" "1.0.0")))
    [resolution.NoDependencyValidation].

Definition wantedGadgets : resolution.ClusterExtension :=
  resolution.mkClusterExtension "gadgets" "" "" "Enforce".

Definition wantedSprockets : resolution.ClusterExtension :=
  resolution.mkClusterExtension "sprockets" "stable" "" "Enforce".

Definition wantedAnyway : resolution.ClusterExtension :=
  resolution.mkClusterExtension "widgets" "stable" "" "Ignore".

(** A resolver over a cluster that has version 1 of [widgets] installed. *)
Definition upgradingResolver : resolution.Resolver :=
  resolution.mkResolver
    (fun _ => inl [widgets1; gadgets1; widgets2; widgets3])
    (fun _ => inl (Some (resolution.mkBundleMetadata "widgets.v1" "1.0.0")))
    [fun _ => None].

(** The catalog of [fake] over a semver library that refuses the version
    [unknown]. *)
Definition strictCatalog : resolution.Catalog := {|
  resolution.Bundle := CatalogBundle;
  resolution.Constraints := nat;
  resolution.SemVer := nat;
  resolution.SemVer_String := fun _ => "1.0.0";
  resolution.NewConstraint := fun range =>
    if String.eqb range ">=2" then inl 2 else inr (New "improper constraint");
  resolution.NewVersion := fun version =>
    if String.eqb version "unknown"
    then inr (New "Invalid Semantic Version")
    else inl 1;
  resolution.Sprintf := fun format _ => format;
  resolution.IsDeprecated := cb_Deprecated;
  resolution.WithPackageName := fun name b => String.eqb (cb_Package b) name;
  resolution.InChannel := fun name b => String.eqb (cb_Channel b) name;
  resolution.InMastermindsSemverRange := fun least b =>
    Nat.leb least (cb_Version b);
  resolution.SuccessorsPredicate := fun _ _ => inl (fun _ => true);
  resolution.ByVersion := fun b1 b2 => Nat.ltb (cb_Version b2) (cb_Version b1)
|}.

(** A resolver over a release whose version label does not parse. *)
Definition unlabelledResolver : @resolution.Resolver strictCatalog :=
  @resolution.mkResolver strictCatalog
    (fun _ => inl [widgets1; gadgets1; widgets2; widgets3])
    (fun _ => inl (Some (resolution.mkBundleMetadata "widgets.v1" "unknown")))
    [fun _ => None].

(** The library of [fake] with an Enum rule that declines with an error. *)
Definition complains (d : Field * Field) : bool * option error :=
  (false, Some (New "enum cannot tell")).

Definition noisyLibrary : Library := {|
  FlattenSchema := fun tree => tree;
  CalculateFlatSchemaDiff := diff;
  Validate := runValidator;
  NoScopeChange := noScopeChange;
  NoStoredVersionRemoved := passes;
  NoExistingFieldRemoved := passes;
  EnumChangeValidation := complains;
  RequiredFieldChangeValidation := declines;
  MaximumChangeValidation := maximumChange;
  MaximumItemsChangeValidation := declines;
  MaximumLengthChangeValidation := declines;
  MaximumPropertiesChangeValidation := declines;
  MinimumChangeValidation := declines;
  MinimumItemsChangeValidation := declines;
  MinimumLengthChangeValidation := declines;
  MinimumPropertiesChangeValidation := declines;
  DefaultValueChangeValidation := declines
|}.

(** A version of [widgets] that raises the maximum of [spec.replicas]. *)
Definition v4 : CustomResourceDefinitionVersion :=
  mkVersion "v4" [("spec.replicas", ("integer", 20)); ("spec.size", ("integer", 5))].

Definition raised : CustomResourceDefinition :=
  mkCRD "widgets" NamespaceScoped [v1; v4] ["v1"].

(** The catalog of [fake] with an upgrade graph: the successors of version
    2 of [widgets] are the later versions. *)
Definition successorCatalog : resolution.Catalog := {|
  resolution.Bundle := CatalogBundle;
  resolution.Constraints := nat;
  resolution.SemVer := nat;
  resolution.SemVer_String := fun _ => "2.0.0";
  resolution.NewConstraint := fun range =>
    if String.eqb range ">=2" then inl 2 else inr (New "improper constraint");
  resolution.NewVersion := fun _ => inl 2;
  resolution.Sprintf := fun format _ => format;
  resolution.IsDeprecated := cb_Deprecated;
  resolution.WithPackageName := fun name b => String.eqb (cb_Package b) name;
  resolution.InChannel := fun name b => String.eqb (cb_Channel b) name;
  resolution.InMastermindsSemverRange := fun least b =>
    Nat.leb least (cb_Version b);
  resolution.SuccessorsPredicate := fun _ installed =>
    if String.eqb (resolution.meta_Name installed) "widgets.v2"
    then inl (fun b => Nat.ltb 2 (cb_Version b))
    else inl (fun _ => true);
  resolution.ByVersion := fun b1 b2 => Nat.ltb (cb_Version b2) (cb_Version b1)
|}.

(** A resolver over a cluster that has version 2 of [widgets] installed. *)
Definition successorResolver : @resolution.Resolver successorCatalog :=
  @resolution.mkResolver successorCatalog
    (fun _ => inl [widgets1; gadgets1; widgets2; widgets3])
    (fun _ => inl (Some (resolution.mkBundleMetadata "widgets.v2" "2.0.0")))
    [fun _ => None].

(** The content manager's side: a scheme is the list of the kinds it
    knows, a cache is named after its configuration, a context after the
    cache it runs, and the controller refuses to watch [Secret]. *)
#[export] Instance contentRuntime : contentmanager.Runtime := {|
  contentmanager.Config := string;
  contentmanager.Cache := string;
  contentmanager.Context := string;
  contentmanager.CancelFunc := string;
  contentmanager.Scheme := list schema.GroupVersionKind;
  contentmanager.RESTMapper := unit;
  contentmanager.Object := schema.GroupVersionKind;
  contentmanager.Selector := list (string * string);
  contentmanager.GroupVersionKind := fun obj => obj;
  contentmanager.GroupVersionKind_String := schema.Kind;
  contentmanager.NewScheme := [];
  contentmanager.AddToScheme := fun scheme =>
    inl (schema.mkGVK "olm.operatorframework.io" "v1alpha1" "ClusterExtension"
           :: scheme);
  contentmanager.Recognizes := fun scheme gvk =>
    existsb (schema.eqb gvk) scheme;
  contentmanager.AddKnownTypeWithName := fun scheme gvk _ => gvk :: scheme;
  contentmanager.AddToGroupVersion := fun scheme gv =>
    schema.mkGVK (contentmanager.gv_Group gv) (contentmanager.gv_Version gv)
                 "WatchEvent" :: scheme;
  contentmanager.AsSelector := fun set => set;
  contentmanager.cache_New := fun cfg _ _ =>
    if String.eqb cfg "" then inr (New "must specify Config")
    else inl (cfg ++ "-cache")%string;
  contentmanager.WithCancel := fun ctx =>
    ((ctx ++ "-child")%string, (ctx ++ "-cancel")%string)
|}.

Definition deployment : schema.GroupVersionKind :=
  schema.mkGVK "apps" "v1" "Deployment".

Definition secret : schema.GroupVersionKind :=
  schema.mkGVK "" "v1" "Secret".

Definition kindless : schema.GroupVersionKind :=
  schema.mkGVK "" "v1" "".

(** The scheme built for one [Deployment]. *)
Definition deploymentScheme : list schema.GroupVersionKind :=
  [ schema.mkGVK "apps" "v1" "WatchEvent";
    schema.mkGVK "apps" "v1" "DeploymentList";
    deployment;
    schema.mkGVK "olm.operatorframework.io" "v1alpha1" "ClusterExtension" ].

(** The scheme built for a [Deployment] and a [Secret]. *)
Definition bothScheme : list schema.GroupVersionKind :=
  [ schema.mkGVK "" "v1" "WatchEvent";
    schema.mkGVK "" "v1" "SecretList";
    secret ] ++ deploymentScheme.

Definition contentController : contentmanager.Controller :=
  contentmanager.mkController
    (fun src =>
       if String.eqb (schema.Kind (contentmanager.kind_Object src)) "Secret"
       then Some (New "forbidden")
       else None).

Definition contentExtension : contentmanager.ClusterExtension :=
  contentmanager.mkClusterExtension "demo".

Definition contentInstance : contentmanager.instance :=
  contentmanager.New (fun ce _ => inl (contentmanager.Name ce)) "base" tt.

(** The labels Helm keeps on a release: those of the install of [bundle]
    for the release [demo], none otherwise. *)
Definition releaseLabels (rel : release.Release) : list (string * string) :=
  if String.eqb (release.Name rel) "demo"
  then applier.install_Labels
         (applier.installOptions
            (applier.installLabelsFor bundle "2.0.0")
            (applier.postrendererFor plainExtension bundle "2.0.0"))
  else [].

(** The action client of [helmClient] as the getter of the installed bundle
    sees it: [Get] answers the current release and no error. *)
Definition installedClient : resolution.ActionInterface :=
  resolution.mkActionInterface (fun _ => (Some currentRelease, None)).

Definition installedGetter : resolution.DefaultInstalledBundleGetter :=
  resolution.mkDefaultInstalledBundleGetter (fun _ => inl installedClient).

End fake_more.

(* ================================================================== *)
(** * Properties *)
(* ================================================================== *)

(** ** Errors and statements *)

Module errors_facts.

Import errors.

Lemma Join_nil_iff (errs : list error) : Join errs = None <-> errs = [].
Proof. destruct errs; simpl; split; congruence. Qed.

Lemma Join_In (e : error) (errs : list error) :
  In e errs -> Join errs = Some (joinError errs).
Proof. destruct errs; simpl; [tauto | reflexivity]. Qed.

Lemma Join_Some (errs : list error) (e : error) :
  Join errs = Some e -> e = joinError errs /\ errs <> [].
Proof. destruct errs; simpl; [discriminate | intros [= <-]; split; congruence]. Qed.

Lemma NoDup_map_injective {A B} (f : A -> B) (l : list A) (x y : A) :
  NoDup (map f l) -> In x l -> In y l -> f x = f y -> x = y.
Proof.
  induction l as [|z rest IH]; simpl; [intros _ [] |].
  intros Hnodup Hx Hy Heq. inversion Hnodup as [|? ? Hz Hrest]; subst.
  destruct Hx as [->|Hx]; destruct Hy as [->|Hy].
  - reflexivity.
  - exfalso. apply Hz. rewrite Heq. now apply in_map.
  - exfalso. apply Hz. rewrite <- Heq. now apply in_map.
  - now apply IH.
Qed.

Lemma NoDup_fst_unique {A B} (l : list (A * B)) (k : A) (v v' : B) :
  NoDup (map fst l) -> In (k, v) l -> In (k, v') l -> v = v'.
Proof.
  intros Hnodup Hv Hv'.
  pose proof (NoDup_map_injective fst l (k, v) (k, v') Hnodup Hv Hv' eq_refl)
    as Heq.
  now injection Heq.
Qed.

Lemma flat_map_all_nil {A B} (f : A -> list B) (l : list A) :
  (forall x, In x l -> f x = []) -> flat_map f l = [].
Proof.
  induction l as [|x rest IH]; intro Hall; simpl.
  - reflexivity.
  - rewrite (Hall x) by now left. apply IH. intros y Hy. apply Hall. now right.
Qed.

End errors_facts.

Module stmt_facts.

Import stmt.

Section Facts.
Variable Ev : Type.

Local Abbreviation Store := (Store Ev).
Local Abbreviation M := (M Ev).

Lemma extend_empty_r (s : Store) : extend s empty = s.
Proof. destruct s; unfold extend; simpl; now rewrite !app_nil_r. Qed.

Lemma extend_empty_l (s : Store) : extend empty s = s.
Proof. now destruct s. Qed.

Lemma extend_assoc (a b c : Store) :
  extend (extend a b) c = extend a (extend b c).
Proof. unfold extend; simpl; now rewrite !app_assoc. Qed.

Lemma appendOnly_ret {A} (a : A) : appendOnly (ret a : M A).
Proof. intro s; unfold ret; simpl; now rewrite extend_empty_r. Qed.

Lemma appendOnly_appendErr (e : errors.error) :
  appendOnly (appendErr e : M unit).
Proof. intro s; unfold appendErr, extend; simpl; now rewrite app_nil_r. Qed.

Lemma appendOnly_call (ev : Ev) : appendOnly (call ev).
Proof. intro s; unfold call, extend; simpl; now rewrite app_nil_r. Qed.

Lemma bind_run {A B} (m : M A) (k : A -> M B) (s : Store) :
  appendOnly m -> (forall a, appendOnly (k a)) ->
  bind m k s =
    (fst (k (fst (m empty)) empty),
     extend s (extend (snd (m empty)) (snd (k (fst (m empty)) empty)))).
Proof.
  intros Hm Hk. unfold bind. rewrite (Hm s). rewrite (Hk _ (extend s _)).
  now rewrite extend_assoc.
Qed.

Lemma appendOnly_bind {A B} (m : M A) (k : A -> M B) :
  appendOnly m -> (forall a, appendOnly (k a)) -> appendOnly (bind m k).
Proof.
  intros Hm Hk s. rewrite (bind_run m k s Hm Hk), (bind_run m k empty Hm Hk).
  simpl. now rewrite extend_empty_l.
Qed.

Lemma appendOnly_forRange {A} (xs : list A) (body : A -> M unit) :
  (forall x, appendOnly (body x)) -> appendOnly (forRange xs body).
Proof.
  intro Hb. induction xs as [|x rest IH]; simpl.
  - apply appendOnly_ret.
  - apply appendOnly_bind; auto.
Qed.

Lemma appendOnly_forRangeReturn {A R} (xs : list A)
      (body : A -> M (option R)) :
  (forall x, appendOnly (body x)) -> appendOnly (forRangeReturn xs body).
Proof.
  intro Hb. induction xs as [|x rest IH]; simpl.
  - apply appendOnly_ret.
  - apply appendOnly_bind; auto.
    intros [v|]; [apply appendOnly_ret | exact IH].
Qed.

(** What a loop leaves in the store, starting from the empty one. *)
Lemma forRange_cons {A} (x : A) (rest : list A) (body : A -> M unit) :
  (forall y, appendOnly (body y)) ->
  snd (forRange (x :: rest) body empty) =
    extend (snd (body x empty)) (snd (forRange rest body empty)).
Proof.
  intro Hb. simpl.
  rewrite (bind_run (body x) (fun _ => forRange rest body) empty (Hb x)
             (fun _ => appendOnly_forRange rest body Hb)).
  simpl. now rewrite extend_empty_l.
Qed.

Lemma forRange_errs {A} (xs : list A) (body : A -> M unit) :
  (forall y, appendOnly (body y)) ->
  errs (snd (forRange xs body empty)) =
    flat_map (fun x => errs (snd (body x empty))) xs.
Proof.
  intro Hb. induction xs as [|x rest IH].
  - reflexivity.
  - rewrite forRange_cons by exact Hb. simpl. now rewrite IH.
Qed.

Lemma forRange_calls {A} (xs : list A) (body : A -> M unit) :
  (forall y, appendOnly (body y)) ->
  calls (snd (forRange xs body empty)) =
    flat_map (fun x => calls (snd (body x empty))) xs.
Proof.
  intro Hb. induction xs as [|x rest IH].
  - reflexivity.
  - rewrite forRange_cons by exact Hb. simpl. now rewrite IH.
Qed.

(** A loop with [return]: either some element returns and the ones before
    it do not, or none does. *)
Lemma forRangeReturn_cons_None {A R} (x : A) (rest : list A)
      (body : A -> M (option R)) :
  (forall y, appendOnly (body y)) ->
  fst (body x empty) = None ->
  forRangeReturn (x :: rest) body empty =
    (fst (forRangeReturn rest body empty),
     extend (snd (body x empty)) (snd (forRangeReturn rest body empty))).
Proof.
  intros Hb Hx. simpl. unfold bind.
  rewrite (Hb x empty), Hx, extend_empty_l.
  now rewrite (appendOnly_forRangeReturn rest body Hb (snd (body x empty))).
Qed.

Lemma forRangeReturn_cons_Some {A R} (x : A) (rest : list A)
      (body : A -> M (option R)) (r : R) :
  fst (body x empty) = Some r ->
  forRangeReturn (x :: rest) body empty = (Some r, snd (body x empty)).
Proof.
  intro Hx. simpl. unfold bind.
  destruct (body x empty) as [v s]; simpl in *; subst; reflexivity.
Qed.

End Facts.

Arguments appendOnly_ret {Ev A} a.
Arguments appendOnly_appendErr {Ev} e.
Arguments appendOnly_call {Ev} ev.
Arguments appendOnly_bind {Ev A B} m k.
Arguments appendOnly_forRange {Ev A} xs body.
Arguments appendOnly_forRangeReturn {Ev A R} xs body.
Arguments bind_run {Ev A B} m k s.
Arguments forRange_cons {Ev A} x rest body.
Arguments forRange_errs {Ev A} xs body.
Arguments forRange_calls {Ev A} xs body.
Arguments forRangeReturn_cons_None {Ev A R} x rest body.
Arguments forRangeReturn_cons_Some {Ev A R} x rest body r.
Arguments extend_empty_l {Ev} s.
Arguments extend_empty_r {Ev} s.
Arguments extend_assoc {Ev} a b c.

Create HintDb stmt.

#[export] Hint Resolve appendOnly_ret appendOnly_appendErr appendOnly_call
  appendOnly_bind appendOnly_forRange appendOnly_forRangeReturn : stmt.

End stmt_facts.

(** ** The cross-version validator *)

Module crdupgradesafety_facts.

Import errors stmt kappcus crdupgradesafety errors_facts stmt_facts.

Section Facts.
Context `{Library} `{!Runtime}.

Local Abbreviation Store := (Store Event).

Lemma appendOnly_tryValidations validations :
  forall index versionA versionB field diff,
    appendOnly (tryValidations validations index versionA versionB field diff).
Proof.
  induction validations as [|validation rest IH]; intros; simpl.
  - apply appendOnly_ret.
  - apply appendOnly_bind; [apply appendOnly_call | intros _].
    destruct (validation diff) as [ok err].
    apply appendOnly_bind.
    + destruct err; auto with stmt.
    + intros _. destruct ok; [apply appendOnly_ret | apply IH].
Qed.

Lemma appendOnly_validateField cvv versionA versionB entry :
  appendOnly (validateField cvv versionA versionB entry).
Proof.
  destruct entry as [field diff]. unfold validateField.
  apply appendOnly_bind; [apply appendOnly_tryValidations |].
  intros [|]; simpl; auto with stmt.
Qed.

Lemma appendOnly_validatePair cvv versionA versionB :
  appendOnly (validatePair cvv versionA versionB).
Proof.
  unfold validatePair.
  destruct (String.eqb _ _); [apply appendOnly_ret |].
  repeat (apply appendOnly_bind; [apply appendOnly_call | intros _]).
  destruct (CalculateFlatSchemaDiff _ _).
  - apply appendOnly_forRange. intro. apply appendOnly_validateField.
  - apply appendOnly_appendErr.
Qed.

(** One turn of the loop over the rules. *)
Lemma tryValidations_cons validation rest index versionA versionB field diff :
  tryValidations (validation :: rest) index versionA versionB field diff empty =
    let here :=
      mkStore (ruleErrs versionA versionB field diff validation)
              [ChangeValidationCall index versionA versionB field] in
    if fst (validation diff) then (true, here)
    else
      let next :=
        tryValidations rest (S index) versionA versionB field diff empty in
      (fst next, extend here (snd next)).
Proof.
  simpl. unfold bind, call, ruleErrs. simpl.
  destruct (validation diff) as [ok err]. simpl.
  destruct err as [e|]; destruct ok; simpl; try reflexivity;
    rewrite (appendOnly_tryValidations rest (S index) versionA versionB field diff
               (mkStore _ _));
    reflexivity.
Qed.

(** No rule handles the field: every rule is tried, in order. *)
Lemma tryValidations_unhandled (validations : list ChangeValidation) :
  forall index versionA versionB field diff,
    Forall (fun validation => fst (validation diff) = false) validations ->
    tryValidations validations index versionA versionB field diff empty =
      (false,
       mkStore (flat_map (ruleErrs versionA versionB field diff) validations)
               (ruleCalls index (List.length validations) versionA versionB field)).
Proof.
  induction validations as [|validation rest IH]; intros index a b field diff Hall.
  - reflexivity.
  - inversion Hall as [|? ? Hv Hrest]; subst.
    rewrite tryValidations_cons. cbv zeta. rewrite Hv.
    rewrite (IH (S index) a b field diff Hrest). reflexivity.
Qed.

(** The rules before the first one that handles the field are tried in
    order, then that one, and no other. *)
Lemma tryValidations_handled (before : list ChangeValidation) :
  forall (validation : ChangeValidation) (after : list ChangeValidation)
         index versionA versionB field diff,
    Forall (fun v => fst (v diff) = false) before ->
    fst (validation diff) = true ->
    tryValidations (before ++ validation :: after) index
                   versionA versionB field diff empty =
      (true,
       mkStore (flat_map (ruleErrs versionA versionB field diff)
                         (before ++ [validation]))
               (ruleCalls index (S (List.length before)) versionA versionB field)).
Proof.
  induction before as [|v rest IH];
    intros validation after index a b field diff Hall Hok.
  - simpl app. rewrite tryValidations_cons. cbv zeta. rewrite Hok.
    simpl. now rewrite app_nil_r.
  - inversion Hall as [|? ? Hv Hrest]; subst.
    change ((v :: rest) ++ validation :: after)
      with (v :: (rest ++ validation :: after)).
    rewrite tryValidations_cons. cbv zeta. rewrite Hv.
    rewrite (IH validation after (S index) a b field diff Hrest Hok).
    reflexivity.
Qed.

Lemma validatePair_same cvv versionA versionB :
  String.eqb (ver_Name versionA) (ver_Name versionB) = true ->
  snd (validatePair cvv versionA versionB empty) = empty.
Proof. intro E. unfold validatePair. now rewrite E. Qed.

Lemma validatePair_distinct cvv versionA versionB :
  String.eqb (ver_Name versionA) (ver_Name versionB) = false ->
  snd (validatePair cvv versionA versionB empty) =
    extend
      (mkStore []
         [ FlattenSchemaCall versionA; FlattenSchemaCall versionB;
           CalculateFlatSchemaDiffCall versionA versionB ])
      match CalculateFlatSchemaDiff (FlattenSchema (ver_Schema versionA))
                                    (FlattenSchema (ver_Schema versionB)) with
      | inr _ =>
          mkStore [diffFailed (ver_Name versionA) (ver_Name versionB)] []
      | inl diffs =>
          snd (forRange diffs
                 (validateField cvv (ver_Name versionA) (ver_Name versionB))
                 empty)
      end.
Proof.
  intro E. unfold validatePair. rewrite E. unfold bind, call. simpl.
  destruct (CalculateFlatSchemaDiff _ _) as [diffs|e].
  - rewrite (appendOnly_forRange diffs _
               (appendOnly_validateField cvv _ _) (mkStore _ _)).
    reflexivity.
  - reflexivity.
Qed.

Lemma validateBody_errs cvv crd :
  errs (snd (validateBody cvv crd empty)) =
    flat_map (fun versionA =>
      flat_map (fun versionB =>
        errs (snd (validatePair cvv versionA versionB empty)))
        (crd_Versions crd))
      (crd_Versions crd).
Proof.
  unfold validateBody. rewrite forRange_errs.
  - apply flat_map_ext. intro versionA. apply forRange_errs.
    intro. apply appendOnly_validatePair.
  - intro. apply appendOnly_forRange. intro. apply appendOnly_validatePair.
Qed.

Lemma validateBody_calls cvv crd :
  calls (snd (validateBody cvv crd empty)) =
    flat_map (fun versionA =>
      flat_map (fun versionB =>
        calls (snd (validatePair cvv versionA versionB empty)))
        (crd_Versions crd))
      (crd_Versions crd).
Proof.
  unfold validateBody. rewrite forRange_calls.
  - apply flat_map_ext. intro versionA. apply forRange_calls.
    intro. apply appendOnly_validatePair.
  - intro. apply appendOnly_forRange. intro. apply appendOnly_validatePair.
Qed.

Lemma In_validatePair_errs cvv crd versionA versionB e :
  In versionA (crd_Versions crd) -> In versionB (crd_Versions crd) ->
  In e (errs (snd (validatePair cvv versionA versionB empty))) ->
  In e (errs (snd (validateBody cvv crd empty))).
Proof.
  intros HA HB He. rewrite validateBody_errs.
  apply in_flat_map. exists versionA. split; [exact HA |].
  apply in_flat_map. exists versionB. split; assumption.
Qed.

Lemma In_validatePair_calls cvv crd versionA versionB ev :
  In versionA (crd_Versions crd) -> In versionB (crd_Versions crd) ->
  In ev (calls (snd (validatePair cvv versionA versionB empty))) ->
  In ev (calls (snd (validateBody cvv crd empty))).
Proof.
  intros HA HB He. rewrite validateBody_calls.
  apply in_flat_map. exists versionA. split; [exact HA |].
  apply in_flat_map. exists versionB. split; assumption.
Qed.

Lemma validateBody_calls_inv cvv crd ev :
  In ev (calls (snd (validateBody cvv crd empty))) ->
  exists versionA versionB,
    In versionA (crd_Versions crd) /\ In versionB (crd_Versions crd) /\
    In ev (calls (snd (validatePair cvv versionA versionB empty))).
Proof.
  rewrite validateBody_calls. intro Hin.
  apply in_flat_map in Hin. destruct Hin as [versionA [HA Hin]].
  apply in_flat_map in Hin. destruct Hin as [versionB [HB Hin]].
  exists versionA, versionB. auto.
Qed.

(** The calls made for one field are calls to the rules, for that field. *)
Lemma tryValidations_calls_shape validations :
  forall index versionA versionB field diff ev,
    In ev (calls (snd (tryValidations validations index
                         versionA versionB field diff empty))) ->
    exists i, ev = ChangeValidationCall i versionA versionB field.
Proof.
  induction validations as [|validation rest IH];
    intros index a b field diff ev Hin.
  - destruct Hin.
  - rewrite tryValidations_cons in Hin. cbv zeta in Hin.
    destruct (fst (validation diff)); simpl in Hin.
    + destruct Hin as [<-|[]]. eauto.
    + destruct Hin as [<-|Hin]; [eauto | eapply IH; exact Hin].
Qed.

Lemma validateField_calls_shape cvv versionA versionB entry ev :
  In ev (calls (snd (validateField cvv versionA versionB entry empty))) ->
  exists i, ev = ChangeValidationCall i versionA versionB (fst entry).
Proof.
  destruct entry as [field diff]. unfold validateField, bind. simpl.
  destruct (tryValidations _ _ _ _ _ _ empty) as [handled s] eqn:E.
  intro Hin.
  assert (Hs : In ev (calls s)).
  { destruct handled; simpl in Hin; exact Hin. }
  apply (tryValidations_calls_shape (changeValidations cvv) 0
           versionA versionB field diff).
  now rewrite E.
Qed.

(** The first rule is called for every field of a computed diff. *)
Lemma validateField_first_call cvv versionA versionB field diff :
  changeValidations cvv <> [] ->
  In (ChangeValidationCall 0 versionA versionB field)
     (calls (snd (validateField cvv versionA versionB (field, diff) empty))).
Proof.
  intro Hne. unfold validateField, bind.
  destruct (changeValidations cvv) as [|validation rest]; [congruence |].
  rewrite tryValidations_cons. cbv zeta.
  destruct (fst (validation diff)); simpl.
  - now left.
  - destruct (tryValidations rest 1 versionA versionB field diff empty)
      as [handled s].
    destruct handled; simpl; now left.
Qed.

Lemma validatePair_calls_inv cvv versionA versionB ev :
  In ev (calls (snd (validatePair cvv versionA versionB empty))) ->
  ver_Name versionA <> ver_Name versionB /\
  (ev = FlattenSchemaCall versionA \/ ev = FlattenSchemaCall versionB \/
   ev = CalculateFlatSchemaDiffCall versionA versionB \/
   exists i field,
     ev = ChangeValidationCall i (ver_Name versionA) (ver_Name versionB) field).
Proof.
  destruct (String.eqb (ver_Name versionA) (ver_Name versionB)) eqn:E.
  - rewrite validatePair_same by exact E. intros [].
  - rewrite validatePair_distinct by exact E.
    apply String.eqb_neq in E. intro Hin. split; [exact E |].
    simpl in Hin.
    destruct Hin as [<-|[<-|[<-|Hin]]]; auto.
    destruct (CalculateFlatSchemaDiff _ _) as [diffs|e]; [| destruct Hin].
    rewrite forRange_calls in Hin
      by (intro; apply appendOnly_validateField).
    apply in_flat_map in Hin. destruct Hin as [entry [_ Hin]].
    apply validateField_calls_shape in Hin. destruct Hin as [i ->].
    right. right. right. eauto.
Qed.

Lemma WithValidator_options_keep_rules opts :
  Forall (fun o => exists v, o = WithValidator v) opts ->
  forall p,
    crossVersionValidatorOf (fold_left (fun p o => o p) opts p) =
      crossVersionValidatorOf p.
Proof.
  induction 1 as [|o rest [v ->] _ IH]; intro p; simpl.
  - reflexivity.
  - now rewrite IH.
Qed.

(** *** The validator as a function of the ordered pairs *)

Lemma tryValidations_run (validations : list ChangeValidation) :
  forall index versionA versionB field diff,
    tryValidations validations index versionA versionB field diff empty =
      (handledBy validations diff,
       mkStore (flat_map (ruleErrs versionA versionB field diff)
                         (triedRules validations diff))
               (ruleCalls index (List.length (triedRules validations diff))
                          versionA versionB field)).
Proof.
  induction validations as [|validation rest IH]; intros; [reflexivity |].
  rewrite tryValidations_cons. cbv zeta. unfold handledBy. simpl.
  destruct (fst (validation diff)) eqn:E; simpl.
  - now rewrite app_nil_r.
  - rewrite IH. reflexivity.
Qed.

Lemma validateField_run cvv versionA versionB entry :
  snd (validateField cvv versionA versionB entry empty) =
    mkStore (fieldFailures cvv versionA versionB entry)
            (fieldCalls cvv versionA versionB entry).
Proof.
  destruct entry as [field diff].
  unfold validateField, bind, fieldFailures, fieldCalls.
  rewrite tryValidations_run. simpl.
  destruct (handledBy (changeValidations cvv) diff); simpl.
  - now rewrite app_nil_r.
  - reflexivity.
Qed.

Lemma validatePair_run cvv versionA versionB :
  snd (validatePair cvv versionA versionB empty) =
    mkStore (pairFailures cvv versionA versionB)
            (pairCalls cvv versionA versionB).
Proof.
  unfold pairFailures, pairCalls.
  destruct (String.eqb (ver_Name versionA) (ver_Name versionB)) eqn:E.
  - now rewrite validatePair_same.
  - rewrite validatePair_distinct by exact E.
    destruct (CalculateFlatSchemaDiff _ _) as [diffs|e]; [| reflexivity].
    pose proof (forRange_errs diffs
                  (validateField cvv (ver_Name versionA) (ver_Name versionB))
                  (fun entry => appendOnly_validateField cvv _ _ entry))
      as Herrs.
    pose proof (forRange_calls diffs
                  (validateField cvv (ver_Name versionA) (ver_Name versionB))
                  (fun entry => appendOnly_validateField cvv _ _ entry))
      as Hcalls.
    destruct (snd (forRange diffs _ empty)) as [es cs]. simpl in Herrs, Hcalls.
    subst es cs. unfold extend. simpl. f_equal.
    + apply flat_map_ext. intro entry. now rewrite validateField_run.
    + do 3 f_equal. apply flat_map_ext. intro entry.
      now rewrite validateField_run.
Qed.

Lemma flat_map_list_prod {A B C} (f : A -> B -> list C)
      (l : list A) (l' : list B) :
  flat_map (fun pair => f (fst pair) (snd pair)) (list_prod l l') =
    flat_map (fun a => flat_map (fun b => f a b) l') l.
Proof.
  induction l as [|a rest IH]; simpl; [reflexivity |].
  rewrite flat_map_app, IH. f_equal.
  clear IH. induction l' as [|b rest' IH']; simpl; [reflexivity |].
  now rewrite IH'.
Qed.

(** The validator returns the failures of the ordered pairs, joined, and
    makes the calls of the ordered pairs. *)
Lemma cvvValidate_run cvv crd :
  cvvValidate cvv crd =
    (Join (flat_map (fun pair => pairFailures cvv (fst pair) (snd pair))
                    (orderedPairs crd)),
     flat_map (fun pair => pairCalls cvv (fst pair) (snd pair))
              (orderedPairs crd)).
Proof.
  unfold cvvValidate, orderedPairs. cbv zeta.
  rewrite validateBody_errs, validateBody_calls, !flat_map_list_prod.
  f_equal; [f_equal |];
    apply flat_map_ext; intro a; apply flat_map_ext; intro b;
    now rewrite validatePair_run.
Qed.

Lemma In_orderedPairs crd versionA versionB :
  In (versionA, versionB) (orderedPairs crd) <->
  In versionA (crd_Versions crd) /\ In versionB (crd_Versions crd).
Proof. unfold orderedPairs. apply in_prod_iff. Qed.

Lemma In_pairFailures cvv versionA versionB diffs entry e :
  ver_Name versionA <> ver_Name versionB ->
  CalculateFlatSchemaDiff (FlattenSchema (ver_Schema versionA))
                          (FlattenSchema (ver_Schema versionB)) = inl diffs ->
  In entry diffs ->
  In e (fieldFailures cvv (ver_Name versionA) (ver_Name versionB) entry) ->
  In e (pairFailures cvv versionA versionB).
Proof.
  intros Hneq Hdiff Hentry He. unfold pairFailures.
  apply String.eqb_neq in Hneq. rewrite Hneq, Hdiff.
  apply in_flat_map. now exists entry.
Qed.

Lemma In_pairCalls cvv versionA versionB diffs entry ev :
  ver_Name versionA <> ver_Name versionB ->
  CalculateFlatSchemaDiff (FlattenSchema (ver_Schema versionA))
                          (FlattenSchema (ver_Schema versionB)) = inl diffs ->
  In entry diffs ->
  In ev (fieldCalls cvv (ver_Name versionA) (ver_Name versionB) entry) ->
  In ev (pairCalls cvv versionA versionB).
Proof.
  intros Hneq Hdiff Hentry Hev. unfold pairCalls.
  apply String.eqb_neq in Hneq. rewrite Hneq, Hdiff.
  apply in_or_app. right. apply in_flat_map. now exists entry.
Qed.

Lemma In_failures_of_pairs cvv crd versionA versionB e :
  In versionA (crd_Versions crd) -> In versionB (crd_Versions crd) ->
  In e (pairFailures cvv versionA versionB) ->
  In e (flat_map (fun pair => pairFailures cvv (fst pair) (snd pair))
                 (orderedPairs crd)).
Proof.
  intros HA HB He. apply in_flat_map. exists (versionA, versionB).
  split; [now apply In_orderedPairs | exact He].
Qed.

Lemma In_calls_of_pairs cvv crd versionA versionB ev :
  In versionA (crd_Versions crd) -> In versionB (crd_Versions crd) ->
  In ev (pairCalls cvv versionA versionB) ->
  In ev (flat_map (fun pair => pairCalls cvv (fst pair) (snd pair))
                  (orderedPairs crd)).
Proof.
  intros HA HB Hev. apply in_flat_map. exists (versionA, versionB).
  split; [now apply In_orderedPairs | exact Hev].
Qed.

(** Where a failure about a field comes from. *)
Lemma fieldFailures_inv cvv versionA versionB entry e :
  In e (fieldFailures cvv versionA versionB entry) ->
  (e = unknownChange versionA versionB (fst entry) /\
   handledBy (changeValidations cvv) (snd entry) = false) \/
  exists validation w,
    In validation (triedRules (changeValidations cvv) (snd entry)) /\
    snd (validation (snd entry)) = Some w /\
    e = ruleFailed versionA versionB (fst entry) w.
Proof.
  unfold fieldFailures. intro Hin. apply in_app_or in Hin.
  destruct Hin as [Hin|Hin].
  - right. apply in_flat_map in Hin. destruct Hin as [validation [Hv Hin]].
    unfold ruleErrs in Hin.
    destruct (snd (validation (snd entry))) as [w|] eqn:E; [| destruct Hin].
    destruct Hin as [<-|[]]. now exists validation, w.
  - left. destruct (handledBy _ _); [destruct Hin |].
    now destruct Hin as [<-|[]].
Qed.

(** With distinct version names and distinct fields, the names in a call or
    a failure tell the pair and the field entry. *)
Lemma entry_located crd versionA versionB a b diffs diffs' field diff entry :
  NoDup (map ver_Name (crd_Versions crd)) ->
  NoDup (map fst diffs) ->
  In versionA (crd_Versions crd) -> In versionB (crd_Versions crd) ->
  In a (crd_Versions crd) -> In b (crd_Versions crd) ->
  ver_Name a = ver_Name versionA -> ver_Name b = ver_Name versionB ->
  CalculateFlatSchemaDiff (FlattenSchema (ver_Schema versionA))
                          (FlattenSchema (ver_Schema versionB)) = inl diffs ->
  CalculateFlatSchemaDiff (FlattenSchema (ver_Schema a))
                          (FlattenSchema (ver_Schema b)) = inl diffs' ->
  In (field, diff) diffs ->
  In entry diffs' ->
  fst entry = field ->
  entry = (field, diff).
Proof.
  intros Hnames Hfields HA HB Ha Hb HaA HbB Hdiff Hdiff' Hfield Hentry Hfst.
  assert (a = versionA)
    by exact (NoDup_map_injective ver_Name _ a versionA Hnames Ha HA HaA).
  assert (b = versionB)
    by exact (NoDup_map_injective ver_Name _ b versionB Hnames Hb HB HbB).
  subst a b. rewrite Hdiff in Hdiff'. injection Hdiff' as <-.
  destruct entry as [f d]. simpl in Hfst. subst f.
  now rewrite (NoDup_fst_unique diffs field d diff Hfields Hentry Hfield).
Qed.

Lemma failures_of_pairs_inv cvv crd e :
  In e (flat_map (fun pair => pairFailures cvv (fst pair) (snd pair))
                 (orderedPairs crd)) ->
  exists versionA versionB,
    In versionA (crd_Versions crd) /\ In versionB (crd_Versions crd) /\
    ver_Name versionA <> ver_Name versionB /\
    (e = diffFailed (ver_Name versionA) (ver_Name versionB) \/
     exists diffs entry,
       CalculateFlatSchemaDiff (FlattenSchema (ver_Schema versionA))
                               (FlattenSchema (ver_Schema versionB))
         = inl diffs /\
       In entry diffs /\
       In e (fieldFailures cvv (ver_Name versionA) (ver_Name versionB)
                           entry)).
Proof.
  intro Hin. apply in_flat_map in Hin.
  destruct Hin as [[versionA versionB] [Hpair Hin]].
  apply In_orderedPairs in Hpair. destruct Hpair as [HA HB].
  exists versionA, versionB. simpl in Hin. unfold pairFailures in Hin.
  destruct (String.eqb (ver_Name versionA) (ver_Name versionB)) eqn:E;
    [destruct Hin |].
  apply String.eqb_neq in E. repeat split; try assumption.
  destruct (CalculateFlatSchemaDiff _ _) as [diffs|err].
  - right. apply in_flat_map in Hin. destruct Hin as [entry [Hentry Hin]].
    now exists diffs, entry.
  - left. now destruct Hin as [<-|[]].
Qed.

Lemma rule_calls_of_pairs_inv cvv crd i nameA nameB field :
  In (ChangeValidationCall i nameA nameB field)
     (flat_map (fun pair => pairCalls cvv (fst pair) (snd pair))
               (orderedPairs crd)) ->
  exists versionA versionB diffs diff,
    In versionA (crd_Versions crd) /\ In versionB (crd_Versions crd) /\
    ver_Name versionA = nameA /\ ver_Name versionB = nameB /\
    CalculateFlatSchemaDiff (FlattenSchema (ver_Schema versionA))
                            (FlattenSchema (ver_Schema versionB))
      = inl diffs /\
    In (field, diff) diffs /\
    i < List.length (triedRules (changeValidations cvv) diff).
Proof.
  intro Hin. apply in_flat_map in Hin.
  destruct Hin as [[versionA versionB] [Hpair Hin]].
  apply In_orderedPairs in Hpair. destruct Hpair as [HA HB].
  simpl in Hin. unfold pairCalls in Hin.
  destruct (String.eqb (ver_Name versionA) (ver_Name versionB));
    [destruct Hin |].
  destruct Hin as [Hin|[Hin|[Hin|Hin]]]; try discriminate.
  destruct (CalculateFlatSchemaDiff _ _) as [diffs|err] eqn:Ediff;
    [| destruct Hin].
  apply in_flat_map in Hin. destruct Hin as [[f diff] [Hentry Hin]].
  unfold fieldCalls, ruleCalls in Hin. simpl in Hin.
  apply in_map_iff in Hin. destruct Hin as [j [Hj Hseq]].
  injection Hj as -> <- <- <-. apply in_seq in Hseq.
  exists versionA, versionB, diffs, diff. repeat split; auto. lia.
Qed.

Lemma triedRules_split (before : list ChangeValidation)
      (validation : ChangeValidation) (after : list ChangeValidation) diff :
  Forall (fun v : ChangeValidation => fst (v diff) = false) before ->
  fst (validation diff) = true ->
  triedRules (before ++ validation :: after) diff = before ++ [validation] /\
  handledBy (before ++ validation :: after) diff = true.
Proof.
  intros Hbefore Hok. unfold handledBy.
  induction Hbefore as [|v rest Hv _ [IHtried IHhandled]]; simpl.
  - now rewrite Hok.
  - rewrite Hv. simpl. now rewrite IHtried, IHhandled.
Qed.

(** C1: a field diff for which no change rule returns handled makes the
    cross-version validator record the error "has unknown change, refusing to
    determine that change is safe", naming the two compared versions and the
    field path; the validator then returns a non-nil joined error, so the
    change is never accepted in silence. *)
Theorem C1_unknown_change_is_recorded
        cvv crd versionA versionB diffs field diff :
  In versionA (crd_Versions crd) ->
  In versionB (crd_Versions crd) ->
  ver_Name versionA <> ver_Name versionB ->
  CalculateFlatSchemaDiff (FlattenSchema (ver_Schema versionA))
                          (FlattenSchema (ver_Schema versionB)) = inl diffs ->
  In (field, diff) diffs ->
  Forall (fun validation : ChangeValidation => fst (validation diff) = false)
         (changeValidations cvv) ->
  exists errs,
    fst (cvvValidate cvv crd) = Some (joinError errs) /\
    In (Errorf
          "version %q compared to version %q, field %q has unknown change, refusing to determine that change is safe"
          [ver_Name versionA; ver_Name versionB; field] None)
       errs.
Proof.
  intros HA HB Hneq Hdiff Hfield Hnone.
  set (e := Errorf _ _ None).
  assert (Hin : In e (errs (snd (validateBody cvv crd empty)))).
  { apply (In_validatePair_errs cvv crd versionA versionB); try assumption.
    rewrite validatePair_distinct by (now apply String.eqb_neq).
    rewrite Hdiff. simpl.
    rewrite forRange_errs by (intro; apply appendOnly_validateField).
    apply in_flat_map. exists (field, diff). split; [exact Hfield |].
    unfold validateField, bind.
    rewrite (tryValidations_unhandled (changeValidations cvv) 0
               (ver_Name versionA) (ver_Name versionB) field diff Hnone).
    simpl. apply in_or_app. right. now left. }
  exists (errs (snd (validateBody cvv crd empty))). split.
  - unfold cvvValidate. simpl. now apply Join_In with e.
  - exact Hin.
Qed.

(** C2: every ordered pair of declared versions is visited, in both
    directions.  A pair with different names is evaluated: both schemas are
    flattened, their diff is calculated, each field of the diff is put to
    the change rules up to the first that handles it, and every failure of
    the pair is in the error the validator returns.  A pair with equal names
    is skipped: it adds no call and no failure.  What the validator returns
    is the failures of the ordered pairs, joined, and its calls are those of
    the ordered pairs and no other; it is the same under any library that
    flattens and diffs alike, whatever the checks of the structural rules
    return: none of them is run. *)
Theorem C2_every_ordered_pair_is_evaluated cvv crd :
  let result := fst (cvvValidate cvv crd) in
  let log := snd (cvvValidate cvv crd) in
  let flatten := FlattenSchema in
  let calculate := CalculateFlatSchemaDiff in
  (forall versionA versionB,
      In versionA (crd_Versions crd) ->
      In versionB (crd_Versions crd) ->
      ver_Name versionA <> ver_Name versionB ->
      (In (versionA, versionB) (orderedPairs crd) /\
       In (versionB, versionA) (orderedPairs crd)) /\
      (In (FlattenSchemaCall versionA) log /\
       In (FlattenSchemaCall versionB) log /\
       In (CalculateFlatSchemaDiffCall versionA versionB) log /\
       In (CalculateFlatSchemaDiffCall versionB versionA) log) /\
      (forall diffs field diff,
          CalculateFlatSchemaDiff (FlattenSchema (ver_Schema versionA))
                                  (FlattenSchema (ver_Schema versionB))
            = inl diffs ->
          In (field, diff) diffs ->
          (changeValidations cvv <> [] ->
           In (ChangeValidationCall 0 (ver_Name versionA) (ver_Name versionB)
                                    field) log) /\
          (forall i,
              i < List.length (triedRules (changeValidations cvv) diff) ->
              In (ChangeValidationCall i (ver_Name versionA)
                                       (ver_Name versionB) field) log)) /\
      (forall e,
          In e (pairFailures cvv versionA versionB) ->
          exists errs, result = Some (joinError errs) /\ In e errs)) /\
  (forall versionA versionB,
      ver_Name versionA = ver_Name versionB ->
      pairFailures cvv versionA versionB = [] /\
      pairCalls cvv versionA versionB = []) /\
  result =
    Join (flat_map (fun pair => pairFailures cvv (fst pair) (snd pair))
                   (orderedPairs crd)) /\
  log =
    flat_map (fun pair => pairCalls cvv (fst pair) (snd pair))
             (orderedPairs crd) /\
  (forall versionA versionB,
      In (CalculateFlatSchemaDiffCall versionA versionB) log ->
      In versionA (crd_Versions crd) /\ In versionB (crd_Versions crd) /\
      ver_Name versionA <> ver_Name versionB) /\
  (forall ev,
      In ev log ->
      match ev with
      | FlattenSchemaCall _ | CalculateFlatSchemaDiffCall _ _
      | ChangeValidationCall _ _ _ _ => True
      | GetCall _ | ValidatorValidateCall _ _ | CrossVersionValidateCall _ =>
          False
      end) /\
  (forall other : Library,
      @FlattenSchema _ other = flatten ->
      @CalculateFlatSchemaDiff _ other = calculate ->
      @cvvValidate _ other cvv crd = (result, log)).
Proof.
  cbv zeta. pose proof (cvvValidate_run cvv crd) as Hrun.
  rewrite Hrun. cbn [fst snd].
  split; [| split; [| split; [| split; [| split; [| split]]]]].
  - intros versionA versionB HA HB Hneq.
    assert (Hab : String.eqb (ver_Name versionA) (ver_Name versionB) = false)
      by now apply String.eqb_neq.
    assert (Hba : String.eqb (ver_Name versionB) (ver_Name versionA) = false)
      by (apply String.eqb_neq; congruence).
    split; [| split; [| split]].
    + split; now apply In_orderedPairs.
    + repeat split.
      * apply (In_calls_of_pairs cvv crd versionA versionB _ HA HB).
        unfold pairCalls. rewrite Hab. simpl. auto.
      * apply (In_calls_of_pairs cvv crd versionA versionB _ HA HB).
        unfold pairCalls. rewrite Hab. simpl. auto.
      * apply (In_calls_of_pairs cvv crd versionA versionB _ HA HB).
        unfold pairCalls. rewrite Hab. simpl. auto.
      * apply (In_calls_of_pairs cvv crd versionB versionA _ HB HA).
        unfold pairCalls. rewrite Hba. simpl. auto.
    + intros diffs field diff Hdiff Hfield.
      assert (Hcalls : forall i,
        i < List.length (triedRules (changeValidations cvv) diff) ->
        In (ChangeValidationCall i (ver_Name versionA) (ver_Name versionB)
                                 field)
           (flat_map (fun pair => pairCalls cvv (fst pair) (snd pair))
                     (orderedPairs crd))).
      { intros i Hi.
        apply (In_calls_of_pairs cvv crd versionA versionB _ HA HB).
        apply (In_pairCalls cvv versionA versionB diffs (field, diff) _
                 Hneq Hdiff Hfield).
        unfold fieldCalls, ruleCalls. simpl.
        apply in_map_iff. exists i. split; [reflexivity |].
        apply in_seq. lia. }
      split; [| exact Hcalls].
      intro Hrules. apply Hcalls.
      destruct (changeValidations cvv) as [|validation rest];
        [now destruct Hrules |].
      simpl. destruct (fst (validation diff)); simpl; lia.
    + intros e He.
      exists (flat_map (fun pair => pairFailures cvv (fst pair) (snd pair))
                       (orderedPairs crd)).
      assert (Hin := In_failures_of_pairs cvv crd versionA versionB e HA HB He).
      split; [now apply Join_In with e | exact Hin].
  - intros versionA versionB Heq. apply String.eqb_eq in Heq.
    unfold pairFailures, pairCalls. now rewrite Heq.
  - reflexivity.
  - reflexivity.
  - intros versionA versionB Hin. apply in_flat_map in Hin.
    destruct Hin as [[a b] [Hpair Hin]].
    apply In_orderedPairs in Hpair. destruct Hpair as [Ha Hb].
    simpl in Hin. unfold pairCalls in Hin.
    destruct (String.eqb (ver_Name a) (ver_Name b)) eqn:E; [destruct Hin |].
    apply String.eqb_neq in E.
    destruct Hin as [Hin|[Hin|[Hin|Hin]]]; try discriminate.
    + injection Hin as -> ->. auto.
    + exfalso. destruct (CalculateFlatSchemaDiff _ _) as [diffs|err];
        [| destruct Hin].
      apply in_flat_map in Hin. destruct Hin as [entry [_ Hin]].
      unfold fieldCalls, ruleCalls in Hin. apply in_map_iff in Hin.
      destruct Hin as [j [Hj _]]. discriminate Hj.
  - intros ev Hin. apply in_flat_map in Hin.
    destruct Hin as [[a b] [_ Hin]]. simpl in Hin. unfold pairCalls in Hin.
    destruct (String.eqb (ver_Name a) (ver_Name b)); [destruct Hin |].
    destruct Hin as [<-|[<-|[<-|Hin]]]; try exact I.
    destruct (CalculateFlatSchemaDiff _ _) as [diffs|err]; [| destruct Hin].
    apply in_flat_map in Hin. destruct Hin as [entry [_ Hin]].
    unfold fieldCalls, ruleCalls in Hin. apply in_map_iff in Hin.
    destruct Hin as [j [<- _]]. exact I.
  - intros other Hflatten Hdiff. rewrite <- Hrun.
    unfold cvvValidate, validateBody, validatePair.
    rewrite Hflatten, Hdiff. reflexivity.
Qed.

(** C4: the cross-version validator of a new preflight holds the change
    rules in the declared order, Enum first and DefaultValue last.  For a
    field diff they are tried in that order up to the first rule that
    returns handled, and no rule after it is tried; the error of that rule,
    if it has one, is recorded whatever its verdict and is part of the error
    the validator returns, and no unknown-change error is recorded for the
    field.  The errors of the rules that declined before it are recorded as
    well, so the error of the handling rule is the only one recorded for the
    field when the rules that declined carried none. *)
Theorem C4_first_handling_rule_ends_evaluation
        crdCli opts crd versionA versionB diffs field diff
        before validation after :
  Forall (fun o => exists v, o = WithValidator v) opts ->
  In versionA (crd_Versions crd) ->
  In versionB (crd_Versions crd) ->
  ver_Name versionA <> ver_Name versionB ->
  CalculateFlatSchemaDiff (FlattenSchema (ver_Schema versionA))
                          (FlattenSchema (ver_Schema versionB)) = inl diffs ->
  In (field, diff) diffs ->
  defaultChangeValidations = before ++ validation :: after ->
  Forall (fun v : ChangeValidation => fst (v diff) = false) before ->
  fst (validation diff) = true ->
  let cvv := crossVersionValidatorOf (NewPreflight crdCli opts) in
  let nameA := ver_Name versionA in
  let nameB := ver_Name versionB in
  let s := snd (validateField cvv nameA nameB (field, diff) empty) in
  let recorded :=
    flat_map (ruleErrs nameA nameB field diff) before ++
    match snd (validation diff) with
    | Some e =>
        [Errorf "version %q compared to version %q, field %q: %w"
                [nameA; nameB; field] (Some e)]
    | None => []
    end in
  changeValidations cvv =
    [ EnumChangeValidation; RequiredFieldChangeValidation;
      MaximumChangeValidation; MaximumItemsChangeValidation;
      MaximumLengthChangeValidation; MaximumPropertiesChangeValidation;
      MinimumChangeValidation; MinimumItemsChangeValidation;
      MinimumLengthChangeValidation; MinimumPropertiesChangeValidation;
      DefaultValueChangeValidation ] /\
  calls s = ruleCalls 0 (S (List.length before)) nameA nameB field /\
  errs s = recorded /\
  (Forall (fun v : ChangeValidation => snd (v diff) = None) before ->
   errs s =
     match snd (validation diff) with
     | Some e =>
         [Errorf "version %q compared to version %q, field %q: %w"
                 [nameA; nameB; field] (Some e)]
     | None => []
     end) /\
  exists errs,
    fst (cvvValidate cvv crd) = Join errs /\
    incl recorded errs /\
    incl (ruleCalls 0 (S (List.length before)) nameA nameB field)
         (snd (cvvValidate cvv crd)) /\
    (NoDup (map ver_Name (crd_Versions crd)) ->
     NoDup (map fst diffs) ->
     (forall i,
         In (ChangeValidationCall i nameA nameB field)
            (snd (cvvValidate cvv crd)) ->
         i <= List.length before) /\
     ~ In (unknownChange nameA nameB field) errs /\
     (forall e,
         In (ruleFailed nameA nameB field e) errs ->
         In (ruleFailed nameA nameB field e) recorded) /\
     (Forall (fun v : ChangeValidation => snd (v diff) = None) before ->
      forall e,
        In (ruleFailed nameA nameB field e) errs <->
        snd (validation diff) = Some e)).
Proof.
  intros Hopts HA HB Hneq Hdiff Hfield Hsplit Hbefore Hok. cbv zeta.
  set (cvv := crossVersionValidatorOf (NewPreflight crdCli opts)).
  set (nameA := ver_Name versionA). set (nameB := ver_Name versionB).
  set (recorded :=
         flat_map (ruleErrs nameA nameB field diff) before ++
         match snd (validation diff) with
         | Some e =>
             [Errorf "version %q compared to version %q, field %q: %w"
                     [nameA; nameB; field] (Some e)]
         | None => []
         end).
  assert (Hrules : changeValidations cvv = defaultChangeValidations).
  { unfold cvv, NewPreflight.
    now rewrite (WithValidator_options_keep_rules opts Hopts). }
  destruct (triedRules_split before validation after diff Hbefore Hok)
    as [Htried Hhandled].
  assert (Hfailures :
    fieldFailures cvv nameA nameB (field, diff) = recorded).
  { unfold fieldFailures. cbn [fst snd].
    rewrite Hrules, Hsplit, Htried, Hhandled, app_nil_r, flat_map_app.
    simpl. now rewrite app_nil_r. }
  assert (Hcalls :
    fieldCalls cvv nameA nameB (field, diff) =
      ruleCalls 0 (S (List.length before)) nameA nameB field).
  { unfold fieldCalls. cbn [fst snd].
    rewrite Hrules, Hsplit, Htried, length_app. simpl.
    now rewrite Nat.add_1_r. }
  assert (Hquiet : forall rules : list ChangeValidation,
    Forall (fun v : ChangeValidation => snd (v diff) = None) rules ->
    flat_map (ruleErrs nameA nameB field diff) rules = []).
  { intros rules Hnone. induction Hnone as [|v rest Hv _ IH]; simpl.
    - reflexivity.
    - unfold ruleErrs at 1. now rewrite Hv, IH. }
  rewrite validateField_run, Hfailures, Hcalls. cbn [errs calls].
  split; [exact Hrules | split; [reflexivity | split; [reflexivity |]]].
  split.
  { intro Hnone. unfold recorded. now rewrite (Hquiet before Hnone). }
  rewrite (cvvValidate_run cvv crd). cbn [fst snd].
  exists (flat_map (fun pair => pairFailures cvv (fst pair) (snd pair))
                   (orderedPairs crd)).
  split; [reflexivity |].
  assert (Hincl :
    incl recorded
         (flat_map (fun pair => pairFailures cvv (fst pair) (snd pair))
                   (orderedPairs crd))).
  { intros e He.
    apply (In_failures_of_pairs cvv crd versionA versionB e HA HB).
    apply (In_pairFailures cvv versionA versionB diffs (field, diff) e
             Hneq Hdiff Hfield).
    fold nameA nameB. now rewrite Hfailures. }
  split; [exact Hincl |]. split.
  { intros ev Hev.
    apply (In_calls_of_pairs cvv crd versionA versionB ev HA HB).
    apply (In_pairCalls cvv versionA versionB diffs (field, diff) ev
             Hneq Hdiff Hfield).
    fold nameA nameB. now rewrite Hcalls. }
  intros Hnames Hfields.
  assert (Hrecorded : forall e,
    In (ruleFailed nameA nameB field e)
       (flat_map (fun pair => pairFailures cvv (fst pair) (snd pair))
                 (orderedPairs crd)) ->
    In (ruleFailed nameA nameB field e) recorded).
  { intros e He. apply failures_of_pairs_inv in He.
    destruct He as [a [b [Ha [Hb [_ [He|He]]]]]]; [discriminate He |].
    destruct He as [diffs' [entry [Hdiff' [Hentry He]]]].
    apply fieldFailures_inv in He.
    destruct He as [[He _]|[v [w [Hv [Hw He]]]]]; [discriminate He |].
    injection He as HaA HbB Hfst <-.
    rewrite (entry_located crd versionA versionB a b diffs diffs' field diff
               entry Hnames Hfields HA HB Ha Hb (eq_sym HaA) (eq_sym HbB)
               Hdiff Hdiff' Hfield Hentry (eq_sym Hfst)) in Hv, Hw.
    cbn [fst snd] in Hv, Hw. rewrite Hrules, Hsplit, Htried in Hv.
    unfold recorded. apply in_or_app. apply in_app_or in Hv.
    destruct Hv as [Hv|[<-|[]]].
    - left. apply in_flat_map. exists v. split; [exact Hv |].
      unfold ruleErrs. rewrite Hw. now left.
    - right. rewrite Hw. now left. }
  split; [| split; [| split]].
  - intros i Hi. apply rule_calls_of_pairs_inv in Hi.
    destruct Hi as [a [b [diffs' [diff' [Ha [Hb [HaA [HbB [Hdiff' [Hentry Hi]]]]]]]]]].
    pose proof (entry_located crd versionA versionB a b diffs diffs' field
                  diff (field, diff') Hnames Hfields HA HB Ha Hb HaA HbB
                  Hdiff Hdiff' Hfield Hentry eq_refl) as Heq.
    injection Heq as ->.
    rewrite Hrules, Hsplit, Htried, length_app in Hi. simpl in Hi. lia.
  - intro Hin. apply failures_of_pairs_inv in Hin.
    destruct Hin as [a [b [Ha [Hb [_ [Hin|Hin]]]]]]; [discriminate Hin |].
    destruct Hin as [diffs' [entry [Hdiff' [Hentry Hin]]]].
    apply fieldFailures_inv in Hin.
    destruct Hin as [[Hin Hnot]|[v [w [_ [_ Hin]]]]]; [| discriminate Hin].
    injection Hin as HaA HbB Hfst.
    rewrite (entry_located crd versionA versionB a b diffs diffs' field diff
               entry Hnames Hfields HA HB Ha Hb (eq_sym HaA) (eq_sym HbB)
               Hdiff Hdiff' Hfield Hentry (eq_sym Hfst)) in Hnot.
    cbn [snd] in Hnot. rewrite Hrules, Hsplit, Hhandled in Hnot.
    discriminate Hnot.
  - exact Hrecorded.
  - intros Hnone e. split.
    + intro He. apply Hrecorded in He. unfold recorded in He.
      rewrite (Hquiet before Hnone) in He. simpl in He.
      destruct (snd (validation diff)) as [w|]; [| destruct He].
      destruct He as [He|[]]. now injection He as ->.
    + intro He. apply Hincl. unfold recorded. apply in_or_app. right.
      rewrite He. now left.
Qed.

(** When the library finds no difference between any two versions, the
    cross-version validator returns nil.  Whether the library finds none
    between identical schemas is a matter of the library. *)
Lemma cvvValidate_without_diffs cvv crd :
  (forall versionA versionB,
      In versionA (crd_Versions crd) -> In versionB (crd_Versions crd) ->
      ver_Name versionA <> ver_Name versionB ->
      CalculateFlatSchemaDiff (FlattenSchema (ver_Schema versionA))
                              (FlattenSchema (ver_Schema versionB)) = inl []) ->
  fst (cvvValidate cvv crd) = None.
Proof.
  intro Hnone. unfold cvvValidate. simpl. apply Join_nil_iff.
  rewrite validateBody_errs.
  apply flat_map_all_nil. intros versionA HA.
  apply flat_map_all_nil. intros versionB HB.
  destruct (String.eqb (ver_Name versionA) (ver_Name versionB)) eqn:E.
  - now rewrite validatePair_same.
  - rewrite validatePair_distinct by exact E.
    rewrite (Hnone versionA versionB HA HB) by now apply String.eqb_neq.
    reflexivity.
Qed.

(** *** The preflight's [Upgrade] *)

Lemma appendOnly_upgradeObject p obj : appendOnly (upgradeObject p obj).
Proof.
  unfold upgradeObject.
  destruct (negb _); [apply appendOnly_ret |].
  destruct (ToUnstructured obj) as [uMap|e]; [| apply appendOnly_ret].
  destruct (FromUnstructured uMap) as [newCrd|e]; [| apply appendOnly_ret].
  apply appendOnly_bind; [apply appendOnly_call | intros _].
  destruct (Get _ _) as [oldCrd|e]; [| apply appendOnly_ret].
  apply appendOnly_bind; [apply appendOnly_call | intros _].
  apply appendOnly_bind; [destruct (Validate _ _ _); auto with stmt | intros _].
  apply appendOnly_bind; [apply appendOnly_call | intros _].
  apply appendOnly_bind; [destruct (fst _); auto with stmt | intros _].
  apply appendOnly_ret.
Qed.

(** An object that is no definition is passed over. *)
Lemma upgradeObject_other p obj :
  isDefinition obj = false -> upgradeObject p obj empty = (None, empty).
Proof.
  unfold isDefinition, upgradeObject. intros ->. reflexivity.
Qed.

(** A definition whose active definition is fetched is validated twice and
    the loop goes on. *)
Lemma upgradeObject_fetched p obj oldCrd newCrd :
  fetched p obj = Some (oldCrd, newCrd) ->
  upgradeObject p obj empty =
    (None,
     mkStore (crdFailures p oldCrd newCrd)
             [ GetCall (crd_Name newCrd);
               ValidatorValidateCall oldCrd newCrd;
               CrossVersionValidateCall newCrd ]).
Proof.
  unfold fetched, isDefinition, upgradeObject, crdFailures.
  destruct (schema.eqb _ _); [simpl | discriminate].
  destruct (ToUnstructured obj) as [uMap|e]; [| discriminate].
  destruct (FromUnstructured uMap) as [crd|e]; [| discriminate].
  destruct (Get _ _) as [old|e]; [| discriminate].
  intros [= -> ->]. unfold bind, call. simpl.
  destruct (Validate _ _ _); destruct (Join _); reflexivity.
Qed.

(** A definition whose active definition cannot be fetched makes the body
    return, right after the call to the cluster. *)
Lemma upgradeObject_not_fetched p obj uMap newCrd e :
  isDefinition obj = true ->
  ToUnstructured obj = inl uMap ->
  FromUnstructured uMap = inl newCrd ->
  Get (crdClient p) (crd_Name newCrd) = inr e ->
  upgradeObject p obj empty =
    (Some (Some (Errorf "getting existing resource for CRD %q: %w"
                        [crd_Name newCrd] (Some e))),
     mkStore [] [GetCall (crd_Name newCrd)]).
Proof.
  unfold isDefinition, upgradeObject. intros -> -> -> Hget.
  unfold bind, call. simpl. now rewrite Hget.
Qed.

(** Whatever the body returns is an error, and not a joined one. *)
Lemma upgradeObject_returns p obj r :
  fst (upgradeObject p obj empty) = Some r ->
  exists err, r = Some err /\ isJoined err = false.
Proof.
  unfold upgradeObject.
  destruct (negb _); [discriminate |].
  destruct (ToUnstructured obj) as [uMap|e];
    [| intros [= <-]; eexists; split; reflexivity].
  destruct (FromUnstructured uMap) as [newCrd|e];
    [| intros [= <-]; eexists; split; reflexivity].
  unfold bind, call. simpl.
  destruct (Get _ _) as [oldCrd|e];
    [| intros [= <-]; eexists; split; reflexivity].
  destruct (Validate _ _ _); destruct (Join _); discriminate.
Qed.

(** The loop over objects that are all passed over or fetched. *)
Lemma upgrade_loop_completes p objs :
  (forall obj, In obj objs -> isDefinition obj = true -> fetched p obj <> None) ->
  fst (forRangeReturn objs (upgradeObject p) empty) = None /\
  errs (snd (forRangeReturn objs (upgradeObject p) empty)) =
    flat_map (objectFailures p) objs.
Proof.
  induction objs as [|obj rest IH]; intro Hall.
  - split; reflexivity.
  - assert (Hrest : forall o, In o rest -> isDefinition o = true ->
                              fetched p o <> None)
      by (intros o Ho; apply Hall; now right).
    destruct (IH Hrest) as [IHfst IHerrs].
    assert (Hobj : upgradeObject p obj empty =
                     (None, mkStore (objectFailures p obj)
                                    (calls (snd (upgradeObject p obj empty))))).
    { unfold objectFailures.
      destruct (isDefinition obj) eqn:Edef.
      - destruct (fetched p obj) as [[oldCrd newCrd]|] eqn:Efetched.
        + now rewrite (upgradeObject_fetched p obj oldCrd newCrd Efetched).
        + exfalso. apply (Hall obj); [now left | exact Edef | exact Efetched].
      - rewrite upgradeObject_other by exact Edef.
        unfold fetched. now rewrite Edef. }
    rewrite forRangeReturn_cons_None;
      [| apply appendOnly_upgradeObject | now rewrite Hobj].
    simpl. split; [exact IHfst |].
    rewrite IHerrs. now rewrite Hobj.
Qed.

(** The loop up to a definition that cannot be fetched. *)
Lemma upgrade_loop_returns p before obj after err log :
  upgradeObject p obj empty = (Some (Some err), mkStore [] log) ->
  isJoined err = false ->
  (exists returned,
      fst (forRangeReturn (before ++ obj :: after) (upgradeObject p) empty)
        = Some (Some returned) /\
      isJoined returned = false) /\
  ((forall o, In o before -> isDefinition o = true -> fetched p o <> None) ->
   fst (forRangeReturn (before ++ obj :: after) (upgradeObject p) empty)
     = Some (Some err) /\
   exists earlier,
     calls (snd (forRangeReturn (before ++ obj :: after) (upgradeObject p) empty))
       = earlier ++ log).
Proof.
  intros Hobj Hfatal.
  induction before as [|o rest IH].
  - simpl app.
    rewrite (forRangeReturn_cons_Some obj after (upgradeObject p) (Some err))
      by now rewrite Hobj.
    rewrite Hobj. simpl. split; [eauto |].
    intros _. split; [reflexivity | now exists []].
  - change ((o :: rest) ++ obj :: after) with (o :: (rest ++ obj :: after)).
    destruct IH as [IHany IHfirst].
    destruct (fst (upgradeObject p o empty)) as [r|] eqn:Eo.
    + rewrite (forRangeReturn_cons_Some o _ (upgradeObject p) r Eo).
      destruct (upgradeObject_returns p o r Eo) as [e' [-> He']].
      simpl. split; [eauto |].
      intro Hall. exfalso.
      destruct (isDefinition o) eqn:Edef.
      * destruct (fetched p o) as [[oldCrd newCrd]|] eqn:Efetched.
        -- rewrite (upgradeObject_fetched p o oldCrd newCrd Efetched) in Eo.
           discriminate.
        -- apply (Hall o); [now left | exact Edef | exact Efetched].
      * rewrite upgradeObject_other in Eo by exact Edef. discriminate.
    + rewrite forRangeReturn_cons_None;
        [| apply appendOnly_upgradeObject | exact Eo].
      simpl. split; [exact IHany |].
      intro Hall.
      destruct IHfirst as [Hfst [earlier Hcalls]];
        [intros o' Ho'; apply Hall; now right |].
      split; [exact Hfst |].
      exists (calls (snd (upgradeObject p o empty)) ++ earlier).
      rewrite Hcalls. now rewrite app_assoc.
Qed.

(** C3, as amended: when every definition of the proposed release converts
    and its active definition is fetched, [Upgrade] returns the failures of
    the (active, proposed) validation and of the cross-version validation of
    every definition, joined in the order of the release; it returns nil
    exactly when no definition produced a failure, and no failure is missing
    from the joined error. *)
Theorem C3_failures_joined_when_all_fetched p rel relObjects :
  ManifestObjects (release.Manifest rel)
                  (release.Name rel ++ "-release-manifest") = inl relObjects ->
  (forall obj, In obj relObjects -> isDefinition obj = true ->
               fetched p obj <> None) ->
  fst (Upgrade p (Some rel)) = Join (flat_map (objectFailures p) relObjects) /\
  (fst (Upgrade p (Some rel)) = None <->
   forall obj, In obj relObjects -> objectFailures p obj = []) /\
  (forall obj oldCrd newCrd e,
      In obj relObjects ->
      fetched p obj = Some (oldCrd, newCrd) ->
      In e (crdFailures p oldCrd newCrd) ->
      exists errs,
        fst (Upgrade p (Some rel)) = Some (joinError errs) /\ In e errs).
Proof.
  intros Hmanifest Hall.
  destruct (upgrade_loop_completes p relObjects Hall) as [Hfst Herrs].
  assert (Hrun :
    fst (Upgrade p (Some rel)) = Join (flat_map (objectFailures p) relObjects)).
  { unfold Upgrade. rewrite Hmanifest.
    destruct (forRangeReturn relObjects (upgradeObject p) empty) as [r s].
    simpl in Hfst, Herrs. subst r. simpl. now rewrite Herrs. }
  split; [exact Hrun | split].
  - rewrite Hrun, Join_nil_iff. split.
    + intros Hnil obj Hin.
      destruct (objectFailures p obj) as [|e rest] eqn:E; [reflexivity |].
      assert (Hine : In e (flat_map (objectFailures p) relObjects)).
      { apply in_flat_map. exists obj. split; [exact Hin |].
        rewrite E. now left. }
      rewrite Hnil in Hine. destruct Hine.
    + apply flat_map_all_nil.
  - intros obj oldCrd newCrd e Hin Hfetched He.
    exists (flat_map (objectFailures p) relObjects).
    assert (Hine : In e (flat_map (objectFailures p) relObjects)).
    { apply in_flat_map. exists obj. split; [exact Hin |].
      unfold objectFailures. now rewrite Hfetched. }
    split; [| exact Hine].
    rewrite Hrun. now apply Join_In with e.
Qed.

(** C5: a definition of the release whose active definition cannot be
    fetched makes [Upgrade] return an error that is not the joined error of
    failed validations; when the objects before it were passed over or
    fetched, the error returned is the one of the fetch and the fetch is the
    last call made. *)
Theorem C5_failed_fetch_is_fatal p rel before obj after uMap newCrd e :
  ManifestObjects (release.Manifest rel)
                  (release.Name rel ++ "-release-manifest")
    = inl (before ++ obj :: after) ->
  isDefinition obj = true ->
  ToUnstructured obj = inl uMap ->
  FromUnstructured uMap = inl newCrd ->
  Get (crdClient p) (crd_Name newCrd) = inr e ->
  (exists err, fst (Upgrade p (Some rel)) = Some err /\ isJoined err = false) /\
  ((forall o, In o before -> isDefinition o = true -> fetched p o <> None) ->
   fst (Upgrade p (Some rel)) =
     Some (Errorf "getting existing resource for CRD %q: %w"
                  [crd_Name newCrd] (Some e)) /\
   exists earlier,
     snd (Upgrade p (Some rel)) = earlier ++ [GetCall (crd_Name newCrd)]).
Proof.
  intros Hmanifest Hdef Hto Hfrom Hget.
  pose proof (upgradeObject_not_fetched p obj uMap newCrd e Hdef Hto Hfrom Hget)
    as Hobj.
  destruct (upgrade_loop_returns p before obj after _ _ Hobj eq_refl)
    as [[returned [Hany Hfatal]] Hfirst].
  unfold Upgrade. rewrite Hmanifest.
  destruct (forRangeReturn (before ++ obj :: after) (upgradeObject p) empty)
    as [r s].
  simpl in Hany, Hfirst. subst r. simpl. split.
  - exists returned. split; [reflexivity | exact Hfatal].
  - intro Hall. destruct (Hfirst Hall) as [[= ->] Hcalls].
    split; [reflexivity | exact Hcalls].
Qed.

(** C9: for a nil release [Upgrade] returns nil and makes no call: no
    definition is fetched, no validation is run. *)
Theorem C9_nil_release_is_a_no_op p :
  fst (Upgrade p None) = None /\ snd (Upgrade p None) = [].
Proof. split; reflexivity. Qed.

End Facts.

Import fake.

(** C1 on [widgets]: going from [v1] to [v2], [spec.size] changes its type,
    which every rule declines. *)
Lemma C1_unknown_change_is_recorded_witness :
  exists errs,
    fst (cvvValidate (crossVersionValidatorOf fake.preflight) fake.widgets)
      = Some (joinError errs) /\
    In (Errorf
          "version %q compared to version %q, field %q has unknown change, refusing to determine that change is safe"
          ["v1"; "v2"; "spec.size"] None)
       errs.
Proof.
  apply (C1_unknown_change_is_recorded
           (crossVersionValidatorOf fake.preflight) fake.widgets
           fake.v1 fake.v2
           [ ("spec.replicas", (("integer", 10), ("integer", 3)));
             ("spec.size", (("integer", 5), ("string", 5))) ]
           "spec.size" (("integer", 5), ("string", 5))).
  - simpl. auto.
  - simpl. auto.
  - simpl. discriminate.
  - reflexivity.
  - simpl. auto.
  - simpl. repeat constructor.
Defined.

(** C4 on [widgets]: from [v1] to [v2] the maximum of [spec.replicas] is
    lowered; the Maximum rule, third in the order, handles the field, its
    error is in what the validator returns, no rule after it is called and
    the field is not reported as an unknown change. *)
Lemma C4_first_handling_rule_ends_evaluation_witness :
  exists errs,
    fst (cvvValidate (crossVersionValidatorOf fake.preflight) fake.widgets)
      = Join errs /\
    In (Errorf "version %q compared to version %q, field %q: %w"
               ["v1"; "v2"; "spec.replicas"] (Some (New "maximum decreased")))
       errs /\
    ~ In (unknownChange "v1" "v2" "spec.replicas") errs /\
    forall i,
      In (ChangeValidationCall i "v1" "v2" "spec.replicas")
         (snd (cvvValidate (crossVersionValidatorOf fake.preflight)
                           fake.widgets)) ->
      i <= 2.
Proof.
  assert (Hdeclined :
    Forall (fun v : ChangeValidation =>
              fst (v (("integer", 10), ("integer", 3))) = false)
           [EnumChangeValidation; RequiredFieldChangeValidation])
    by (repeat constructor).
  assert (Hnames : NoDup (map ver_Name (crd_Versions fake.widgets)))
    by (simpl; repeat constructor; simpl; intuition discriminate).
  assert (Hfields :
    NoDup (map fst
             [ ("spec.replicas", (("integer", 10), ("integer", 3)));
               ("spec.size", (("integer", 5), ("string", 5))) ]))
    by (simpl; repeat constructor; simpl; intuition discriminate).
  destruct
    (C4_first_handling_rule_ends_evaluation
       fake.cluster [] fake.widgets fake.v1 fake.v2
       [ ("spec.replicas", (("integer", 10), ("integer", 3)));
         ("spec.size", (("integer", 5), ("string", 5))) ]
       "spec.replicas" (("integer", 10), ("integer", 3))
       [EnumChangeValidation; RequiredFieldChangeValidation]
       MaximumChangeValidation
       [ MaximumItemsChangeValidation; MaximumLengthChangeValidation;
         MaximumPropertiesChangeValidation; MinimumChangeValidation;
         MinimumItemsChangeValidation; MinimumLengthChangeValidation;
         MinimumPropertiesChangeValidation; DefaultValueChangeValidation ]
       (Forall_nil _) (or_introl eq_refl) (or_intror (or_introl eq_refl))
       ltac:(discriminate) eq_refl (or_introl eq_refl) eq_refl
       Hdeclined eq_refl)
    as [_ [_ [_ [_ [errs [Hresult [Hincl [_ Hunique]]]]]]]].
  destruct (Hunique Hnames Hfields) as [Hcalls [Hunknown _]].
  exists errs. split; [exact Hresult | split; [| split]].
  - apply Hincl. simpl. now left.
  - exact Hunknown.
  - exact Hcalls.
Defined.

(** C4 as stated fails under a library whose Enum rule declines with an
    error: from [v1] to [v4] the maximum of [spec.replicas] is raised, the
    Maximum rule handles the field and has no error, yet the error of the
    Enum rule is recorded for the field and the validator returns it. *)
Lemma C4_error_of_a_declining_rule_is_recorded :
  @EnumChangeValidation _ fake_more.noisyLibrary
     (("integer", 10), ("integer", 20)) =
    (false, Some (New "enum cannot tell")) /\
  @RequiredFieldChangeValidation _ fake_more.noisyLibrary
     (("integer", 10), ("integer", 20)) = (false, None) /\
  @MaximumChangeValidation _ fake_more.noisyLibrary
     (("integer", 10), ("integer", 20)) = (true, None) /\
  fst (@cvvValidate _ fake_more.noisyLibrary
         (crossVersionValidatorOf
            (@NewPreflight _ fake_more.noisyLibrary fake.cluster []))
         fake_more.raised) =
    Some (joinError
            [ Errorf "version %q compared to version %q, field %q: %w"
                     ["v1"; "v4"; "spec.replicas"]
                     (Some (New "enum cannot tell"));
              Errorf "version %q compared to version %q, field %q: %w"
                     ["v4"; "v1"; "spec.replicas"]
                     (Some (New "enum cannot tell"));
              Errorf "version %q compared to version %q, field %q: %w"
                     ["v4"; "v1"; "spec.replicas"]
                     (Some (New "maximum decreased")) ]) /\
  ~ recordsTheHandlingRule
      (crossVersionValidatorOf
         (@NewPreflight _ fake_more.noisyLibrary fake.cluster []))
      "v1" "v4" ("spec.replicas", (("integer", 10), ("integer", 20))).
Proof.
  repeat split.
  intro Hrecords.
  assert (Hdeclined :
    Forall (fun v : ChangeValidation =>
              fst (v (snd ("spec.replicas",
                           (("integer", 10), ("integer", 20))))) = false)
           [ @EnumChangeValidation _ fake_more.noisyLibrary;
             @RequiredFieldChangeValidation _ fake_more.noisyLibrary ])
    by (repeat constructor).
  specialize (Hrecords
    [ @EnumChangeValidation _ fake_more.noisyLibrary;
      @RequiredFieldChangeValidation _ fake_more.noisyLibrary ]
    (@MaximumChangeValidation _ fake_more.noisyLibrary)
    [ @MaximumItemsChangeValidation _ fake_more.noisyLibrary;
      @MaximumLengthChangeValidation _ fake_more.noisyLibrary;
      @MaximumPropertiesChangeValidation _ fake_more.noisyLibrary;
      @MinimumChangeValidation _ fake_more.noisyLibrary;
      @MinimumItemsChangeValidation _ fake_more.noisyLibrary;
      @MinimumLengthChangeValidation _ fake_more.noisyLibrary;
      @MinimumPropertiesChangeValidation _ fake_more.noisyLibrary;
      @DefaultValueChangeValidation _ fake_more.noisyLibrary ]
    eq_refl Hdeclined eq_refl).
  discriminate Hrecords.
Qed.

(** The validator on [widgets]: the lowered maximum is rejected by its rule
    from [v1] to [v2] and accepted the other way, the change of type is
    unknown both ways. *)
Example cvvValidate_widgets :
  fst (cvvValidate (crossVersionValidatorOf preflight) widgets) =
    Some (joinError
            [ Errorf "version %q compared to version %q, field %q: %w"
                     ["v1"; "v2"; "spec.replicas"]
                     (Some (New "maximum decreased"));
              unknownChange "v1" "v2" "spec.size";
              unknownChange "v2" "v1" "spec.size" ]).
Proof. reflexivity. Qed.

(** A definition with a single version has no pair to compare. *)
Example cvvValidate_single_version :
  cvvValidate (crossVersionValidatorOf preflight) widgetsProposed = (None, []).
Proof. reflexivity. Qed.

(** The calls of [Upgrade] on the release with [widgets] and [gadgets]. *)
Example Upgrade_bothRelease_calls :
  snd (Upgrade preflight (Some bothRelease)) =
    [ GetCall "widgets";
      ValidatorValidateCall widgetsActive widgetsProposed;
      CrossVersionValidateCall widgetsProposed;
      GetCall "gadgets" ].
Proof. reflexivity. Qed.

(** Every definition of the [widgets] release is fetched. *)
Lemma widgetsRelease_all_fetched :
  forall obj, In obj [configMap; crdObject widgetsProposed] ->
              isDefinition obj = true -> fetched preflight obj <> None.
Proof.
  intros obj [<-|[<-|[]]] Hdef.
  - discriminate Hdef.
  - discriminate.
Qed.

(** C3 as amended, on the [widgets] release: the proposed definition changes
    the scope, and that failure is what [Upgrade] returns, joined. *)
Lemma C3_failures_joined_when_all_fetched_witness :
  fst (Upgrade preflight (Some widgetsRelease)) =
    Some (joinError
            [ Errorf "validating upgrade for CRD %q failed: %w" ["widgets"]
                (Some (joinError
                         [ Errorf "%q validation failed: %w" ["NoScopeChange"]
                                  (Some (New "scope changed")) ])) ]).
Proof.
  exact (proj1 (C3_failures_joined_when_all_fetched
                  preflight widgetsRelease
                  [configMap; crdObject widgetsProposed]
                  eq_refl widgetsRelease_all_fetched)).
Defined.

(** C3 as stated fails on a release with [widgets] and [gadgets]: the
    validation of [widgets] fails, then the fetch of [gadgets] fails and
    [Upgrade] returns the error of the fetch alone. *)
Lemma C3_failure_dropped_when_later_fetch_fails :
  fst (Upgrade preflight (Some bothRelease)) =
    Some (Errorf "getting existing resource for CRD %q: %w" ["gadgets"]
            (Some (New "customresourcedefinitions.apiextensions.k8s.io not found")))
  /\ ~ collectsEveryFailure preflight bothRelease.
Proof.
  split; [reflexivity |].
  intro Hcollects.
  destruct (Hcollects
              [crdObject widgetsProposed; configMap; crdObject gadgets]
              (crdObject widgetsProposed) widgetsActive widgetsProposed
              (Errorf "validating upgrade for CRD %q failed: %w" ["widgets"]
                 (Some (joinError
                          [ Errorf "%q validation failed: %w" ["NoScopeChange"]
                                   (Some (New "scope changed")) ])))
              eq_refl (or_introl eq_refl) eq_refl (or_introl eq_refl))
    as [errs [Hreturned _]].
  discriminate Hreturned.
Qed.

(** C5 on the release with [widgets] and [gadgets]: the cluster has no
    [gadgets]. *)
Lemma C5_failed_fetch_is_fatal_witness :
  fst (Upgrade preflight (Some bothRelease)) =
    Some (Errorf "getting existing resource for CRD %q: %w" ["gadgets"]
            (Some (New "customresourcedefinitions.apiextensions.k8s.io not found")))
  /\ exists earlier,
       snd (Upgrade preflight (Some bothRelease)) = earlier ++ [GetCall "gadgets"].
Proof.
  refine (proj2 (C5_failed_fetch_is_fatal
                   preflight bothRelease
                   [crdObject widgetsProposed; configMap]
                   (crdObject gadgets) [] (crdObject gadgets) gadgets
                   (New "customresourcedefinitions.apiextensions.k8s.io not found")
                   eq_refl eq_refl eq_refl eq_refl eq_refl) _).
  intros o [<-|[<-|[]]] Hdef.
  - discriminate.
  - discriminate Hdef.
Defined.

End crdupgradesafety_facts.

(** ** The applier *)

Module applier_facts.

Import errors stmt kappcus applier errors_facts stmt_facts.

Section Facts.
Context `{Library} `{!crdupgradesafety.Runtime} `{!Deps}.

Lemma appendOnly_getReleaseState cl ext chrt post :
  appendOnly (getReleaseState cl ext chrt post).
Proof.
  unfold getReleaseState.
  apply appendOnly_bind; [apply appendOnly_call | intros _].
  destruct (ac_Get _ _) as [currentRelease|e].
  - apply appendOnly_bind; [apply appendOnly_call | intros _].
    destruct (ac_Upgrade _ _ _ _ _); apply appendOnly_ret.
  - destruct (negb _); apply appendOnly_ret.
Qed.

Lemma appendOnly_runPreflight ext state desiredRel preflight :
  appendOnly (runPreflight ext state desiredRel preflight).
Proof.
  unfold runPreflight.
  destruct (skipped _ _); [apply appendOnly_ret |].
  destruct state; auto with stmt.
Qed.

Lemma appendOnly_applyRelease ac ext chrt installLabels post state rel :
  appendOnly (applyRelease ac ext chrt installLabels post state rel).
Proof.
  unfold applyRelease. destruct state.
  - apply appendOnly_bind; [apply appendOnly_call | intros _].
    destruct (ac_Install _ _ _ _ _); apply appendOnly_ret.
  - apply appendOnly_bind; [apply appendOnly_call | intros _].
    destruct (ac_Upgrade _ _ _ _ _); apply appendOnly_ret.
  - apply appendOnly_bind; [apply appendOnly_call | intros _].
    destruct (ac_Reconcile _ _); apply appendOnly_ret.
  - apply appendOnly_ret.
Qed.

(** The calls of [Apply] from [getReleaseState] on: those that compute the
    state, then the preflights, then the one that applies the release. *)
Lemma applyBody_calls h ac ext chrt installLabels post :
  calls (snd (applyBody h ac ext chrt installLabels post empty)) =
    let '(rel, desiredRel, state, err) :=
      fst (getReleaseState ac ext chrt post empty) in
    calls (snd (getReleaseState ac ext chrt post empty)) ++
    match err with
    | Some _ => []
    | None =>
        let loop :=
          forRangeReturn (Preflights h) (runPreflight ext state desiredRel)
                         empty in
        calls (snd loop) ++
        match fst loop with
        | Some _ => []
        | None =>
            calls (snd (applyRelease ac ext chrt installLabels post state rel
                                     empty))
        end
    end.
Proof.
  unfold applyBody, bind.
  destruct (getReleaseState ac ext chrt post empty)
    as [[[[rel desiredRel] state] err] s1].
  simpl. destruct err as [e|]; [simpl; now rewrite app_nil_r |].
  rewrite (appendOnly_forRangeReturn (Preflights h)
             (runPreflight ext state desiredRel)
             (appendOnly_runPreflight ext state desiredRel) s1).
  destruct (forRangeReturn (Preflights h) (runPreflight ext state desiredRel)
                           empty) as [failed s2].
  simpl. destruct failed as [e|]; [simpl; now rewrite app_nil_r |].
  rewrite (appendOnly_applyRelease ac ext chrt installLabels post state rel
             (extend s1 s2)).
  destruct (applyRelease ac ext chrt installLabels post state rel empty)
    as [applied s3].
  simpl.
  now rewrite app_assoc.
Qed.

(** The calls that compute the state are calls to the Helm client. *)
Lemma getReleaseState_calls cl ext chrt post ev :
  In ev (calls (snd (getReleaseState cl ext chrt post empty))) ->
  isPreflightCall ev = false.
Proof.
  unfold getReleaseState, bind, call. simpl.
  destruct (ac_Get _ _) as [currentRelease|e].
  - simpl. destruct (ac_Upgrade _ _ _ _ _); simpl;
      intros [<-|[<-|[]]]; reflexivity.
  - destruct (negb _); simpl; intros [<-|[]]; reflexivity.
Qed.

Lemma applyRelease_calls ac ext chrt installLabels post state rel ev :
  In ev (calls (snd (applyRelease ac ext chrt installLabels post state rel
                                  empty))) ->
  isPreflightCall ev = false.
Proof.
  unfold applyRelease, bind, call. destruct state; simpl.
  - destruct (ac_Install _ _ _ _ _); simpl; intros [<-|[]]; reflexivity.
  - destruct (ac_Upgrade _ _ _ _ _); simpl; intros [<-|[]]; reflexivity.
  - destruct (ac_Reconcile _ _); simpl; intros [<-|[]]; reflexivity.
  - intros [].
Qed.

(** A call in the loop over the preflights is the install check in state
    [NeedsInstall], the upgrade check in state [NeedsUpgrade], of a
    configured preflight that is not skipped. *)
Lemma preflight_loop_calls ext state desiredRel preflights ev :
  In ev (calls (snd (forRangeReturn preflights
                       (runPreflight ext state desiredRel) empty))) ->
  exists preflight,
    In preflight preflights /\ skipped ext preflight = false /\
    ((state = stateNeedsInstall /\
      ev = PreflightInstallCall preflight desiredRel) \/
     (state = stateNeedsUpgrade /\
      ev = PreflightUpgradeCall preflight desiredRel)).
Proof.
  induction preflights as [|preflight rest IH]; [intros [] |].
  assert (Hhere : forall ev',
    In ev' (calls (snd (runPreflight ext state desiredRel preflight empty))) ->
    skipped ext preflight = false /\
    ((state = stateNeedsInstall /\
      ev' = PreflightInstallCall preflight desiredRel) \/
     (state = stateNeedsUpgrade /\
      ev' = PreflightUpgradeCall preflight desiredRel))).
  { intros ev'. unfold runPreflight.
    destruct (skipped ext preflight); [intros [] |].
    destruct state; unfold bind, call; simpl;
      try (intros [<-|[]]; auto); intros []. }
  destruct (fst (runPreflight ext state desiredRel preflight empty))
    as [e|] eqn:Eres.
  - rewrite (forRangeReturn_cons_Some preflight rest _ e Eres). simpl.
    intro Hin. exists preflight. split; [now left | now apply Hhere].
  - rewrite forRangeReturn_cons_None;
      [| apply appendOnly_runPreflight | exact Eres].
    simpl. intro Hin. apply in_app_or in Hin. destruct Hin as [Hin|Hin].
    + exists preflight. split; [now left | now apply Hhere].
    + destruct (IH Hin) as [p [Hp Hrest]]. exists p. split; [now right | exact Hrest].
Qed.

(** The state is [Error] exactly when [getReleaseState] returns an error. *)
Lemma getReleaseState_error cl ext chrt post rel desiredRel state err :
  fst (getReleaseState cl ext chrt post empty) = (rel, desiredRel, state, err) ->
  state <> stateError -> err = None.
Proof.
  unfold getReleaseState, bind, call. simpl.
  destruct (ac_Get _ _) as [currentRelease|e].
  - simpl. destruct (ac_Upgrade _ _ _ _ _); simpl; intros [= <- <- <- <-];
      congruence.
  - destruct (negb _); simpl; intros [= <- <- <- <-]; congruence.
Qed.

(** In state [Unchanged] the current release was read and a dry-run upgrade
    rendered the same manifest. *)
Lemma getReleaseState_unchanged cl ext chrt post rel desiredRel err :
  fst (getReleaseState cl ext chrt post empty)
    = (rel, desiredRel, stateUnchanged, err) ->
  exists currentRelease,
    rel = Some currentRelease /\
    calls (snd (getReleaseState cl ext chrt post empty)) =
      [ ActionGetCall (ext_Name ext);
        ActionUpgradeCall
          (mkUpgradeOptions maxHelmReleaseHistory true "server" [] post) ].
Proof.
  unfold getReleaseState, bind, call. simpl.
  destruct (ac_Get _ _) as [currentRelease|e].
  - simpl. destruct (ac_Upgrade _ _ _ _ _) as [desiredRelease|e]; simpl.
    + intros [= <- _ _ _]. eauto.
    + discriminate.
  - destruct (negb _); discriminate.
Qed.

(** In a state other than [NeedsInstall] and [NeedsUpgrade] the loop over
    the preflights does nothing. *)
Lemma preflight_loop_idle ext state desiredRel preflights :
  state <> stateNeedsInstall -> state <> stateNeedsUpgrade ->
  forRangeReturn preflights (runPreflight ext state desiredRel) empty
    = (None, empty).
Proof.
  intros Hi Hu. induction preflights as [|preflight rest IH]; [reflexivity |].
  assert (Hhere :
    runPreflight ext state desiredRel preflight empty = (None, empty)).
  { unfold runPreflight. destruct (skipped _ _); [reflexivity |].
    destruct state; try reflexivity; congruence. }
  rewrite forRangeReturn_cons_None;
    [| apply appendOnly_runPreflight | now rewrite Hhere].
  now rewrite IH, Hhere.
Qed.

(** Skipped preflights can as well be left out of the configuration. *)
Lemma preflight_loop_filter ext state desiredRel keep preflights :
  (forall preflight, keep preflight = false -> skipped ext preflight = true) ->
  forall s,
    forRangeReturn preflights (runPreflight ext state desiredRel) s =
    forRangeReturn (filter keep preflights)
                   (runPreflight ext state desiredRel) s.
Proof.
  intro Hkeep. induction preflights as [|preflight rest IH]; intro s.
  - reflexivity.
  - simpl. destruct (keep preflight) eqn:E.
    + simpl. unfold bind.
      destruct (runPreflight ext state desiredRel preflight s) as [[e|] s'];
        [reflexivity | apply IH].
    + unfold bind, runPreflight at 1. rewrite (Hkeep preflight E).
      simpl. apply IH.
Qed.

(** When no preflight fails, the calls of each one are in the log. *)
Lemma preflight_loop_passes ext state desiredRel preflights :
  (forall preflight,
      In preflight preflights ->
      fst (runPreflight ext state desiredRel preflight empty) = None) ->
  fst (forRangeReturn preflights (runPreflight ext state desiredRel) empty)
    = None /\
  forall preflight ev,
    In preflight preflights ->
    In ev (calls (snd (runPreflight ext state desiredRel preflight empty))) ->
    In ev (calls (snd (forRangeReturn preflights
                         (runPreflight ext state desiredRel) empty))).
Proof.
  induction preflights as [|preflight rest IH]; intro Hpass.
  - split; [reflexivity | intros ? ? []].
  - destruct IH as [IHfst IHin]; [intros q Hq; apply Hpass; now right |].
    rewrite forRangeReturn_cons_None;
      [| apply appendOnly_runPreflight | apply Hpass; now left].
    simpl. split; [exact IHfst |].
    intros q ev [<-|Hq] Hev; apply in_or_app; [now left | right; eauto].
Qed.

(** C10: a preflight's install check is called only in state
    [NeedsInstall] and its upgrade check only in state [NeedsUpgrade]; in
    state [Unchanged] the calls of [Apply] are the read of the current
    release and the dry-run upgrade, which compute the state, and then the
    reconciliation of the current release, with no preflight call at all. *)
Theorem C10_preflights_follow_the_release_state h contentFS ext bundle :
  let log := snd (Apply h contentFS ext bundle) in
  (forall preflight rel,
      In (PreflightInstallCall preflight rel) log ->
      computedState h contentFS ext bundle = Some stateNeedsInstall) /\
  (forall preflight rel,
      In (PreflightUpgradeCall preflight rel) log ->
      computedState h contentFS ext bundle = Some stateNeedsUpgrade) /\
  (computedState h contentFS ext bundle = Some stateUnchanged ->
   (forall ev, In ev log -> isPreflightCall ev = false) /\
   exists post currentRelease,
     log =
       [ ActionGetCall (ext_Name ext);
         ActionUpgradeCall
           (mkUpgradeOptions maxHelmReleaseHistory true "server" [] post);
         ActionReconcileCall (Some currentRelease) ]).
Proof.
  cbv zeta. unfold Apply, computedState.
  destruct (RegistryV1ToHelmChart _ _ _) as [chrt|e];
    [| simpl; repeat split; try discriminate; intros; contradiction].
  destruct (ActionClientFor h ext) as [ac|e];
    [| simpl; repeat split; try discriminate; intros; contradiction].
  destruct (bundle_Version bundle) as [bundleVersion|e];
    [| simpl; repeat split; try discriminate; intros; contradiction].
  set (post := postrendererFor ext bundle bundleVersion).
  set (installLabels := installLabelsFor bundle bundleVersion).
  pose proof (applyBody_calls h ac ext chrt installLabels post) as Hcalls.
  destruct (applyBody h ac ext chrt installLabels post empty) as [result s].
  simpl in Hcalls. simpl snd. rewrite Hcalls. clear Hcalls.
  destruct (fst (getReleaseState ac ext chrt post empty))
    as [[[rel desiredRel] state] err] eqn:Estate.
  assert (Hpre : forall ev,
    isPreflightCall ev = true ->
    In ev (calls (snd (getReleaseState ac ext chrt post empty)) ++
           match err with
           | Some _ => []
           | None =>
               calls (snd (forRangeReturn (Preflights h)
                             (runPreflight ext state desiredRel) empty)) ++
               match fst (forRangeReturn (Preflights h)
                            (runPreflight ext state desiredRel) empty) with
               | Some _ => []
               | None =>
                   calls (snd (applyRelease ac ext chrt installLabels post
                                            state rel empty))
               end
           end) ->
    exists preflight,
      (state = stateNeedsInstall /\
       ev = PreflightInstallCall preflight desiredRel) \/
      (state = stateNeedsUpgrade /\
       ev = PreflightUpgradeCall preflight desiredRel)).
  { intros ev Hev Hin. apply in_app_or in Hin. destruct Hin as [Hin|Hin].
    - apply getReleaseState_calls in Hin. congruence.
    - destruct err; [destruct Hin |].
      apply in_app_or in Hin. destruct Hin as [Hin|Hin].
      + apply preflight_loop_calls in Hin.
        destruct Hin as [preflight [_ [_ Hev']]]. eauto.
      + destruct (fst (forRangeReturn _ _ _)); [destruct Hin |].
        apply applyRelease_calls in Hin. congruence. }
  split; [| split].
  - intros preflight rel' Hin.
    destruct (Hpre (PreflightInstallCall preflight rel') eq_refl Hin)
      as [q [[-> _]|[_ Hev]]];
      [reflexivity | discriminate].
  - intros preflight rel' Hin.
    destruct (Hpre (PreflightUpgradeCall preflight rel') eq_refl Hin)
      as [q [[_ Hev]|[-> _]]];
      [discriminate | reflexivity].
  - intros [= ->].
    destruct (getReleaseState_unchanged ac ext chrt post _ _ _ Estate)
      as [currentRelease [-> Hlog]].
    rewrite (getReleaseState_error ac ext chrt post _ _ _ _ Estate)
      by discriminate.
    rewrite preflight_loop_idle by discriminate.
    rewrite Hlog. unfold applyRelease, bind, call. simpl.
    assert (Hreconcile :
      calls (snd (match ac_Reconcile ac (Some currentRelease) with
                  | Some err0 => ret (inr err0)
                  | None => ret (inl (Some currentRelease))
                  end
                    (mkStore (Ev := Event) []
                       [ActionReconcileCall (Some currentRelease)]))) =
        [ActionReconcileCall (Some currentRelease)])
      by (destruct (ac_Reconcile _ _); reflexivity).
    rewrite Hreconcile. split.
    + intros ev [<-|[<-|[<-|[]]]]; reflexivity.
    + now exists post, currentRelease.
Qed.

(** The calls of [Apply] once the chart, the client and the version of the
    bundle are there. *)
Lemma Apply_calls h contentFS ext bundle chrt ac bundleVersion :
  RegistryV1ToHelmChart contentFS (ext_InstallNamespace ext) [""] = inl chrt ->
  ActionClientFor h ext = inl ac ->
  bundle_Version bundle = inl bundleVersion ->
  snd (Apply h contentFS ext bundle) =
    calls (snd (applyBody h ac ext chrt
                  (installLabelsFor bundle bundleVersion)
                  (postrendererFor ext bundle bundleVersion) empty)).
Proof.
  intros Hchart Hclient Hversion. unfold Apply.
  rewrite Hchart, Hclient, Hversion.
  now destruct (applyBody _ _ _ _ _ _ empty).
Qed.

Lemma Apply_calls_nil h contentFS ext bundle :
  computedState h contentFS ext bundle = None ->
  snd (Apply h contentFS ext bundle) = [].
Proof.
  unfold computedState, Apply.
  destruct (RegistryV1ToHelmChart _ _ _); [| reflexivity].
  destruct (ActionClientFor h ext); [| reflexivity].
  destruct (bundle_Version bundle); [| reflexivity].
  destruct (fst (getReleaseState _ _ _ _ _)) as [[[? ?] ?] ?]. discriminate.
Qed.

(** With the upgrade-safety check disabled, a preflight of that type is
    skipped. *)
Lemma skipped_when_disabled ext cfg safety preflight :
  ext_Preflight ext = Some cfg ->
  CRDUpgradeSafety cfg = Some safety ->
  Disabled safety = true ->
  skipped ext preflight = isCRDUpgradeSafety preflight.
Proof.
  intros Hcfg Hsafety Hdisabled. unfold skipped.
  rewrite Hcfg, Hsafety, Hdisabled. apply andb_true_r.
Qed.

(** C6: when the configuration of the extension disables the upgrade-safety
    preflight, [Apply] calls neither the install check nor the upgrade check
    of a preflight of that type; it runs exactly as an applier configured
    without those preflights does, and when the other preflights pass each of
    them has its check called in the states [NeedsInstall] and
    [NeedsUpgrade]. *)
Theorem C6_disabled_upgrade_safety_is_never_called
        h contentFS ext bundle cfg safety :
  ext_Preflight ext = Some cfg ->
  CRDUpgradeSafety cfg = Some safety ->
  Disabled safety = true ->
  let log := snd (Apply h contentFS ext bundle) in
  (forall p rel,
      ~ In (PreflightInstallCall (CRDUpgradeSafetyPreflight p) rel) log /\
      ~ In (PreflightUpgradeCall (CRDUpgradeSafetyPreflight p) rel) log) /\
  Apply h contentFS ext bundle =
    Apply (withoutCRDUpgradeSafety h) contentFS ext bundle /\
  ((forall preflight rel,
       In preflight (Preflights h) ->
       isCRDUpgradeSafety preflight = false ->
       preflight_Install preflight rel = None /\
       preflight_Upgrade preflight rel = None) ->
   forall preflight,
     In preflight (Preflights h) ->
     isCRDUpgradeSafety preflight = false ->
     (computedState h contentFS ext bundle = Some stateNeedsInstall ->
      exists rel, In (PreflightInstallCall preflight rel) log) /\
     (computedState h contentFS ext bundle = Some stateNeedsUpgrade ->
      exists rel, In (PreflightUpgradeCall preflight rel) log)).
Proof.
  intros Hcfg Hsafety Hdisabled. cbv zeta.
  pose proof (skipped_when_disabled ext cfg safety) as Hskip.
  specialize (fun q => Hskip q Hcfg Hsafety Hdisabled).
  destruct (computedState h contentFS ext bundle) as [state|] eqn:Ecomputed.
  2:{ split; [| split].
      - intros p rel. rewrite (Apply_calls_nil h contentFS ext bundle Ecomputed).
        split; intros [].
      - revert Ecomputed. unfold computedState, Apply. simpl.
        destruct (RegistryV1ToHelmChart _ _ _); [| reflexivity].
        destruct (ActionClientFor h ext); [| reflexivity].
        destruct (bundle_Version bundle); [| reflexivity].
        destruct (fst (getReleaseState _ _ _ _ _)) as [[[? ?] ?] ?].
        discriminate.
      - intros _ preflight _ _. split; discriminate. }
  revert Ecomputed. unfold computedState.
  destruct (RegistryV1ToHelmChart _ _ _) as [chrt|] eqn:Hchart; [| discriminate].
  destruct (ActionClientFor h ext) as [ac|] eqn:Hclient; [| discriminate].
  destruct (bundle_Version bundle) as [bundleVersion|] eqn:Hversion;
    [| discriminate].
  set (post := postrendererFor ext bundle bundleVersion).
  set (installLabels := installLabelsFor bundle bundleVersion).
  destruct (fst (getReleaseState ac ext chrt post empty))
    as [[[rel desiredRel] state'] err] eqn:Estate.
  intros [= ->].
  rewrite (Apply_calls h contentFS ext bundle chrt ac bundleVersion
             Hchart Hclient Hversion).
  fold post installLabels. rewrite applyBody_calls, Estate.
  set (loop := forRangeReturn (Preflights h)
                 (runPreflight ext state desiredRel) empty).
  split; [| split].
  - intros p rel0.
    assert (Hnot : forall ev,
      isPreflightCall ev = true ->
      In ev (calls (snd (getReleaseState ac ext chrt post empty)) ++
             match err with
             | Some _ => []
             | None =>
                 calls (snd loop) ++
                 match fst loop with
                 | Some _ => []
                 | None =>
                     calls (snd (applyRelease ac ext chrt installLabels post
                                              state rel empty))
                 end
             end) ->
      In ev (calls (snd loop))).
    { intros ev Hev Hin. apply in_app_or in Hin. destruct Hin as [Hin|Hin].
      - apply getReleaseState_calls in Hin. congruence.
      - destruct err; [destruct Hin |].
        apply in_app_or in Hin. destruct Hin as [Hin|Hin]; [exact Hin |].
        destruct (fst loop); [destruct Hin |].
        apply applyRelease_calls in Hin. congruence. }
    split; intro Hin.
    + pose proof (Hnot (PreflightInstallCall (CRDUpgradeSafetyPreflight p) rel0)
                       eq_refl Hin) as Hloop.
      apply preflight_loop_calls in Hloop.
      destruct Hloop as [q [_ [Hq [[_ Heq]|[_ Heq]]]]]; [| discriminate].
      injection Heq as <- _. rewrite Hskip in Hq. discriminate.
    + pose proof (Hnot (PreflightUpgradeCall (CRDUpgradeSafetyPreflight p) rel0)
                       eq_refl Hin) as Hloop.
      apply preflight_loop_calls in Hloop.
      destruct Hloop as [q [_ [Hq [[_ Heq]|[_ Heq]]]]]; [discriminate |].
      injection Heq as <- _. rewrite Hskip in Hq. discriminate.
  - unfold Apply. simpl ActionClientFor. rewrite Hchart, Hclient, Hversion.
    fold post installLabels.
    assert (Hsame :
      applyBody h ac ext chrt installLabels post empty =
      applyBody (withoutCRDUpgradeSafety h) ac ext chrt installLabels post
                empty).
    { unfold applyBody, bind.
      destruct (getReleaseState ac ext chrt post empty)
        as [[[[rel1 desired1] state1] err1] s1].
      destruct err1; [reflexivity |].
      simpl Preflights.
      rewrite (preflight_loop_filter ext state1 desired1
                 (fun q => negb (isCRDUpgradeSafety q)) (Preflights h)).
      - reflexivity.
      - intros q Hq. rewrite Hskip. now apply negb_false_iff. }
    now rewrite Hsame.
  - intros Hpass preflight Hin Hother.
    assert (Hloop :
      state = stateNeedsInstall \/ state = stateNeedsUpgrade ->
      forall q ev,
        In q (Preflights h) ->
        In ev (calls (snd (runPreflight ext state desiredRel q empty))) ->
        In ev (calls (snd loop))).
    { intros Hstate.
      apply (preflight_loop_passes ext state desiredRel (Preflights h)).
      intros q Hq. unfold runPreflight.
      destruct (skipped ext q) eqn:Eskip; [reflexivity |].
      rewrite Hskip in Eskip.
      destruct (Hpass q desiredRel Hq Eskip) as [Hi Hu].
      destruct Hstate as [-> | ->]; unfold bind, call; simpl; assumption. }
    assert (Herr : state <> stateError -> err = None)
      by (apply (getReleaseState_error ac ext chrt post _ _ _ _ Estate)).
    assert (Hrun : forall q,
      skipped ext q = false ->
      (state = stateNeedsInstall ->
       In (PreflightInstallCall q desiredRel)
          (calls (snd (runPreflight ext state desiredRel q empty)))) /\
      (state = stateNeedsUpgrade ->
       In (PreflightUpgradeCall q desiredRel)
          (calls (snd (runPreflight ext state desiredRel q empty))))).
    { intros q Hq. unfold runPreflight. rewrite Hq.
      split; intros ->; unfold bind, call; simpl; now left. }
    assert (Hq : skipped ext preflight = false) by now rewrite Hskip.
    split; intros [= ->]; exists desiredRel;
      rewrite Herr by discriminate;
      apply in_or_app; right; apply in_or_app; left.
    + apply (Hloop (or_introl eq_refl) preflight); [exact Hin |].
      now apply (Hrun preflight Hq).
    + apply (Hloop (or_intror eq_refl) preflight); [exact Hin |].
      now apply (Hrun preflight Hq).
Qed.

End Facts.

Import fake.

(** An upgrade is needed and the upgrade-safety check is disabled: the
    state is computed, the other preflight is asked, the release is
    upgraded. *)
Example Apply_disabled_calls :
  computedState helm tt extension bundle = Some stateNeedsUpgrade /\
  map isPreflightCall (snd (Apply helm tt extension bundle)) =
    [false; false; true; false] /\
  exists rel, nth 2 (snd (Apply helm tt extension bundle))
                    (ActionGetCall "") = PreflightUpgradeCall passing rel.
Proof. repeat split. eexists. reflexivity. Qed.

(** Nothing changed: the release is reconciled and no preflight is asked. *)
Example Apply_unchanged_calls :
  computedState steadyHelm tt extension bundle = Some stateUnchanged /\
  map isPreflightCall (snd (Apply steadyHelm tt extension bundle)) =
    [false; false; false] /\
  nth 2 (snd (Apply steadyHelm tt extension bundle)) (ActionGetCall "") =
    ActionReconcileCall (Some currentRelease).
Proof. repeat split. Qed.

(** C6 on an applier with the upgrade-safety preflight and one other
    preflight, for an extension that disables the former while an upgrade is
    needed: the applier runs as one without the upgrade-safety preflight,
    and the other preflight has its upgrade check called. *)
Lemma C6_disabled_upgrade_safety_is_never_called_witness :
  Apply helm tt extension bundle =
    Apply (withoutCRDUpgradeSafety helm) tt extension bundle /\
  exists rel, In (PreflightUpgradeCall passing rel)
                 (snd (Apply helm tt extension bundle)).
Proof.
  destruct (C6_disabled_upgrade_safety_is_never_called
              helm tt extension bundle disabledConfig
              (mkCRDUpgradeSafetyConfig true) eq_refl eq_refl eq_refl)
    as [_ [Hsame Hothers]].
  split; [exact Hsame |].
  apply (Hothers).
  - intros q rel [<-|[<-|[]]] Hq; [discriminate Hq | split; reflexivity].
  - simpl. auto.
  - reflexivity.
  - reflexivity.
Defined.

End applier_facts.

(** ** The resolver *)

Module resolution_facts.

Import errors sort resolution.

Section Sorting.
Context {A : Type} (less : A -> A -> bool).

Lemma In_insert (x y : A) (l : list A) :
  In y (insert less x l) <-> y = x \/ In y l.
Proof.
  induction l as [|z rest IH]; simpl.
  - intuition congruence.
  - destruct (less z x); simpl; rewrite ?IH; intuition congruence.
Qed.

Lemma In_SliceStable (y : A) (l : list A) :
  In y (SliceStable less l) <-> In y l.
Proof.
  unfold SliceStable. induction l as [|x rest IH]; simpl.
  - tauto.
  - rewrite In_insert, IH. intuition congruence.
Qed.

Lemma length_insert (x : A) (l : list A) :
  List.length (insert less x l) = S (List.length l).
Proof.
  induction l as [|z rest IH]; simpl; [reflexivity |].
  destruct (less z x); simpl; now rewrite ?IH.
Qed.

Lemma length_SliceStable (l : list A) :
  List.length (SliceStable less l) = List.length l.
Proof.
  unfold SliceStable. induction l as [|x rest IH]; simpl; [reflexivity |].
  now rewrite length_insert, IH.
Qed.

End Sorting.

Section Facts.
Context `{Catalog}.

(** Inserting into a slice that has its bundles that are not deprecated
    first: a bundle that is not deprecated goes to the front, a deprecated
    one goes ahead of the deprecated ones. *)
Lemma insert_ByDeprecated (b : Bundle) (fresh old : list Bundle) :
  Forall (fun c => IsDeprecated c = false) fresh ->
  Forall (fun c => IsDeprecated c = true) old ->
  insert ByDeprecated b (fresh ++ old) =
    if IsDeprecated b then fresh ++ b :: old else b :: fresh ++ old.
Proof.
  intros Hfresh Hold. unfold ByDeprecated.
  destruct (IsDeprecated b) eqn:Eb.
  - induction Hfresh as [|c rest Hc _ IH]; simpl.
    + destruct old as [|c rest]; [reflexivity |].
      inversion Hold as [|? ? Hc _]; subst. simpl. now rewrite Hc.
    + rewrite Hc, Eb. simpl. now rewrite IH.
  - destruct (fresh ++ old) as [|c rest]; [reflexivity |].
    simpl. now rewrite Eb, andb_false_r.
Qed.

Lemma Forall_filter_true (p : Bundle -> bool) (l : list Bundle) :
  Forall (fun c => p c = true) (filter p l).
Proof. apply Forall_forall. intros c Hc. now apply filter_In in Hc. Qed.

Lemma Forall_filter_false (p : Bundle -> bool) (l : list Bundle) :
  Forall (fun c => p c = false) (filter (fun c => negb (p c)) l).
Proof.
  apply Forall_forall. intros c Hc. apply filter_In in Hc.
  now apply negb_true_iff.
Qed.

(** The stable sort by deprecation moves the bundles that are not
    deprecated to the front and keeps the order within both groups. *)
Lemma SliceStable_ByDeprecated (l : list Bundle) :
  SliceStable ByDeprecated l =
    filter (fun c => negb (IsDeprecated c)) l ++ filter IsDeprecated l.
Proof.
  unfold SliceStable. induction l as [|b rest IH]; [reflexivity |].
  simpl fold_right. rewrite IH.
  rewrite insert_ByDeprecated
    by (apply Forall_filter_false || apply Forall_filter_true).
  simpl. destruct (IsDeprecated b); reflexivity.
Qed.

Lemma sortResultSet_split (resultSet : list Bundle) :
  sortResultSet resultSet =
    filter (fun c => negb (IsDeprecated c)) (SliceStable ByVersion resultSet)
    ++ filter IsDeprecated (SliceStable ByVersion resultSet).
Proof. apply SliceStable_ByDeprecated. Qed.

Lemma In_sortResultSet (c : Bundle) (resultSet : list Bundle) :
  In c (sortResultSet resultSet) <-> In c resultSet.
Proof.
  unfold sortResultSet. now rewrite !In_SliceStable.
Qed.

(** The first bundle after the sorts is deprecated only if all are. *)
Lemma head_deprecated (resultSet : list Bundle) (first : Bundle) rest :
  sortResultSet resultSet = first :: rest ->
  IsDeprecated first = true ->
  forall c, In c resultSet -> IsDeprecated c = true.
Proof.
  rewrite sortResultSet_split. intros Hsorted Hfirst c Hc.
  destruct (filter (fun c => negb (IsDeprecated c))
                   (SliceStable ByVersion resultSet)) as [|d fresh] eqn:Efresh.
  - destruct (IsDeprecated c) eqn:Ec; [reflexivity | exfalso].
    assert (Hin : In c (filter (fun c => negb (IsDeprecated c))
                               (SliceStable ByVersion resultSet))).
    { apply filter_In. split; [now apply In_SliceStable | now rewrite Ec]. }
    rewrite Efresh in Hin. destruct Hin.
  - exfalso. injection Hsorted as -> _.
    assert (Hin : In first (filter (fun c => negb (IsDeprecated c))
                                   (SliceStable ByVersion resultSet)))
      by (rewrite Efresh; now left).
    apply filter_In in Hin. destruct Hin as [_ Hnot].
    rewrite Hfirst in Hnot. discriminate.
Qed.

Lemma validateResolved_inl validations (b c : Bundle) :
  validateResolved validations b = inl c ->
  c = b /\ forall validation, In validation validations -> validation b = None.
Proof.
  induction validations as [|v rest IH]; simpl.
  - intros [= <-]. split; [reflexivity | intros ? []].
  - destruct (v b) eqn:Ev; [discriminate |].
    intro Hrest. destruct (IH Hrest) as [-> Hall].
    split; [reflexivity |]. intros w [<-|Hw]; auto.
Qed.

Lemma validateResolved_passes validations (b : Bundle) :
  (forall validation, In validation validations -> validation b = None) ->
  validateResolved validations b = inl b.
Proof.
  induction validations as [|v rest IH]; intro Hall; simpl.
  - reflexivity.
  - rewrite (Hall v) by now left. apply IH. intros w Hw. apply Hall. now right.
Qed.

(** What the collected predicates ask of a bundle. *)
Lemma resolvePredicates_spec ext installedBundle predicates :
  resolvePredicates ext installedBundle = inl predicates ->
  forall c,
    And predicates c = true <->
    WithPackageName (PackageName ext) c = true /\
    (Channel ext <> "" -> InChannel (Channel ext) c = true) /\
    (Version ext <> "" ->
     exists vr, NewConstraint (Version ext) = inl vr /\
                InMastermindsSemverRange vr c = true) /\
    (forall installed,
        installedBundle = Some installed ->
        UpgradeConstraintPolicy ext <> UpgradeConstraintPolicyIgnore ->
        exists successor,
          SuccessorsPredicate (PackageName ext) installed = inl successor /\
          successor c = true).
Proof.
  unfold resolvePredicates, And.
  destruct (String.eqb (Channel ext) "") eqn:Echannel;
    [apply String.eqb_eq in Echannel | apply String.eqb_neq in Echannel];
  (destruct (String.eqb (Version ext) "") eqn:Eversion;
    [apply String.eqb_eq in Eversion | apply String.eqb_neq in Eversion]);
  simpl;
  try (destruct (NewConstraint (Version ext)) as [vr|e] eqn:Econstraint;
       [| discriminate]);
  (destruct installedBundle as [installed|];
   [ destruct (String.eqb (UpgradeConstraintPolicy ext)
                          UpgradeConstraintPolicyIgnore) eqn:Epolicy;
     [apply String.eqb_eq in Epolicy | apply String.eqb_neq in Epolicy];
     simpl;
     try (destruct (SuccessorsPredicate (PackageName ext) installed)
            as [successor|e] eqn:Esuccessor; [| discriminate])
   | ]);
  intros [= <-] c; simpl; rewrite ?andb_true_r, ?andb_true_iff;
  (split;
   [ intro Hall; repeat split; try tauto; try congruence;
     try (intros _; eexists; split; [reflexivity | tauto]);
     try (intros ? [= <-] _; eexists; split; [eassumption | tauto]);
     try (intros ? [= <-] ?; congruence);
     intros ? [=]
   | intros [Hpackage [Hchannel [Hrange Hsuccessor]]];
     repeat split; auto;
     try (destruct (Hrange Eversion) as [vr' [Hvr Hin]]; congruence);
     try (destruct (Hsuccessor installed eq_refl Epolicy)
            as [successor' [Hs Hin]]; congruence) ]).
Qed.

(** C8: the result set holds the bundles of the package, of the channel
    when a channel is given, within the version range when a range is given
    and, for an installed bundle under an upgrade policy other than Ignore,
    among the successors of that bundle; it is sorted by version and then
    stably by deprecation, which puts the bundles that are not deprecated
    first in their version order; the bundle [Resolve] returns is the first
    one after the sorts, it passed the validations, and it is deprecated
    only when every bundle of the result set is; [Resolve] does return that
    first bundle when it passes the validations; and when nothing is
    installed or the policy is Ignore, a deprecated bundle is returned only
    when no bundle that matches package, channel and range is not
    deprecated. *)
Theorem C8_resolution_filters_then_prefers_not_deprecated
        r ext allBundles installedBundle predicates :
  Bundles r (PackageName ext) = inl allBundles ->
  GetInstalledBundle r ext = inl installedBundle ->
  resolvePredicates ext installedBundle = inl predicates ->
  let resultSet := Filter allBundles (And predicates) in
  let byVersion := SliceStable ByVersion resultSet in
  (forall c,
      In c resultSet <->
      In c allBundles /\
      WithPackageName (PackageName ext) c = true /\
      (Channel ext <> "" -> InChannel (Channel ext) c = true) /\
      (Version ext <> "" ->
       exists vr, NewConstraint (Version ext) = inl vr /\
                  InMastermindsSemverRange vr c = true) /\
      (forall installed,
          installedBundle = Some installed ->
          UpgradeConstraintPolicy ext <> UpgradeConstraintPolicyIgnore ->
          exists successor,
            SuccessorsPredicate (PackageName ext) installed = inl successor /\
            successor c = true)) /\
  sortResultSet resultSet =
    filter (fun c => negb (IsDeprecated c)) byVersion ++
    filter IsDeprecated byVersion /\
  (forall b,
      Resolve r (Some ext) = inl b ->
      (exists rest, sortResultSet resultSet = b :: rest) /\
      In b resultSet /\
      (IsDeprecated b = true ->
       forall c, In c resultSet -> IsDeprecated c = true) /\
      (forall validation, In validation (Validations r) -> validation b = None)) /\
  (forall first rest,
      sortResultSet resultSet = first :: rest ->
      (forall installed,
          installedBundle = Some installed ->
          exists v, NewVersion (meta_Version installed) = inl v) ->
      (forall validation,
          In validation (Validations r) -> validation first = None) ->
      Resolve r (Some ext) = inl first) /\
  (installedBundle = None \/
   UpgradeConstraintPolicy ext = UpgradeConstraintPolicyIgnore ->
   deprecatedOnlyAsLastResort r ext).
Proof.
  intros Hbundles Hinstalled Hpredicates. cbv zeta.
  set (resultSet := Filter allBundles (And predicates)).
  assert (Hset : forall c,
    In c resultSet <->
    In c allBundles /\
    WithPackageName (PackageName ext) c = true /\
    (Channel ext <> "" -> InChannel (Channel ext) c = true) /\
    (Version ext <> "" ->
     exists vr, NewConstraint (Version ext) = inl vr /\
                InMastermindsSemverRange vr c = true) /\
    (forall installed,
        installedBundle = Some installed ->
        UpgradeConstraintPolicy ext <> UpgradeConstraintPolicyIgnore ->
        exists successor,
          SuccessorsPredicate (PackageName ext) installed = inl successor /\
          successor c = true)).
  { intro c. unfold resultSet, Filter. rewrite filter_In.
    rewrite (resolvePredicates_spec ext installedBundle predicates Hpredicates).
    tauto. }
  assert (Hresolved : forall b,
    Resolve r (Some ext) = inl b ->
    (exists rest, sortResultSet resultSet = b :: rest) /\
    In b resultSet /\
    (IsDeprecated b = true ->
     forall c, In c resultSet -> IsDeprecated c = true) /\
    (forall validation, In validation (Validations r) -> validation b = None)).
  { intros b. unfold Resolve.
    rewrite Hbundles, Hinstalled, Hpredicates. fold resultSet.
    destruct (match installedBundle with
              | Some installed =>
                  match NewVersion (meta_Version installed) with
                  | inl installedBundleVersion =>
                      inl (Sprintf
                             "error upgrading from currently installed version %q: "
                             [SemVer_String installedBundleVersion])
                  | inr err => inr err
                  end
              | None => inl ""
              end) as [upgradeErrorPrefix|e]; [| discriminate].
    destruct resultSet as [|candidate others] eqn:Eset; [discriminate |].
    destruct (sortResultSet (candidate :: others)) as [|first rest] eqn:Esorted.
    + exfalso.
      assert (Hlen : List.length (sortResultSet (candidate :: others)) =
                     List.length (candidate :: others))
        by (unfold sortResultSet; now rewrite !length_SliceStable).
      rewrite Esorted in Hlen. discriminate.
    + simpl hd. intro Hvalidated.
      apply validateResolved_inl in Hvalidated.
      destruct Hvalidated as [-> Hpassed].
      split; [now exists rest | split; [| split]].
      * apply (In_sortResultSet first (candidate :: others)).
        rewrite Esorted. now left.
      * intro Hdeprecated.
        exact (head_deprecated (candidate :: others) first rest Esorted
                               Hdeprecated).
      * exact Hpassed. }
  split; [exact Hset |]. split; [apply sortResultSet_split |].
  split; [exact Hresolved |]. split.
  - intros first rest Hsorted Hparses Hpassed. unfold Resolve.
    rewrite Hbundles, Hinstalled, Hpredicates. fold resultSet.
    assert (Hprefix : exists upgradeErrorPrefix,
      match installedBundle with
      | Some installed =>
          match NewVersion (meta_Version installed) with
          | inl installedBundleVersion =>
              inl (Sprintf
                     "error upgrading from currently installed version %q: "
                     [SemVer_String installedBundleVersion])
          | inr err => inr err
          end
      | None => inl ""
      end = inl (B := error) upgradeErrorPrefix).
    { destruct installedBundle as [installed|]; [| eauto].
      destruct (Hparses installed eq_refl) as [v ->]. eauto. }
    destruct Hprefix as [upgradeErrorPrefix ->].
    destruct resultSet as [|candidate others] eqn:Eset.
    + discriminate Hsorted.
    + rewrite Hsorted. simpl hd. now apply validateResolved_passes.
  - intros Hfree allBundles' b c Hbundles' Hb Hdeprecated Hc
           [Hpackage [Hchannel Hrange]].
    rewrite Hbundles in Hbundles'. injection Hbundles' as <-.
    destruct (Hresolved b Hb) as [_ [_ [Hlast _]]].
    apply (Hlast Hdeprecated). apply Hset.
    repeat split; try assumption.
    intros installed Hsome Hpolicy.
    destruct Hfree as [Hnone|Hignore]; congruence.
Qed.

End Facts.

Import fake.

(** The result set of the [widgets] package in the [stable] channel after
    the two sorts: by falling version, then the deprecated one last. *)
Example sortResultSet_widgets :
  sortResultSet
    (Filter [widgets1; gadgets1; widgets2; widgets3]
            (And [WithPackageName "widgets"; InChannel "stable"])) =
    [widgets2; widgets1; widgets3].
Proof. reflexivity. Qed.

(** C8 on a catalog with [widgets] 1, 2 and 3 in the channel, 3 being
    deprecated, and a cluster that has version 2 installed: version 3 is its
    only successor, and is resolved. *)
Lemma C8_resolution_filters_then_prefers_not_deprecated_witness :
  @Resolve fake_more.successorCatalog fake_more.successorResolver
           (Some wanted) = inl widgets3.
Proof.
  refine (proj1 (proj2 (proj2 (proj2
            (@C8_resolution_filters_then_prefers_not_deprecated
               fake_more.successorCatalog
               fake_more.successorResolver wanted
               [widgets1; gadgets1; widgets2; widgets3]
               (Some (mkBundleMetadata "widgets.v2" "2.0.0"))
               [ @WithPackageName fake_more.successorCatalog "widgets";
                 @InChannel fake_more.successorCatalog "stable";
                 fun b => Nat.ltb 2 (cb_Version b) ]
               eq_refl eq_refl eq_refl))))
            widgets3 [] eq_refl _ _).
  - intros installed _. now exists 2.
  - intros validation [<-|[]]. reflexivity.
Defined.

(** C8 as stated fails on that cluster: [Resolve] returns version 3, which
    is deprecated, although version 2 matches the package and the channel
    and is not deprecated; it is no successor of the installed bundle. *)
Lemma C8_deprecated_successor_is_resolved :
  @Resolve fake_more.successorCatalog fake_more.successorResolver
           (Some wanted) = inl widgets3 /\
  cb_Deprecated widgets3 = true /\
  @matches fake_more.successorCatalog wanted widgets2 /\
  cb_Deprecated widgets2 = false /\
  ~ @deprecatedOnlyAsLastResort fake_more.successorCatalog
      fake_more.successorResolver wanted.
Proof.
  assert (Hmatches : @matches fake_more.successorCatalog wanted widgets2).
  { split; [reflexivity | split; [reflexivity |]].
    intro Hrange. now destruct Hrange. }
  repeat split; try exact (proj1 Hmatches); try exact (proj1 (proj2 Hmatches));
    try exact (proj2 (proj2 Hmatches)).
  intro Hlast.
  specialize (Hlast [widgets1; gadgets1; widgets2; widgets3] widgets3 widgets2
                    eq_refl eq_refl eq_refl
                    (or_intror (or_intror (or_introl eq_refl))) Hmatches).
  discriminate Hlast.
Qed.

End resolution_facts.

(** ** More on the preflight and its cross-version validator *)

Module crdupgradesafety_more.

Import errors stmt kappcus crdupgradesafety errors_facts stmt_facts
       crdupgradesafety_facts.

Section Facts.
Context `{Library} `{!Runtime}.

(** An object that is passed over or fetched lets the loop go on, and leaves
    its failures and its calls. *)
Lemma upgradeObject_completes p obj :
  (isDefinition obj = true -> fetched p obj <> None) ->
  upgradeObject p obj empty =
    (None, mkStore (objectFailures p obj) (objectCalls p obj)).
Proof.
  intro Hfetched. unfold objectFailures, objectCalls.
  destruct (isDefinition obj) eqn:Edef.
  - destruct (fetched p obj) as [[oldCrd newCrd]|] eqn:E.
    + now apply upgradeObject_fetched.
    + now destruct Hfetched.
  - rewrite upgradeObject_other by exact Edef.
    unfold fetched. now rewrite Edef.
Qed.

(** The loop over objects that complete, followed by other objects. *)
Lemma upgrade_loop_prefix p before rest :
  (forall obj, In obj before -> isDefinition obj = true ->
               fetched p obj <> None) ->
  forRangeReturn (before ++ rest) (upgradeObject p) empty =
    (fst (forRangeReturn rest (upgradeObject p) empty),
     extend (mkStore (flat_map (objectFailures p) before)
                     (flat_map (objectCalls p) before))
            (snd (forRangeReturn rest (upgradeObject p) empty))).
Proof.
  induction before as [|obj others IH]; intro Hall.
  - simpl. now destruct (forRangeReturn rest _ empty) as [r [es cs]].
  - change ((obj :: others) ++ rest) with (obj :: (others ++ rest)).
    assert (Hobj := upgradeObject_completes p obj
                      (Hall obj (or_introl eq_refl))).
    rewrite forRangeReturn_cons_None;
      [| apply appendOnly_upgradeObject | now rewrite Hobj].
    rewrite IH by (intros o Ho; apply Hall; now right).
    rewrite Hobj. simpl. unfold extend. simpl.
    now rewrite !app_assoc.
Qed.

Lemma upgrade_loop_all p objs :
  (forall obj, In obj objs -> isDefinition obj = true ->
               fetched p obj <> None) ->
  forRangeReturn objs (upgradeObject p) empty =
    (None, mkStore (flat_map (objectFailures p) objs)
                   (flat_map (objectCalls p) objs)).
Proof.
  intro Hall. rewrite <- (app_nil_r objs) at 1.
  rewrite upgrade_loop_prefix by exact Hall.
  simpl. unfold extend. simpl. now rewrite !app_nil_r.
Qed.

(** X1: a release whose manifest does not parse makes [Upgrade] return the
    parsing error without any call, and a release whose manifest holds no
    definition makes it return nil without any call. *)
Theorem Upgrade_without_definitions_calls_nothing p rel :
  (forall e,
      ManifestObjects (release.Manifest rel)
                      (release.Name rel ++ "-release-manifest") = inr e ->
      Upgrade p (Some rel) =
        (Some (Errorf "parsing release %q objects: %w"
                      [release.Name rel] (Some e)), [])) /\
  (forall relObjects,
      ManifestObjects (release.Manifest rel)
                      (release.Name rel ++ "-release-manifest")
        = inl relObjects ->
      (forall obj, In obj relObjects -> isDefinition obj = false) ->
      Upgrade p (Some rel) = (None, [])).
Proof.
  split.
  - intros e Hmanifest. unfold Upgrade. now rewrite Hmanifest.
  - intros relObjects Hmanifest Hnone. unfold Upgrade. rewrite Hmanifest.
    rewrite upgrade_loop_all
      by (intros obj Hin Hdef; rewrite (Hnone obj Hin) in Hdef; discriminate).
    assert (Hfailures : flat_map (objectFailures p) relObjects = []).
    { apply flat_map_all_nil. intros obj Hin. unfold objectFailures, fetched.
      now rewrite (Hnone obj Hin). }
    assert (Hcalls : flat_map (objectCalls p) relObjects = []).
    { apply flat_map_all_nil. intros obj Hin. unfold objectCalls, fetched.
      now rewrite (Hnone obj Hin). }
    simpl. now rewrite Hfailures, Hcalls.
Qed.

(** X2: when every definition of the release converts and is fetched, the
    calls of [Upgrade] are, for each definition in release order, one fetch
    by the name of the proposed definition, the validator on the active and
    the proposed definition, and the cross-version validator on the proposed
    definition; other objects cause no call. *)
Theorem Upgrade_calls_follow_the_release p rel relObjects :
  ManifestObjects (release.Manifest rel)
                  (release.Name rel ++ "-release-manifest") = inl relObjects ->
  (forall obj, In obj relObjects -> isDefinition obj = true ->
               fetched p obj <> None) ->
  snd (Upgrade p (Some rel)) =
    flat_map
      (fun obj =>
         match fetched p obj with
         | Some (oldCrd, newCrd) =>
             [ GetCall (crd_Name newCrd);
               ValidatorValidateCall oldCrd newCrd;
               CrossVersionValidateCall newCrd ]
         | None => []
         end)
      relObjects.
Proof.
  intros Hmanifest Hall. unfold Upgrade. rewrite Hmanifest.
  now rewrite (upgrade_loop_all p relObjects Hall).
Qed.

(** X3: a definition of the release that does not convert makes [Upgrade]
    return the error of the conversion alone: the failures collected from
    the definitions before it are dropped, its active definition is not
    fetched and no later object is looked at. *)
Theorem Upgrade_failed_conversion_is_fatal p rel before obj after e :
  ManifestObjects (release.Manifest rel)
                  (release.Name rel ++ "-release-manifest")
    = inl (before ++ obj :: after) ->
  (forall o, In o before -> isDefinition o = true -> fetched p o <> None) ->
  isDefinition obj = true ->
  (ToUnstructured obj = inr e ->
   Upgrade p (Some rel) =
     (Some (Errorf "converting object %q to unstructured: %w"
                   [GetName obj] (Some e)),
      flat_map (objectCalls p) before)) /\
  (forall uMap,
      ToUnstructured obj = inl uMap ->
      FromUnstructured uMap = inr e ->
      Upgrade p (Some rel) =
        (Some (Errorf "converting unstructured to CRD object: %w" []
                      (Some e)),
         flat_map (objectCalls p) before)).
Proof.
  intros Hmanifest Hbefore Hdef.
  assert (Hrun : forall err,
    upgradeObject p obj empty = (Some (Some err), empty) ->
    Upgrade p (Some rel) = (Some err, flat_map (objectCalls p) before)).
  { intros err Hobj. unfold Upgrade. rewrite Hmanifest.
    rewrite (upgrade_loop_prefix p before (obj :: after) Hbefore).
    rewrite (forRangeReturn_cons_Some obj after (upgradeObject p) (Some err))
      by now rewrite Hobj.
    rewrite Hobj. simpl. now rewrite app_nil_r. }
  unfold isDefinition in Hdef. split.
  - intro Hto. apply Hrun. unfold upgradeObject. now rewrite Hdef, Hto.
  - intros uMap Hto Hfrom. apply Hrun. unfold upgradeObject.
    now rewrite Hdef, Hto, Hfrom.
Qed.

(** X4: when the library cannot calculate the diff of two versions, the
    validator records one error for the pair, which names both versions and
    does not wrap the error of the library, and puts no field of that pair to
    the rules. *)
Theorem cvvValidate_failed_diff cvv crd versionA versionB e :
  NoDup (map ver_Name (crd_Versions crd)) ->
  In versionA (crd_Versions crd) ->
  In versionB (crd_Versions crd) ->
  ver_Name versionA <> ver_Name versionB ->
  CalculateFlatSchemaDiff (FlattenSchema (ver_Schema versionA))
                          (FlattenSchema (ver_Schema versionB)) = inr e ->
  (exists errs,
      fst (cvvValidate cvv crd) = Some (joinError errs) /\
      In (Errorf
            "calculating schema diff for CRD version %q against CRD version %q"
            [ver_Name versionA; ver_Name versionB] None) errs) /\
  (forall index field,
      ~ In (ChangeValidationCall index (ver_Name versionA)
                                 (ver_Name versionB) field)
           (snd (cvvValidate cvv crd))).
Proof.
  intros Hnodup HA HB Hneq Hdiff.
  assert (Hpair :
    snd (validatePair cvv versionA versionB empty) =
      mkStore [diffFailed (ver_Name versionA) (ver_Name versionB)]
              [ FlattenSchemaCall versionA; FlattenSchemaCall versionB;
                CalculateFlatSchemaDiffCall versionA versionB ]).
  { rewrite validatePair_distinct by now apply String.eqb_neq.
    now rewrite Hdiff. }
  split.
  - exists (errs (snd (validateBody cvv crd empty))).
    assert (Hin : In (diffFailed (ver_Name versionA) (ver_Name versionB))
                     (errs (snd (validateBody cvv crd empty)))).
    { apply (In_validatePair_errs cvv crd versionA versionB); auto.
      rewrite Hpair. now left. }
    split; [| exact Hin].
    unfold cvvValidate. simpl.
    now apply Join_In
      with (diffFailed (ver_Name versionA) (ver_Name versionB)).
  - intros index field Hin. unfold cvvValidate in Hin. simpl in Hin.
    apply validateBody_calls_inv in Hin.
    destruct Hin as [a [b [Ha [Hb Hin]]]].
    pose proof Hin as Hshape.
    apply validatePair_calls_inv in Hshape. destruct Hshape as [_ Hshape].
    destruct Hshape as [Hev|[Hev|[Hev|[i [f Hev]]]]]; try discriminate.
    injection Hev as _ Hna Hnb _.
    assert (a = versionA)
      by (apply (NoDup_map_injective ver_Name (crd_Versions crd)); auto).
    assert (b = versionB)
      by (apply (NoDup_map_injective ver_Name (crd_Versions crd)); auto).
    subst a b. rewrite Hpair in Hin. simpl in Hin.
    destruct Hin as [Hev|[Hev|[Hev|[]]]]; discriminate.
Qed.

(** X5: a field that every rule declines has every rule called once, in
    order, and leaves the errors of the rules that declined with one,
    followed by the unknown-change error. *)
Theorem validateField_unhandled cvv versionA versionB field diff :
  Forall (fun validation : ChangeValidation => fst (validation diff) = false)
         (changeValidations cvv) ->
  validateField cvv versionA versionB (field, diff) empty =
    (tt,
     mkStore
       (flat_map (ruleErrs versionA versionB field diff)
                 (changeValidations cvv) ++
        [Errorf unknownChangeFormat [versionA; versionB; field] None])
       (map (fun i => ChangeValidationCall i versionA versionB field)
            (seq 0 (List.length (changeValidations cvv))))).
Proof.
  intro Hnone. unfold validateField, bind.
  now rewrite (tryValidations_unhandled (changeValidations cvv) 0
                 versionA versionB field diff Hnone).
Qed.

(** X6: a definition whose versions all carry one name, such as a definition
    with a single version or with none, passes the cross-version validation
    without any call. *)
Theorem cvvValidate_single_name cvv crd :
  (forall versionA versionB,
      In versionA (crd_Versions crd) -> In versionB (crd_Versions crd) ->
      ver_Name versionA = ver_Name versionB) ->
  cvvValidate cvv crd = (None, []).
Proof.
  intro Hsame. unfold cvvValidate.
  assert (Hpair : forall versionA versionB,
    In versionA (crd_Versions crd) -> In versionB (crd_Versions crd) ->
    snd (validatePair cvv versionA versionB empty) = empty).
  { intros a b Ha Hb. apply validatePair_same.
    apply String.eqb_eq. now apply Hsame. }
  rewrite validateBody_errs, validateBody_calls.
  assert (Herrs :
    flat_map (fun versionA =>
      flat_map (fun versionB =>
        errs (snd (validatePair cvv versionA versionB empty)))
        (crd_Versions crd)) (crd_Versions crd) = []).
  { apply flat_map_all_nil. intros a Ha.
    apply flat_map_all_nil. intros b Hb. now rewrite Hpair. }
  assert (Hcalls :
    flat_map (fun versionA =>
      flat_map (fun versionB =>
        calls (snd (validatePair cvv versionA versionB empty)))
        (crd_Versions crd)) (crd_Versions crd) = []).
  { apply flat_map_all_nil. intros a Ha.
    apply flat_map_all_nil. intros b Hb. now rewrite Hpair. }
  now rewrite Herrs, Hcalls.
Qed.

Lemma length_filter_flat_map {A B} (keep : B -> bool) (f : A -> list B)
      (l : list A) :
  List.length (filter keep (flat_map f l)) =
    list_sum (map (fun x => List.length (filter keep (f x))) l).
Proof.
  induction l as [|x rest IH]; simpl; [reflexivity |].
  now rewrite filter_app, length_app, IH.
Qed.

Lemma list_sum_constant {A} (g : A -> nat) (c : nat) (l : list A) :
  (forall x, In x l -> g x = c) ->
  list_sum (map g l) = List.length l * c.
Proof.
  induction l as [|x rest IH]; intro Hall; simpl; [reflexivity |].
  rewrite (Hall x) by now left.
  rewrite IH by (intros y Hy; apply Hall; now right). reflexivity.
Qed.

Lemma filter_keeps_all {A} (keep : A -> bool) (l : list A) :
  (forall x, In x l -> keep x = true) -> filter keep l = l.
Proof.
  induction l as [|x rest IH]; intro Hall; simpl; [reflexivity |].
  rewrite (Hall x) by now left.
  f_equal. apply IH. intros y Hy. apply Hall. now right.
Qed.

(** Among versions with distinct names, all but the version itself have
    another name. *)
Lemma count_other_names (versions : list CustomResourceDefinitionVersion)
      (versionA : CustomResourceDefinitionVersion) :
  NoDup (map ver_Name versions) ->
  In versionA versions ->
  List.length
    (filter (fun versionB =>
               negb (String.eqb (ver_Name versionA) (ver_Name versionB)))
            versions) = List.length versions - 1.
Proof.
  induction versions as [|v rest IH]; simpl; [intros _ [] |].
  intros Hnodup Hin. inversion Hnodup as [|? ? Hv Hrest]; subst.
  destruct Hin as [->|Hin].
  - rewrite String.eqb_refl. simpl. rewrite Nat.sub_0_r.
    rewrite filter_keeps_all; [reflexivity |].
    intros b Hb. apply negb_true_iff, String.eqb_neq.
    intro Heq. apply Hv. rewrite Heq. now apply in_map.
  - assert (Hneq : String.eqb (ver_Name versionA) (ver_Name v) = false).
    { apply String.eqb_neq. intro Heq. apply Hv. rewrite <- Heq.
      now apply in_map. }
    rewrite Hneq. simpl. rewrite (IH Hrest Hin).
    destruct rest; [destruct Hin | simpl; lia].
Qed.

(** The one diff call of a pair of versions with different names. *)
Lemma validatePair_diff_calls cvv versionA versionB :
  List.length
    (filter isDiffCall
            (calls (snd (validatePair cvv versionA versionB empty)))) =
    if String.eqb (ver_Name versionA) (ver_Name versionB) then 0 else 1.
Proof.
  destruct (String.eqb (ver_Name versionA) (ver_Name versionB)) eqn:E.
  - now rewrite validatePair_same.
  - rewrite validatePair_distinct by exact E. simpl. f_equal.
    assert (Hnone : forall l,
      (forall ev, In ev l ->
         exists i field,
           ev = ChangeValidationCall i (ver_Name versionA)
                                     (ver_Name versionB) field) ->
      filter isDiffCall l = []).
    { induction l as [|ev rest IH]; intro Hall; [reflexivity |].
      simpl. destruct (Hall ev (or_introl eq_refl)) as [i [field ->]].
      simpl. apply IH. intros ev' Hev'. apply Hall. now right. }
    rewrite Hnone; [reflexivity |].
    intros ev Hin.
    destruct (CalculateFlatSchemaDiff _ _) as [diffs|e]; [| destruct Hin].
    rewrite forRange_calls in Hin by (intro; apply appendOnly_validateField).
    apply in_flat_map in Hin. destruct Hin as [entry [_ Hin]].
    apply validateField_calls_shape in Hin. destruct Hin as [i ->]. eauto.
Qed.

(** X7: for a definition whose versions have distinct names the validator
    calculates one diff for each ordered pair of different versions, n (n - 1)
    diffs for n versions. *)
Theorem cvvValidate_number_of_diffs cvv crd :
  NoDup (map ver_Name (crd_Versions crd)) ->
  List.length (filter isDiffCall (snd (cvvValidate cvv crd))) =
    List.length (crd_Versions crd) * (List.length (crd_Versions crd) - 1).
Proof.
  intro Hnodup. unfold cvvValidate. simpl.
  rewrite validateBody_calls, length_filter_flat_map.
  apply list_sum_constant. intros versionA HA.
  rewrite length_filter_flat_map.
  rewrite <- (count_other_names (crd_Versions crd) versionA Hnodup HA).
  generalize (crd_Versions crd) as versions.
  induction versions as [|versionB rest IH]; simpl; [reflexivity |].
  rewrite validatePair_diff_calls, IH.
  now destruct (String.eqb (ver_Name versionA) (ver_Name versionB)).
Qed.

(** The errors of one field name the two versions and the field. *)
Lemma tryValidations_errs_shape (validations : list ChangeValidation) :
  forall index versionA versionB field diff e,
    In e (errs (snd (tryValidations validations index
                       versionA versionB field diff empty))) ->
    exists w,
      e = Errorf "version %q compared to version %q, field %q: %w"
                 [versionA; versionB; field] (Some w).
Proof.
  induction validations as [|validation rest IH];
    intros index a b field diff e Hin.
  - destruct Hin.
  - rewrite tryValidations_cons in Hin. cbv zeta in Hin.
    assert (Hhere : In e (ruleErrs a b field diff validation) ->
                    exists w,
                      e = Errorf "version %q compared to version %q, field %q: %w"
                                 [a; b; field] (Some w)).
    { unfold ruleErrs. destruct (snd (validation diff)) as [w|]; [| intros []].
      intros [<-|[]]. eauto. }
    destruct (fst (validation diff)); simpl in Hin.
    + auto.
    + apply in_app_or in Hin. destruct Hin as [Hin|Hin]; [auto |].
      eapply IH. exact Hin.
Qed.

Lemma validateField_errs_shape cvv versionA versionB entry e :
  In e (errs (snd (validateField cvv versionA versionB entry empty))) ->
  e = Errorf unknownChangeFormat [versionA; versionB; fst entry] None \/
  exists w,
    e = Errorf "version %q compared to version %q, field %q: %w"
               [versionA; versionB; fst entry] (Some w).
Proof.
  destruct entry as [field diff]. unfold validateField, bind. simpl.
  destruct (tryValidations _ _ _ _ _ _ empty) as [handled s] eqn:E.
  assert (Hrules : forall e', In e' (errs s) ->
    exists w,
      e' = Errorf "version %q compared to version %q, field %q: %w"
                  [versionA; versionB; field] (Some w)).
  { intros e' He'.
    apply (tryValidations_errs_shape (changeValidations cvv) 0
             versionA versionB field diff).
    now rewrite E. }
  destruct handled; simpl; intro Hin.
  - right. auto.
  - apply in_app_or in Hin. destruct Hin as [Hin|[<-|[]]].
    + right. auto.
    + now left.
Qed.

(** X8: every error in what the validator returns is one of three: the diff
    of two versions could not be calculated, a field has an unknown change,
    or a rule returned an error for a field; and each names two declared
    versions of different names, in the order compared. *)
Theorem cvvValidate_errors_name_the_pair cvv crd err :
  fst (cvvValidate cvv crd) = Some err ->
  exists errs,
    err = joinError errs /\ errs <> [] /\
    forall e, In e errs ->
      exists versionA versionB,
        In versionA (crd_Versions crd) /\ In versionB (crd_Versions crd) /\
        ver_Name versionA <> ver_Name versionB /\
        (e = Errorf
               "calculating schema diff for CRD version %q against CRD version %q"
               [ver_Name versionA; ver_Name versionB] None \/
         (exists field,
             e = Errorf
                   "version %q compared to version %q, field %q has unknown change, refusing to determine that change is safe"
                   [ver_Name versionA; ver_Name versionB; field] None) \/
         (exists field w,
             e = Errorf "version %q compared to version %q, field %q: %w"
                        [ver_Name versionA; ver_Name versionB; field]
                        (Some w))).
Proof.
  unfold cvvValidate. simpl. intro Hjoin.
  apply Join_Some in Hjoin. destruct Hjoin as [-> Hne].
  exists (errs (snd (validateBody cvv crd empty))).
  split; [reflexivity | split; [exact Hne |]].
  intros e Hin. rewrite validateBody_errs in Hin.
  apply in_flat_map in Hin. destruct Hin as [a [Ha Hin]].
  apply in_flat_map in Hin. destruct Hin as [b [Hb Hin]].
  exists a, b. split; [exact Ha | split; [exact Hb |]].
  destruct (String.eqb (ver_Name a) (ver_Name b)) eqn:E.
  - rewrite validatePair_same in Hin by exact E. destruct Hin.
  - rewrite validatePair_distinct in Hin by exact E.
    split; [now apply String.eqb_neq |].
    simpl in Hin.
    destruct (CalculateFlatSchemaDiff _ _) as [diffs|e'].
    + rewrite forRange_errs in Hin by (intro; apply appendOnly_validateField).
      apply in_flat_map in Hin. destruct Hin as [entry [_ Hin]].
      apply validateField_errs_shape in Hin.
      destruct Hin as [->|[w ->]]; right; [left | right]; eauto.
    + destruct Hin as [<-|[]]. now left.
Qed.

Lemma last_cons_default {A} (l : list A) (x d d' : A) :
  last (x :: l) d = last (x :: l) d'.
Proof.
  revert x. induction l as [|y rest IH]; intro x; [reflexivity |].
  change (last (y :: rest) d = last (y :: rest) d'). apply IH.
Qed.

Lemma WithValidator_options_fold (validators : list Validator) :
  forall p0,
    let p := fold_left (fun p o => o p) (map WithValidator validators) p0 in
    crdClient p = crdClient p0 /\
    crossVersionValidatorOf p = crossVersionValidatorOf p0 /\
    validator p = last validators (validator p0).
Proof.
  induction validators as [|v rest IH]; intro p0; cbv zeta; simpl map;
    simpl fold_left.
  - auto.
  - destruct (IH (WithValidator v p0)) as [Hc [Hr Hv]].
    rewrite Hc, Hr, Hv. repeat split.
    destruct rest as [|w rest]; [reflexivity |].
    change (last (v :: w :: rest) (validator p0))
      with (last (w :: rest) (validator p0)).
    apply last_cons_default.
Qed.

(** X9: options that replace the validator leave the client and the rules
    of the cross-version validator as [NewPreflight] set them, and the
    validator of the preflight is the one of the last option, or the default
    one with the three structural checks and the change rules when there is
    no option. *)
Theorem NewPreflight_last_validator_wins crdCli (validators : list Validator) :
  let p := NewPreflight crdCli (map WithValidator validators) in
  crdClient p = crdCli /\
  changeValidations (crossVersionValidatorOf p) = defaultChangeValidations /\
  validator p =
    last validators
      (mkValidator
         [ NewValidationFunc "NoScopeChange" NoScopeChange;
           NewValidationFunc "NoStoredVersionRemoved" NoStoredVersionRemoved;
           NewValidationFunc "NoExistingFieldRemoved" NoExistingFieldRemoved;
           ChangeValidator defaultChangeValidations ]).
Proof.
  cbv zeta. unfold NewPreflight.
  destruct (WithValidator_options_fold validators
              (mkPreflight crdCli defaultValidator
                           (mkCVV defaultChangeValidations)))
    as [Hc [Hr Hv]].
  unfold defaultValidator in *. rewrite Hc, Hr, Hv. auto.
Qed.

End Facts.

Import fake fake_more.

(** X2 on the [widgets] release: one fetch and two validations. *)
Lemma Upgrade_calls_follow_the_release_witness :
  snd (Upgrade preflight (Some widgetsRelease)) =
    [ GetCall "widgets";
      ValidatorValidateCall widgetsActive widgetsProposed;
      CrossVersionValidateCall widgetsProposed ].
Proof.
  refine (Upgrade_calls_follow_the_release
            preflight widgetsRelease [configMap; crdObject widgetsProposed]
            eq_refl _).
  intros obj [<-|[<-|[]]] Hdef.
  - discriminate Hdef.
  - discriminate.
Defined.

(** X3 on a release with [widgets], a definition that does not convert,
    and [gadgets]: the failure of [widgets] is dropped and [gadgets] is never
    fetched. *)
Lemma Upgrade_failed_conversion_is_fatal_witness :
  @Upgrade _ _ brokenRuntime preflight (Some brokenRelease) =
    (Some (Errorf "converting unstructured to CRD object: %w" []
                  (Some (New "not a definition"))),
     [ GetCall "widgets";
       ValidatorValidateCall widgetsActive widgetsProposed;
       CrossVersionValidateCall widgetsProposed ]).
Proof.
  refine (proj2 (@Upgrade_failed_conversion_is_fatal
                   _ _ brokenRuntime preflight brokenRelease
                   [crdObject widgetsProposed] brokenObject
                   [crdObject gadgets] (New "not a definition")
                   eq_refl _ eq_refl)
                brokenObject eq_refl eq_refl).
  intros o [<-|[]] _. discriminate.
Defined.

(** X4 on [shrunk]: [v3] lacks a field of [v1]. *)
Lemma cvvValidate_failed_diff_witness :
  (exists errs,
      fst (cvvValidate (crossVersionValidatorOf preflight) shrunk)
        = Some (joinError errs) /\
      In (Errorf
            "calculating schema diff for CRD version %q against CRD version %q"
            ["v1"; "v3"] None) errs) /\
  (forall index field,
      ~ In (ChangeValidationCall index "v1" "v3" field)
           (snd (cvvValidate (crossVersionValidatorOf preflight) shrunk))).
Proof.
  apply (cvvValidate_failed_diff
           (crossVersionValidatorOf preflight) shrunk v1 v3
           (New "field in existing not found in new")).
  - simpl. repeat constructor; simpl; intuition discriminate.
  - simpl. auto.
  - simpl. auto.
  - discriminate.
  - reflexivity.
Defined.

(** X5 on the change of type of [spec.size]: eleven rules are called. *)
Lemma validateField_unhandled_witness :
  validateField (crossVersionValidatorOf preflight) "v1" "v2"
                ("spec.size", (("integer", 5), ("string", 5))) empty =
    (tt,
     mkStore
       [ Errorf unknownChangeFormat ["v1"; "v2"; "spec.size"] None ]
       (map (fun i => ChangeValidationCall i "v1" "v2" "spec.size")
            (seq 0 11))).
Proof.
  apply (validateField_unhandled
           (crossVersionValidatorOf preflight) "v1" "v2" "spec.size"
           (("integer", 5), ("string", 5))).
  simpl. repeat constructor.
Defined.

(** X6 on the proposed [widgets], which has one version. *)
Lemma cvvValidate_single_name_witness :
  cvvValidate (crossVersionValidatorOf preflight) widgetsProposed = (None, []).
Proof.
  apply cvvValidate_single_name.
  intros a b [<-|[]] [<-|[]]. reflexivity.
Defined.

(** X7 on [widgets]: two versions, two diffs. *)
Lemma cvvValidate_number_of_diffs_witness :
  List.length
    (filter isDiffCall
            (snd (cvvValidate (crossVersionValidatorOf preflight) widgets)))
    = 2.
Proof.
  apply (cvvValidate_number_of_diffs
           (crossVersionValidatorOf preflight) widgets).
  simpl. repeat constructor; simpl; intuition discriminate.
Defined.

(** X8 on [widgets]. *)
Lemma cvvValidate_errors_name_the_pair_witness :
  exists errs,
    joinError
      [ Errorf "version %q compared to version %q, field %q: %w"
               ["v1"; "v2"; "spec.replicas"]
               (Some (New "maximum decreased"));
        unknownChange "v1" "v2" "spec.size";
        unknownChange "v2" "v1" "spec.size" ] = joinError errs /\
    errs <> [] /\
    forall e, In e errs ->
      exists versionA versionB,
        In versionA (crd_Versions widgets) /\
        In versionB (crd_Versions widgets) /\
        ver_Name versionA <> ver_Name versionB /\
        (e = Errorf
               "calculating schema diff for CRD version %q against CRD version %q"
               [ver_Name versionA; ver_Name versionB] None \/
         (exists field,
             e = Errorf
                   "version %q compared to version %q, field %q has unknown change, refusing to determine that change is safe"
                   [ver_Name versionA; ver_Name versionB; field] None) \/
         (exists field w,
             e = Errorf "version %q compared to version %q, field %q: %w"
                        [ver_Name versionA; ver_Name versionB; field]
                        (Some w))).
Proof.
  exact (cvvValidate_errors_name_the_pair
           (crossVersionValidatorOf preflight) widgets _ eq_refl).
Defined.

End crdupgradesafety_more.

(** ** More on the applier *)

Module applier_more.

Import errors stmt kappcus applier errors_facts stmt_facts applier_facts.

Section Facts.
Context `{Library} `{!crdupgradesafety.Runtime} `{!Deps}.

(** [Apply] from [getReleaseState] on, stage by stage. *)
Lemma applyBody_run h ac ext chrt installLabels post :
  applyBody h ac ext chrt installLabels post empty =
    let '(rel, desiredRel, state, err) :=
      fst (getReleaseState ac ext chrt post empty) in
    let s1 := snd (getReleaseState ac ext chrt post empty) in
    match err with
    | Some e => (inr e, s1)
    | None =>
        let loop :=
          forRangeReturn (Preflights h) (runPreflight ext state desiredRel)
                         empty in
        match fst loop with
        | Some e => (inr e, extend s1 (snd loop))
        | None =>
            let applied :=
              applyRelease ac ext chrt installLabels post state rel empty in
            (managedObjects (fst applied),
             extend s1 (extend (snd loop) (snd applied)))
        end
    end.
Proof.
  unfold applyBody, bind.
  destruct (getReleaseState ac ext chrt post empty)
    as [[[[rel desiredRel] state] err] s1].
  simpl. destruct err as [e|]; [reflexivity |].
  rewrite (appendOnly_forRangeReturn (Preflights h)
             (runPreflight ext state desiredRel)
             (appendOnly_runPreflight ext state desiredRel) s1).
  destruct (forRangeReturn (Preflights h) (runPreflight ext state desiredRel)
                           empty) as [failed s2].
  simpl. destruct failed as [e|]; [reflexivity |].
  rewrite (appendOnly_applyRelease ac ext chrt installLabels post state rel
             (extend s1 s2)).
  destruct (applyRelease ac ext chrt installLabels post state rel empty)
    as [applied s3].
  simpl. now rewrite extend_assoc.
Qed.

(** What [getReleaseState] returns and calls, case by case. *)
Lemma getReleaseState_run cl ext chrt post :
  getReleaseState cl ext chrt post empty =
    match ac_Get cl (ext_Name ext) with
    | inr err =>
        if Is err ErrReleaseNotFound
        then (None, None, stateNeedsInstall, None,
              mkStore [] [ActionGetCall (ext_Name ext)])
        else (None, None, stateError, Some err,
              mkStore [] [ActionGetCall (ext_Name ext)])
    | inl currentRelease =>
        match ac_Upgrade cl (ext_Name ext) (ext_InstallNamespace ext) chrt
                         (dryRunUpgrade post) with
        | inr err =>
            (Some currentRelease, None, stateError, Some err,
             mkStore [] [ ActionGetCall (ext_Name ext);
                          ActionUpgradeCall (dryRunUpgrade post) ])
        | inl desiredRelease =>
            (Some currentRelease, Some desiredRelease,
             if negb (String.eqb (release.Manifest desiredRelease)
                                 (release.Manifest currentRelease))
                || release.Status_eqb (release.InfoStatus currentRelease)
                                      release.StatusFailed
                || release.Status_eqb (release.InfoStatus currentRelease)
                                      release.StatusSuperseded
             then stateNeedsUpgrade else stateUnchanged,
             None,
             mkStore [] [ ActionGetCall (ext_Name ext);
                          ActionUpgradeCall (dryRunUpgrade post) ])
        end
    end.
Proof.
  unfold getReleaseState, bind, call, dryRunUpgrade. simpl.
  destruct (ac_Get _ _) as [currentRelease|e].
  - simpl. destruct (ac_Upgrade _ _ _ _ _); reflexivity.
  - destruct (Is e ErrReleaseNotFound); reflexivity.
Qed.

(** What the second switch of [Apply] returns and calls, state by state. *)
Lemma applyRelease_run ac ext chrt installLabels post state rel :
  applyRelease ac ext chrt installLabels post state rel empty =
    match state with
    | stateNeedsInstall =>
        (match ac_Install ac (ext_Name ext) (ext_InstallNamespace ext) chrt
                          (installOptions installLabels post) with
         | inr err => inr err
         | inl installed => inl (Some installed)
         end,
         mkStore [] [ActionInstallCall (installOptions installLabels post)])
    | stateNeedsUpgrade =>
        (match ac_Upgrade ac (ext_Name ext) (ext_InstallNamespace ext) chrt
                          (upgradeOptions installLabels post) with
         | inr err => inr err
         | inl upgraded => inl (Some upgraded)
         end,
         mkStore [] [ActionUpgradeCall (upgradeOptions installLabels post)])
    | stateUnchanged =>
        (match ac_Reconcile ac rel with
         | Some err => inr err
         | None => inl rel
         end,
         mkStore [] [ActionReconcileCall rel])
    | stateError =>
        (inr (Errorf "unexpected release state %q" ["Error"] None), empty)
    end.
Proof.
  unfold applyRelease, bind, call, installOptions, upgradeOptions.
  destruct state; simpl.
  - destruct (ac_Install _ _ _ _ _); reflexivity.
  - destruct (ac_Upgrade _ _ _ _ _); reflexivity.
  - destruct (ac_Reconcile _ _); reflexivity.
  - reflexivity.
Qed.

(** The calls of the loop over the preflights change nothing. *)
Lemma preflight_loop_not_mutating ext state desiredRel preflights :
  Forall (fun ev => isMutating ev = false)
         (calls (snd (forRangeReturn preflights
                        (runPreflight ext state desiredRel) empty))).
Proof.
  apply Forall_forall. intros ev Hin.
  apply preflight_loop_calls in Hin.
  destruct Hin as [q [_ [_ [[_ ->]|[_ ->]]]]]; reflexivity.
Qed.

(** X10: the calls of [Apply] that read the release, render the dry run and
    ask the preflights come first, and at most one call changes the release
    (an install, an upgrade or a reconciliation), which is then the last
    call; [Apply] returns objects only after such a call. *)
Theorem Apply_changes_the_release_last h contentFS ext bundle :
  exists before tail,
    snd (Apply h contentFS ext bundle) = before ++ tail /\
    Forall (fun ev => isMutating ev = false) before /\
    (tail = [] \/ exists ev, tail = [ev] /\ isMutating ev = true) /\
    (forall relObjects,
        fst (Apply h contentFS ext bundle) = inl relObjects -> tail <> []).
Proof.
  unfold Apply.
  destruct (RegistryV1ToHelmChart _ _ _) as [chrt|e];
    [| exists [], []; repeat split; auto; discriminate].
  destruct (ActionClientFor h ext) as [ac|e];
    [| exists [], []; repeat split; auto; discriminate].
  destruct (bundle_Version bundle) as [bundleVersion|e];
    [| exists [], []; repeat split; auto; discriminate].
  set (post := postrendererFor ext bundle bundleVersion).
  set (installLabels := installLabelsFor bundle bundleVersion).
  destruct (applyBody h ac ext chrt installLabels post empty)
    as [result s] eqn:Ebody.
  rewrite applyBody_run, getReleaseState_run in Ebody. simpl fst; simpl snd.
  assert (Hstopped : forall events (e : error),
    Forall (fun ev => isMutating ev = false) events ->
    (inr e, mkStore [] events) = (result, s) ->
    exists before tail,
      calls s = before ++ tail /\
      Forall (fun ev => isMutating ev = false) before /\
      (tail = [] \/ exists ev, tail = [ev] /\ isMutating ev = true) /\
      (forall relObjects, result = inl relObjects -> tail <> [])).
  { intros events e Hquiet [= <- <-]. exists events, [].
    rewrite app_nil_r. repeat split; auto. discriminate. }
  assert (Hstage : forall state rel desiredRel gets,
    Forall (fun ev => isMutating ev = false) gets ->
    state <> stateError ->
    (let loop :=
       forRangeReturn (Preflights h) (runPreflight ext state desiredRel)
                      empty in
     match fst loop with
     | Some e => (inr e, extend (mkStore [] gets) (snd loop))
     | None =>
         let applied :=
           applyRelease ac ext chrt installLabels post state rel empty in
         (managedObjects (fst applied),
          extend (mkStore [] gets) (extend (snd loop) (snd applied)))
     end) = (result, s) ->
    exists before tail,
      calls s = before ++ tail /\
      Forall (fun ev => isMutating ev = false) before /\
      (tail = [] \/ exists ev, tail = [ev] /\ isMutating ev = true) /\
      (forall relObjects, result = inl relObjects -> tail <> [])).
  { intros state rel desiredRel gets Hgets Hstate. cbv zeta.
    pose proof (preflight_loop_not_mutating ext state desiredRel (Preflights h))
      as Hloop.
    destruct (forRangeReturn (Preflights h)
                (runPreflight ext state desiredRel) empty) as [failed s2].
    simpl in Hloop |- *.
    destruct failed as [e|].
    - intros [= <- <-]. exists (gets ++ calls s2), [].
      simpl. rewrite app_nil_r. repeat split; auto.
      + apply Forall_app. auto.
      + discriminate.
    - rewrite applyRelease_run.
      destruct state; try congruence; intros [= <- <-]; simpl;
        eexists (gets ++ calls s2), [_];
        (split; [now rewrite app_assoc |]);
        (split; [apply Forall_app; auto |]);
        (split; [right; eexists; split; [reflexivity | reflexivity] |]);
        discriminate. }
  destruct (ac_Get ac (ext_Name ext)) as [currentRelease|e].
  - destruct (ac_Upgrade ac _ _ chrt (dryRunUpgrade post))
      as [desiredRelease|e].
    + revert Ebody.
      apply Hstage; [repeat constructor |].
      destruct (_ || _); discriminate.
    + revert Ebody. apply Hstopped. repeat constructor.
  - destruct (Is e ErrReleaseNotFound).
    + revert Ebody. apply Hstage; [repeat constructor | discriminate].
    + revert Ebody. apply Hstopped. repeat constructor.
Qed.

(** [Apply], case by case on what the Helm client answers. *)
Lemma Apply_run h contentFS ext bundle :
  Apply h contentFS ext bundle =
    match RegistryV1ToHelmChart contentFS (ext_InstallNamespace ext) [""] with
    | inr err => (inr err, [])
    | inl chrt =>
    match ActionClientFor h ext with
    | inr err => (inr err, [])
    | inl ac =>
    match bundle_Version bundle with
    | inr err => (inr err, [])
    | inl bundleVersion =>
        let post := postrendererFor ext bundle bundleVersion in
        let installLabels := installLabelsFor bundle bundleVersion in
        match ac_Get ac (ext_Name ext) with
        | inr err =>
            if Is err ErrReleaseNotFound
            then staged h ac ext chrt installLabels post stateNeedsInstall
                        None None [ActionGetCall (ext_Name ext)]
            else (inr err, [ActionGetCall (ext_Name ext)])
        | inl currentRelease =>
            match ac_Upgrade ac (ext_Name ext) (ext_InstallNamespace ext)
                             chrt (dryRunUpgrade post) with
            | inr err =>
                (inr err, [ ActionGetCall (ext_Name ext);
                            ActionUpgradeCall (dryRunUpgrade post) ])
            | inl desiredRelease =>
                staged h ac ext chrt installLabels post
                  (if negb (String.eqb (release.Manifest desiredRelease)
                                       (release.Manifest currentRelease))
                      || release.Status_eqb
                           (release.InfoStatus currentRelease)
                           release.StatusFailed
                      || release.Status_eqb
                           (release.InfoStatus currentRelease)
                           release.StatusSuperseded
                   then stateNeedsUpgrade else stateUnchanged)
                  (Some currentRelease) (Some desiredRelease)
                  [ ActionGetCall (ext_Name ext);
                    ActionUpgradeCall (dryRunUpgrade post) ]
            end
        end
    end end end.
Proof.
  unfold Apply.
  destruct (RegistryV1ToHelmChart _ _ _) as [chrt|e]; [| reflexivity].
  destruct (ActionClientFor h ext) as [ac|e]; [| reflexivity].
  destruct (bundle_Version bundle) as [bundleVersion|e]; [| reflexivity].
  cbv zeta. rewrite applyBody_run, getReleaseState_run. unfold staged.
  destruct (ac_Get ac (ext_Name ext)) as [currentRelease|e].
  - destruct (ac_Upgrade ac _ _ chrt _) as [desiredRelease|e];
      [| reflexivity].
    cbn [fst snd]. cbv zeta.
    destruct (fst (forRangeReturn _ _ empty)); reflexivity.
  - destruct (Is e ErrReleaseNotFound); [| reflexivity].
    cbn [fst snd]. cbv zeta.
    destruct (fst (forRangeReturn _ _ empty)); reflexivity.
Qed.

(** One turn of the loop over the preflights. *)
Lemma runPreflight_run ext state desiredRel preflight :
  runPreflight ext state desiredRel preflight empty =
    if skipped ext preflight then (None, empty)
    else
      match state with
      | stateNeedsInstall =>
          (preflight_Install preflight desiredRel,
           mkStore [] [PreflightInstallCall preflight desiredRel])
      | stateNeedsUpgrade =>
          (preflight_Upgrade preflight desiredRel,
           mkStore [] [PreflightUpgradeCall preflight desiredRel])
      | _ => (None, empty)
      end.
Proof.
  unfold runPreflight. destruct (skipped ext preflight); [reflexivity |].
  destruct state; reflexivity.
Qed.

(** A check that was called and failed ended the loop with its error. *)
Lemma preflight_loop_fails ext state desiredRel preflights p rel e ev :
  In ev (calls (snd (forRangeReturn preflights
                       (runPreflight ext state desiredRel) empty))) ->
  (ev = PreflightInstallCall p rel /\ preflight_Install p rel = Some e) \/
  (ev = PreflightUpgradeCall p rel /\ preflight_Upgrade p rel = Some e) ->
  fst (forRangeReturn preflights (runPreflight ext state desiredRel) empty)
    = Some e.
Proof.
  intros Hin Hev. induction preflights as [|q rest IH]; [destruct Hin |].
  pose proof (runPreflight_run ext state desiredRel q) as Hq.
  destruct (fst (runPreflight ext state desiredRel q empty)) as [e'|] eqn:Eq.
  - rewrite (forRangeReturn_cons_Some q rest _ e' Eq) in Hin |- *.
    simpl. rewrite Hq in Hin, Eq.
    destruct (skipped ext q); [destruct Hin |].
    destruct state; simpl in Hin, Eq; try (now destruct Hin);
      destruct Hin as [<-|[]];
      destruct Hev as [[Heq Hcheck]|[Heq Hcheck]]; try discriminate;
      injection Heq as <- <-; congruence.
  - rewrite forRangeReturn_cons_None in Hin |- *;
      try apply appendOnly_runPreflight; try exact Eq.
    simpl in Hin |- *. apply in_app_or in Hin.
    destruct Hin as [Hin|Hin]; [| now apply IH].
    exfalso. rewrite Hq in Hin, Eq.
    destruct (skipped ext q); [destruct Hin |].
    destruct state; simpl in Hin, Eq; try (now destruct Hin);
      destruct Hin as [<-|[]];
      destruct Hev as [[Heq Hcheck]|[Heq Hcheck]]; try discriminate;
      injection Heq as <- <-; congruence.
Qed.

(** A preflight call of the staged part is a call of the loop. *)
Lemma staged_preflight_call h ac ext chrt installLabels post state rel
      desiredRel gets ev :
  Forall (fun ev => isPreflightCall ev = false) gets ->
  isPreflightCall ev = true ->
  In ev (snd (staged h ac ext chrt installLabels post state rel desiredRel
                     gets)) ->
  In ev (calls (snd (forRangeReturn (Preflights h)
                       (runPreflight ext state desiredRel) empty))).
Proof.
  intros Hgets Hev. unfold staged. cbv zeta.
  assert (Hnot : ~ In ev gets).
  { intro Hin. rewrite Forall_forall in Hgets.
    rewrite (Hgets ev Hin) in Hev. discriminate. }
  destruct (fst (forRangeReturn _ _ empty)); simpl; intro Hin;
    apply in_app_or in Hin; destruct Hin as [Hin|Hin]; try contradiction;
    try exact Hin.
  apply in_app_or in Hin. destruct Hin as [Hin|Hin]; [exact Hin |].
  apply applyRelease_calls in Hin. congruence.
Qed.

(** X11: a preflight check that was called and returned an error ends
    [Apply] with that error, and the release is neither installed nor
    upgraded nor reconciled. *)
Theorem Apply_failed_preflight_blocks_the_release
        h contentFS ext bundle p rel e :
  (In (PreflightInstallCall p rel) (snd (Apply h contentFS ext bundle)) /\
   preflight_Install p rel = Some e) \/
  (In (PreflightUpgradeCall p rel) (snd (Apply h contentFS ext bundle)) /\
   preflight_Upgrade p rel = Some e) ->
  fst (Apply h contentFS ext bundle) = inr e /\
  Forall (fun ev => isMutating ev = false) (snd (Apply h contentFS ext bundle)).
Proof.
  assert (Hstaged : forall ac chrt installLabels post state r d gets,
    Forall (fun ev => isPreflightCall ev = false) gets ->
    Forall (fun ev => isMutating ev = false) gets ->
    (In (PreflightInstallCall p rel)
        (snd (staged h ac ext chrt installLabels post state r d gets)) /\
     preflight_Install p rel = Some e) \/
    (In (PreflightUpgradeCall p rel)
        (snd (staged h ac ext chrt installLabels post state r d gets)) /\
     preflight_Upgrade p rel = Some e) ->
    fst (staged h ac ext chrt installLabels post state r d gets) = inr e /\
    Forall (fun ev => isMutating ev = false)
           (snd (staged h ac ext chrt installLabels post state r d gets))).
  { intros ac chrt installLabels post state r d gets Hquiet Hgets Hcalled.
    assert (Hloop :
      fst (forRangeReturn (Preflights h) (runPreflight ext state d) empty)
        = Some e).
    { destruct Hcalled as [[Hin Hcheck]|[Hin Hcheck]].
      - apply (preflight_loop_fails ext state d (Preflights h) p rel e
                 (PreflightInstallCall p rel)); [| now left].
        now apply (staged_preflight_call h ac ext chrt installLabels post
                     state r d gets).
      - apply (preflight_loop_fails ext state d (Preflights h) p rel e
                 (PreflightUpgradeCall p rel)); [| now right].
        now apply (staged_preflight_call h ac ext chrt installLabels post
                     state r d gets). }
    unfold staged. cbv zeta. rewrite Hloop. simpl. split; [reflexivity |].
    apply Forall_app. split; [exact Hgets |].
    apply preflight_loop_not_mutating. }
  rewrite Apply_run.
  destruct (RegistryV1ToHelmChart _ _ _) as [chrt|e0];
    [| simpl; intros [[[] _]|[[] _]]].
  destruct (ActionClientFor h ext) as [ac|e0]; [| simpl; intros [[[] _]|[[] _]]].
  destruct (bundle_Version bundle) as [bundleVersion|e0];
    [| simpl; intros [[[] _]|[[] _]]].
  cbv zeta.
  destruct (ac_Get ac (ext_Name ext)) as [currentRelease|e0].
  - destruct (ac_Upgrade ac _ _ chrt _) as [desiredRelease|e1].
    + apply Hstaged; repeat constructor.
    + simpl. intros [[Hin _]|[Hin _]];
        destruct Hin as [Hin|[Hin|[]]]; discriminate.
  - destruct (Is e0 ErrReleaseNotFound).
    + apply Hstaged; repeat constructor.
    + simpl. intros [[Hin _]|[Hin _]]; destruct Hin as [Hin|[]]; discriminate.
Qed.

(** X12: a preflight's install check is given a nil release, since a release
    that was not found is not rendered by a dry run; a preflight's upgrade
    check is given the release the dry-run upgrade rendered. *)
Theorem Apply_release_given_to_preflights h contentFS ext bundle :
  (forall p rel,
      In (PreflightInstallCall p rel) (snd (Apply h contentFS ext bundle)) ->
      rel = None) /\
  (forall p rel,
      In (PreflightUpgradeCall p rel) (snd (Apply h contentFS ext bundle)) ->
      exists chrt ac bundleVersion desiredRelease,
        RegistryV1ToHelmChart contentFS (ext_InstallNamespace ext) [""]
          = inl chrt /\
        ActionClientFor h ext = inl ac /\
        bundle_Version bundle = inl bundleVersion /\
        ac_Upgrade ac (ext_Name ext) (ext_InstallNamespace ext) chrt
                   (dryRunUpgrade (postrendererFor ext bundle bundleVersion))
          = inl desiredRelease /\
        rel = Some desiredRelease).
Proof.
  rewrite Apply_run.
  destruct (RegistryV1ToHelmChart _ _ _) as [chrt|e0];
    [| simpl; split; intros p rel []].
  destruct (ActionClientFor h ext) as [ac|e0]; [| simpl; split; intros p rel []].
  destruct (bundle_Version bundle) as [bundleVersion|e0];
    [| simpl; split; intros p rel []].
  cbv zeta.
  destruct (ac_Get ac (ext_Name ext)) as [currentRelease|e0].
  - destruct (ac_Upgrade ac _ _ chrt _) as [desiredRelease|e1] eqn:Edry.
    + split; intros p rel Hin;
        apply staged_preflight_call in Hin;
        try reflexivity; try (repeat constructor);
        apply preflight_loop_calls in Hin;
        destruct Hin as [q [_ [_ [[Hstate Hev]|[Hstate Hev]]]]];
        try discriminate.
      * destruct (_ || _); discriminate.
      * injection Hev as _ ->.
        exists chrt, ac, bundleVersion, desiredRelease. auto.
    + split; intros p rel [Hin|[Hin|[]]]; discriminate.
  - destruct (Is e0 ErrReleaseNotFound).
    + split; intros p rel Hin;
        apply staged_preflight_call in Hin;
        try reflexivity; try (repeat constructor);
        apply preflight_loop_calls in Hin;
        destruct Hin as [q [_ [_ [[Hstate Hev]|[Hstate Hev]]]]];
        try discriminate.
      now injection Hev as _ ->.
    + split; intros p rel [Hin|[]]; discriminate.
Qed.

(** X13: [Apply] reconciles only the current release, and only when the
    dry-run upgrade rendered the manifest the current release has and the
    current release is neither failed nor superseded. *)
Theorem Apply_reconciles_only_an_unchanged_release
        h contentFS ext bundle rel :
  In (ActionReconcileCall rel) (snd (Apply h contentFS ext bundle)) ->
  exists chrt ac bundleVersion currentRelease desiredRelease,
    RegistryV1ToHelmChart contentFS (ext_InstallNamespace ext) [""]
      = inl chrt /\
    ActionClientFor h ext = inl ac /\
    bundle_Version bundle = inl bundleVersion /\
    ac_Get ac (ext_Name ext) = inl currentRelease /\
    ac_Upgrade ac (ext_Name ext) (ext_InstallNamespace ext) chrt
               (dryRunUpgrade (postrendererFor ext bundle bundleVersion))
      = inl desiredRelease /\
    rel = Some currentRelease /\
    release.Manifest desiredRelease = release.Manifest currentRelease /\
    release.InfoStatus currentRelease <> release.StatusFailed /\
    release.InfoStatus currentRelease <> release.StatusSuperseded.
Proof.
  assert (Hstaged : forall ac chrt installLabels post state r d gets,
    Forall (fun ev => isMutating ev = false) gets ->
    In (ActionReconcileCall rel)
       (snd (staged h ac ext chrt installLabels post state r d gets)) ->
    state = stateUnchanged /\ rel = r).
  { intros ac chrt installLabels post state r d gets Hgets.
    unfold staged. cbv zeta.
    assert (Hnot : forall l,
      Forall (fun ev => isMutating ev = false) l ->
      ~ In (ActionReconcileCall rel) l).
    { intros l Hl Hin. rewrite Forall_forall in Hl.
      specialize (Hl _ Hin). discriminate. }
    pose proof (Hnot _ Hgets) as Hg.
    pose proof (Hnot _ (preflight_loop_not_mutating ext state d (Preflights h)))
      as Hl.
    destruct (fst (forRangeReturn _ _ empty)); simpl; intro Hin;
      apply in_app_or in Hin; destruct Hin as [Hin|Hin]; try contradiction.
    apply in_app_or in Hin. destruct Hin as [Hin|Hin]; [contradiction |].
    rewrite applyRelease_run in Hin.
    destruct state; simpl in Hin; try contradiction;
      destruct Hin as [Hev|[]]; try discriminate.
    now injection Hev as ->. }
  rewrite Apply_run.
  destruct (RegistryV1ToHelmChart _ _ _) as [chrt|e0]; [| simpl; intros []].
  destruct (ActionClientFor h ext) as [ac|e0]; [| simpl; intros []].
  destruct (bundle_Version bundle) as [bundleVersion|e0]; [| simpl; intros []].
  cbv zeta.
  destruct (ac_Get ac (ext_Name ext)) as [currentRelease|e0] eqn:Eget.
  - destruct (ac_Upgrade ac _ _ chrt _) as [desiredRelease|e1] eqn:Edry.
    + intro Hin. apply Hstaged in Hin; [| repeat constructor].
      destruct Hin as [Hstate ->].
      exists chrt, ac, bundleVersion, currentRelease, desiredRelease.
      do 6 (split; [first [reflexivity | assumption] |]).
      destruct (String.eqb (release.Manifest desiredRelease)
                           (release.Manifest currentRelease)) eqn:E;
        [| discriminate].
      destruct (release.InfoStatus currentRelease);
        try discriminate; simpl in Hstate;
        (split; [now apply String.eqb_eq | split; discriminate]).
    + simpl. intros [Hin|[Hin|[]]]; discriminate.
  - destruct (Is e0 ErrReleaseNotFound).
    + intro Hin. apply Hstaged in Hin; [| repeat constructor].
      destruct Hin as [Hstate _]. discriminate.
    + simpl. intros [Hin|[]]; discriminate.
Qed.

(** X14: the objects [Apply] returns are those of the manifest of the release
    that the install or the upgrade returned, or of the current release
    when it was reconciled; they are never read from the dry run. *)
Theorem Apply_returns_the_applied_objects h contentFS ext bundle relObjects :
  fst (Apply h contentFS ext bundle) = inl relObjects ->
  exists chrt ac bundleVersion rel,
    RegistryV1ToHelmChart contentFS (ext_InstallNamespace ext) [""]
      = inl chrt /\
    ActionClientFor h ext = inl ac /\
    bundle_Version bundle = inl bundleVersion /\
    crdupgradesafety.ManifestObjects
      (release.Manifest rel) (release.Name rel ++ "-release-manifest")
      = inl relObjects /\
    let post := postrendererFor ext bundle bundleVersion in
    let installLabels := installLabelsFor bundle bundleVersion in
    (ac_Install ac (ext_Name ext) (ext_InstallNamespace ext) chrt
                (installOptions installLabels post) = inl rel \/
     ac_Upgrade ac (ext_Name ext) (ext_InstallNamespace ext) chrt
                (upgradeOptions installLabels post) = inl rel \/
     (ac_Get ac (ext_Name ext) = inl rel /\
      ac_Reconcile ac (Some rel) = None)).
Proof.
  assert (Hmanaged : forall applied,
    managedObjects applied = inl relObjects ->
    exists rel,
      applied = inl (Some rel) /\
      crdupgradesafety.ManifestObjects
        (release.Manifest rel) (release.Name rel ++ "-release-manifest")
        = inl relObjects).
  { intros [[rel|]|e]; simpl; try discriminate.
    destruct (crdupgradesafety.ManifestObjects _ _) as [objs|e] eqn:E;
      [| discriminate].
    intros [= ->]. eauto. }
  rewrite Apply_run.
  destruct (RegistryV1ToHelmChart _ _ _) as [chrt|e0]; [| discriminate].
  destruct (ActionClientFor h ext) as [ac|e0]; [| discriminate].
  destruct (bundle_Version bundle) as [bundleVersion|e0]; [| discriminate].
  cbv zeta.
  set (post := postrendererFor ext bundle bundleVersion).
  set (installLabels := installLabelsFor bundle bundleVersion).
  assert (Hstaged : forall state r d gets,
    fst (staged h ac ext chrt installLabels post state r d gets)
      = inl relObjects ->
    exists rel,
      crdupgradesafety.ManifestObjects
        (release.Manifest rel) (release.Name rel ++ "-release-manifest")
        = inl relObjects /\
      ((state = stateNeedsInstall /\
        ac_Install ac (ext_Name ext) (ext_InstallNamespace ext) chrt
                   (installOptions installLabels post) = inl rel) \/
       (state = stateNeedsUpgrade /\
        ac_Upgrade ac (ext_Name ext) (ext_InstallNamespace ext) chrt
                   (upgradeOptions installLabels post) = inl rel) \/
       (state = stateUnchanged /\ r = Some rel /\
        ac_Reconcile ac r = None))).
  { intros state r d gets. unfold staged. cbv zeta.
    destruct (fst (forRangeReturn _ _ empty)); [discriminate |].
    simpl. intro Hobjs. apply Hmanaged in Hobjs.
    destruct Hobjs as [rel [Happlied Hobjs]].
    exists rel. split; [exact Hobjs |].
    rewrite applyRelease_run in Happlied.
    destruct state; simpl in Happlied.
    - left. split; [reflexivity |].
      destruct (ac_Install _ _ _ _ _); [| discriminate]. congruence.
    - right. left. split; [reflexivity |].
      destruct (ac_Upgrade _ _ _ _ _); [| discriminate]. congruence.
    - right. right.
      destruct (ac_Reconcile ac r); [discriminate |].
      injection Happlied as ->. auto.
    - discriminate. }
  destruct (ac_Get ac (ext_Name ext)) as [currentRelease|e0] eqn:Eget.
  - destruct (ac_Upgrade ac _ _ chrt (dryRunUpgrade post))
      as [desiredRelease|e1]; [| discriminate].
    intro Hobjs. apply Hstaged in Hobjs.
    destruct Hobjs as [rel [Hobjs Hhow]].
    exists chrt, ac, bundleVersion, rel. repeat split; auto.
    destruct Hhow as [[_ Hi]|[[_ Hu]|[_ [Hr Hrec]]]]; auto.
    injection Hr as <-. auto.
  - destruct (Is e0 ErrReleaseNotFound); [| discriminate].
    intro Hobjs. apply Hstaged in Hobjs.
    destruct Hobjs as [rel [Hobjs Hhow]].
    exists chrt, ac, bundleVersion, rel. repeat split; auto.
    destruct Hhow as [[_ Hi]|[[_ Hu]|[_ [Hr _]]]]; auto.
    discriminate.
Qed.

End Facts.

Import fake fake_more.

(** X11 on an upgrade of [widgets] that changes the scope, with the
    upgrade-safety preflight on: the upgrade is refused. *)
Lemma Apply_failed_preflight_blocks_the_release_witness :
  fst (Apply helm tt plainExtension bundle) =
    inr (joinError
           [ Errorf "validating upgrade for CRD %q failed: %w" ["widgets"]
               (Some (joinError
                        [ Errorf "%q validation failed: %w" ["NoScopeChange"]
                                 (Some (New "scope changed")) ])) ]) /\
  Forall (fun ev => isMutating ev = false)
         (snd (Apply helm tt plainExtension bundle)).
Proof.
  apply (Apply_failed_preflight_blocks_the_release
           helm tt plainExtension bundle
           (CRDUpgradeSafetyPreflight preflight) (Some widgetsRelease)).
  right. split; [| reflexivity].
  simpl. auto.
Defined.

(** X13 on a release that the dry run renders unchanged. *)
Lemma Apply_reconciles_only_an_unchanged_release_witness :
  exists chrt ac bundleVersion current desired,
    RegistryV1ToHelmChart tt (ext_InstallNamespace extension) [""]
      = inl chrt /\
    ActionClientFor steadyHelm extension = inl ac /\
    bundle_Version bundle = inl bundleVersion /\
    ac_Get ac (ext_Name extension) = inl current /\
    ac_Upgrade ac (ext_Name extension) (ext_InstallNamespace extension) chrt
               (dryRunUpgrade (postrendererFor extension bundle bundleVersion))
      = inl desired /\
    Some currentRelease = Some current /\
    release.Manifest desired = release.Manifest current /\
    release.InfoStatus current <> release.StatusFailed /\
    release.InfoStatus current <> release.StatusSuperseded.
Proof.
  apply (Apply_reconciles_only_an_unchanged_release
           steadyHelm tt extension bundle (Some currentRelease)).
  simpl. auto.
Defined.

(** X14 on the upgrade to [widgets] with the upgrade-safety preflight off:
    the objects are those of the upgraded release. *)
Lemma Apply_returns_the_applied_objects_witness :
  exists chrt ac bundleVersion rel,
    RegistryV1ToHelmChart tt (ext_InstallNamespace extension) [""]
      = inl chrt /\
    ActionClientFor helm extension = inl ac /\
    bundle_Version bundle = inl bundleVersion /\
    crdupgradesafety.ManifestObjects
      (release.Manifest rel) (release.Name rel ++ "-release-manifest")
      = inl [configMap; crdObject widgetsProposed] /\
    let post := postrendererFor extension bundle bundleVersion in
    let installLabels := installLabelsFor bundle bundleVersion in
    (ac_Install ac (ext_Name extension) (ext_InstallNamespace extension) chrt
                (installOptions installLabels post) = inl rel \/
     ac_Upgrade ac (ext_Name extension) (ext_InstallNamespace extension) chrt
                (upgradeOptions installLabels post) = inl rel \/
     (ac_Get ac (ext_Name extension) = inl rel /\
      ac_Reconcile ac (Some rel) = None)).
Proof.
  exact (Apply_returns_the_applied_objects
           helm tt extension bundle [configMap; crdObject widgetsProposed]
           eq_refl).
Defined.

End applier_more.

(** ** More on the resolver *)

Module resolution_more.

Import errors sort resolution errors_facts resolution_facts.

Section Sorting.
Context {A : Type} (less : A -> A -> bool).

Hypothesis less_asymmetric :
  forall a b, less a b = true -> less b a = false.
Hypothesis less_negatively_transitive :
  forall a b c, less a b = false -> less b c = false -> less a c = false.

Local Abbreviation ordered := (ordered less).

Lemma insert_sorted (x : A) (l : list A) :
  StronglySorted ordered l -> StronglySorted ordered (insert less x l).
Proof.
  induction 1 as [|y rest Hrest IH Hy]; simpl.
  - repeat constructor.
  - destruct (less y x) eqn:E.
    + constructor; [exact IH |].
      apply Forall_forall. intros z Hz. apply In_insert in Hz.
      destruct Hz as [->|Hz].
      * now apply less_asymmetric.
      * rewrite Forall_forall in Hy. now apply Hy.
    + constructor; [now constructor |].
      constructor; [exact E |].
      apply Forall_forall. intros z Hz. rewrite Forall_forall in Hy.
      unfold ordered. apply less_negatively_transitive with y; [| exact E].
      now apply Hy.
Qed.

Lemma SliceStable_sorted (l : list A) :
  StronglySorted ordered (SliceStable less l).
Proof.
  unfold SliceStable. induction l as [|x rest IH]; simpl.
  - constructor.
  - now apply insert_sorted.
Qed.

Lemma filter_sorted (keep : A -> bool) (l : list A) :
  StronglySorted ordered l -> StronglySorted ordered (filter keep l).
Proof.
  induction 1 as [|y rest Hrest IH Hy]; simpl; [constructor |].
  destruct (keep y); [| exact IH].
  constructor; [exact IH |].
  apply Forall_forall. intros z Hz. apply filter_In in Hz.
  rewrite Forall_forall in Hy. now apply Hy.
Qed.

End Sorting.

Section Facts.
Context `{Catalog}.

(** [Resolve] once the bundles, the installed bundle and the predicates are
    there. *)
Lemma Resolve_run r ext allBundles installedBundle predicates :
  Bundles r (PackageName ext) = inl allBundles ->
  GetInstalledBundle r ext = inl installedBundle ->
  resolvePredicates ext installedBundle = inl predicates ->
  Resolve r (Some ext) =
    match
      match installedBundle with
      | Some installed =>
          match NewVersion (meta_Version installed) with
          | inr err => inr err
          | inl installedBundleVersion =>
              inl (Sprintf
                     "error upgrading from currently installed version %q: "
                     [SemVer_String installedBundleVersion])
          end
      | None => inl ""
      end
    with
    | inr err => inr err
    | inl upgradeErrorPrefix =>
        match Filter allBundles (And predicates) with
        | [] =>
            inr (notFound upgradeErrorPrefix (PackageName ext)
                          (Version ext) (Channel ext))
        | first :: others =>
            validateResolved (Validations r)
              (hd first (sortResultSet (first :: others)))
        end
    end.
Proof.
  intros Hbundles Hinstalled Hpredicates. unfold Resolve.
  rewrite Hbundles, Hinstalled, Hpredicates.
  destruct installedBundle as [installed|];
    [destruct (NewVersion (meta_Version installed)) |];
    try reflexivity; now destruct (Filter allBundles (And predicates)).
Qed.

(** The sorts keep the result set inhabited. *)
Lemma sortResultSet_cons (first : Bundle) (others : list Bundle) :
  exists b rest, sortResultSet (first :: others) = b :: rest.
Proof.
  destruct (sortResultSet (first :: others)) as [|b rest] eqn:E; [| eauto].
  assert (Hlen : List.length (sortResultSet (first :: others)) =
                 List.length (first :: others))
    by (unfold sortResultSet; now rewrite !length_SliceStable).
  rewrite E in Hlen. discriminate.
Qed.

(** What [Resolve] returns is the first bundle after the sorts. *)
Lemma Resolve_inl r ext allBundles installedBundle predicates b :
  Bundles r (PackageName ext) = inl allBundles ->
  GetInstalledBundle r ext = inl installedBundle ->
  resolvePredicates ext installedBundle = inl predicates ->
  Resolve r (Some ext) = inl b ->
  (exists rest,
      sortResultSet (Filter allBundles (And predicates)) = b :: rest) /\
  forall validation, In validation (Validations r) -> validation b = None.
Proof.
  intros Hbundles Hinstalled Hpredicates.
  rewrite (Resolve_run r ext allBundles installedBundle predicates
             Hbundles Hinstalled Hpredicates).
  destruct (match installedBundle with Some _ => _ | None => _ end)
    as [upgradeErrorPrefix|e]; [| discriminate].
  destruct (Filter allBundles (And predicates)) as [|first others];
    [discriminate |].
  destruct (sortResultSet_cons first others) as [c [rest Hsorted]].
  rewrite Hsorted. simpl hd. intro Hvalidated.
  apply validateResolved_inl in Hvalidated. destruct Hvalidated as [-> Hpassed].
  split; [now exists rest | exact Hpassed].
Qed.

(** The head of a sorted slice is not preceded by any element. *)
Lemma head_is_least (less : Bundle -> Bundle -> bool) (b : Bundle)
      (rest : list Bundle) :
  (forall x y, less x y = true -> less y x = false) ->
  StronglySorted (ordered less) (b :: rest) ->
  forall c, In c (b :: rest) -> less c b = false.
Proof.
  intros Hasym Hsorted c [<-|Hc].
  - destruct (less b b) eqn:E; [| reflexivity].
    now rewrite (Hasym b b E) in E.
  - inversion Hsorted as [|? ? _ Hall]; subst.
    rewrite Forall_forall in Hall. now apply Hall.
Qed.

(** X15: when [ByVersion] is a strict weak order, the bundle [Resolve]
    returns is first by version among the bundles of the result set that
    share its deprecation status: none of them sorts before it. *)
Theorem Resolve_returns_the_first_by_version
        r ext allBundles installedBundle predicates b :
  (forall x y, ByVersion x y = true -> ByVersion y x = false) ->
  (forall x y z, ByVersion x y = false -> ByVersion y z = false ->
                 ByVersion x z = false) ->
  Bundles r (PackageName ext) = inl allBundles ->
  GetInstalledBundle r ext = inl installedBundle ->
  resolvePredicates ext installedBundle = inl predicates ->
  Resolve r (Some ext) = inl b ->
  forall c,
    In c (Filter allBundles (And predicates)) ->
    IsDeprecated c = IsDeprecated b ->
    ByVersion c b = false.
Proof.
  intros Hasym Hneg Hbundles Hinstalled Hpredicates Hresolved c Hc Hstatus.
  destruct (Resolve_inl r ext allBundles installedBundle predicates b
              Hbundles Hinstalled Hpredicates Hresolved) as [[rest Hsorted] _].
  set (resultSet := Filter allBundles (And predicates)) in *.
  rewrite sortResultSet_split in Hsorted.
  pose proof (SliceStable_sorted ByVersion Hasym Hneg resultSet) as Hbv.
  assert (Hcin : In c (SliceStable ByVersion resultSet))
    by now apply In_SliceStable.
  destruct (filter (fun x => negb (IsDeprecated x))
                   (SliceStable ByVersion resultSet)) as [|b' fresh] eqn:Efresh.
  - simpl in Hsorted.
    assert (Hold : StronglySorted (ordered ByVersion)
                     (filter IsDeprecated (SliceStable ByVersion resultSet)))
      by now apply filter_sorted.
    rewrite Hsorted in Hold.
    apply (head_is_least ByVersion b rest Hasym Hold).
    rewrite <- Hsorted. apply filter_In. split; [exact Hcin |].
    rewrite Hstatus.
    assert (Hb : In b (filter IsDeprecated (SliceStable ByVersion resultSet)))
      by (rewrite Hsorted; now left).
    now apply filter_In in Hb.
  - injection Hsorted as -> _.
    assert (Hfresh : StronglySorted (ordered ByVersion)
                       (filter (fun x => negb (IsDeprecated x))
                               (SliceStable ByVersion resultSet)))
      by now apply filter_sorted.
    rewrite Efresh in Hfresh.
    apply (head_is_least ByVersion b fresh Hasym Hfresh).
    rewrite <- Efresh. apply filter_In. split; [exact Hcin |].
    rewrite Hstatus.
    assert (Hb : In b (filter (fun x => negb (IsDeprecated x))
                              (SliceStable ByVersion resultSet)))
      by (rewrite Efresh; now left).
    now apply filter_In in Hb.
Qed.

(** X16: [Resolve] validates the first bundle after the sorts only: when a
    validation rejects it, [Resolve] returns the error of the first
    validation that does, wrapped, and falls back on no other bundle of the
    result set, whether a bundle is installed or not. *)
Theorem Resolve_does_not_fall_back
        r ext allBundles installedBundle predicates first rest
        passing validation others e :
  Bundles r (PackageName ext) = inl allBundles ->
  GetInstalledBundle r ext = inl installedBundle ->
  resolvePredicates ext installedBundle = inl predicates ->
  (forall installed,
      installedBundle = Some installed ->
      exists v, NewVersion (meta_Version installed) = inl v) ->
  sortResultSet (Filter allBundles (And predicates)) = first :: rest ->
  Validations r = passing ++ validation :: others ->
  (forall v, In v passing -> v first = None) ->
  validation first = Some e ->
  Resolve r (Some ext) =
    inr (Errorf "validating resolved bundle: %w" [] (Some e)).
Proof.
  intros Hbundles Hinstalled Hpredicates Hparses Hsorted Hvalidations
         Hpassing Hfails.
  rewrite (Resolve_run r ext allBundles installedBundle predicates
             Hbundles Hinstalled Hpredicates).
  assert (Hprefix : exists upgradeErrorPrefix,
    match installedBundle with
    | Some installed =>
        match NewVersion (meta_Version installed) with
        | inr err => inr err
        | inl installedBundleVersion =>
            inl (Sprintf
                   "error upgrading from currently installed version %q: "
                   [SemVer_String installedBundleVersion])
        end
    | None => inl ""
    end = inl (B := error) upgradeErrorPrefix).
  { destruct installedBundle as [installed|]; [| eauto].
    destruct (Hparses installed eq_refl) as [v ->]. eauto. }
  destruct Hprefix as [upgradeErrorPrefix ->].
  destruct (Filter allBundles (And predicates)) as [|candidate more];
    [discriminate Hsorted |].
  rewrite Hsorted, Hvalidations. simpl hd.
  clear Hvalidations. induction passing as [|v vs IH]; simpl.
  - now rewrite Hfails.
  - rewrite (Hpassing v) by now left.
    apply IH. intros w Hw. apply Hpassing. now right.
Qed.

Lemma resolvePredicates_ignore_policy ext installedBundle :
  UpgradeConstraintPolicy ext = "Ignore" ->
  resolvePredicates ext installedBundle = resolvePredicates ext None.
Proof.
  intro Hpolicy. unfold resolvePredicates.
  destruct installedBundle as [installed|]; [| reflexivity].
  unfold UpgradeConstraintPolicyIgnore. rewrite Hpolicy. simpl.
  destruct (negb (String.eqb (Version ext) ""));
    [destruct (NewConstraint (Version ext)) |]; reflexivity.
Qed.

(** X17: under the upgrade constraint policy [Ignore] an installed bundle,
    once its version parses, has no say in the choice: [Resolve] returns a
    bundle exactly when the same resolver with nothing installed returns
    it. *)
Theorem Resolve_ignore_policy r ext installed installedBundleVersion b :
  UpgradeConstraintPolicy ext = "Ignore" ->
  GetInstalledBundle r ext = inl (Some installed) ->
  NewVersion (meta_Version installed) = inl installedBundleVersion ->
  Resolve r (Some ext) = inl b <->
  Resolve (mkResolver (Bundles r) (fun _ => inl None) (Validations r))
          (Some ext) = inl b.
Proof.
  intros Hpolicy Hinstalled Hversion. unfold Resolve. cbn [Bundles
    GetInstalledBundle Validations].
  destruct (Bundles r (PackageName ext)) as [allBundles|e]; [| tauto].
  rewrite Hinstalled.
  rewrite (resolvePredicates_ignore_policy ext (Some installed) Hpolicy).
  destruct (resolvePredicates ext None) as [predicates|e]; [| tauto].
  cbv zeta. rewrite Hversion.
  destruct (Filter allBundles (And predicates)); [| tauto].
  split; discriminate.
Qed.

(** X18: the version of the installed bundle serves the error prefix only,
    yet when it does not parse [Resolve] returns the error of the parse,
    whatever the policy and even when the result set has a bundle that
    passes. *)
Theorem Resolve_needs_the_installed_version
        r ext allBundles installed predicates e :
  Bundles r (PackageName ext) = inl allBundles ->
  GetInstalledBundle r ext = inl (Some installed) ->
  resolvePredicates ext (Some installed) = inl predicates ->
  NewVersion (meta_Version installed) = inr e ->
  Resolve r (Some ext) = inr e.
Proof.
  intros Hbundles Hinstalled Hpredicates Hversion.
  rewrite (Resolve_run r ext allBundles (Some installed) predicates
             Hbundles Hinstalled Hpredicates).
  now rewrite Hversion.
Qed.

(** X19: when no bundle passes the predicates, [Resolve] returns no bundle
    but an error that names the package, the version range if one was given
    and the channel if one was given, behind the prefix that names the
    installed version when a bundle is installed. *)
Theorem Resolve_empty_result_set
        r ext allBundles installedBundle predicates installedBundleVersion :
  Bundles r (PackageName ext) = inl allBundles ->
  GetInstalledBundle r ext = inl installedBundle ->
  resolvePredicates ext installedBundle = inl predicates ->
  (forall installed,
      installedBundle = Some installed ->
      NewVersion (meta_Version installed) = inl installedBundleVersion) ->
  Filter allBundles (And predicates) = [] ->
  let upgradeErrorPrefix :=
    match installedBundle with
    | Some _ =>
        Sprintf "error upgrading from currently installed version %q: "
                [SemVer_String installedBundleVersion]
    | None => ""
    end in
  Resolve r (Some ext) =
    inr (match String.eqb (Version ext) "", String.eqb (Channel ext) "" with
         | false, false =>
             Errorf "%sno package %q matching version %q in channel %q found"
                    [upgradeErrorPrefix; PackageName ext; Version ext;
                     Channel ext] None
         | false, true =>
             Errorf "%sno package %q matching version %q found"
                    [upgradeErrorPrefix; PackageName ext; Version ext] None
         | true, false =>
             Errorf "%sno package %q in channel %q found"
                    [upgradeErrorPrefix; PackageName ext; Channel ext] None
         | true, true =>
             Errorf "%sno package %q found"
                    [upgradeErrorPrefix; PackageName ext] None
         end).
Proof.
  intros Hbundles Hinstalled Hpredicates Hversion Hempty.
  rewrite (Resolve_run r ext allBundles installedBundle predicates
             Hbundles Hinstalled Hpredicates).
  rewrite Hempty. unfold notFound.
  destruct installedBundle as [installed|].
  - rewrite (Hversion installed eq_refl).
    destruct (String.eqb (Version ext) ""), (String.eqb (Channel ext) "");
      reflexivity.
  - destruct (String.eqb (Version ext) ""), (String.eqb (Channel ext) "");
      reflexivity.
Qed.

End Facts.

Section Dependencies.
Context `{BundleFields}.

Lemma Has_unsupported (type : string) :
  Has unsupportedProps type = true <->
  type = TypePackageRequired \/ type = TypeGVKRequired \/
  type = TypeConstraint.
Proof.
  unfold Has, unsupportedProps. simpl.
  rewrite orb_false_r, !orb_true_iff, !String.eqb_eq. tauto.
Qed.

Lemma firstUnsupported_None name properties :
  firstUnsupported name properties = None <->
  forall prop, In prop properties ->
               Has unsupportedProps (prop_Type prop) = false.
Proof.
  induction properties as [|prop rest IH]; cbn [firstUnsupported In].
  - split; [| intros _; reflexivity]. intros _ prop Hin. contradiction.
  - destruct (Has unsupportedProps (prop_Type prop)) eqn:E.
    + split; [discriminate |]. intro Hall.
      rewrite (Hall prop (or_introl eq_refl)) in E. discriminate.
    + rewrite IH. split.
      * intros Hall q [<-|Hq]; auto.
      * intros Hall q Hq. apply Hall. now right.
Qed.

Lemma firstUnsupported_Some name properties e :
  firstUnsupported name properties = Some e ->
  exists before prop after,
    properties = before ++ prop :: after /\
    (forall q, In q before -> Has unsupportedProps (prop_Type q) = false) /\
    Has unsupportedProps (prop_Type prop) = true /\
    e = Errorf
          "bundle %q has a dependency declared via property %q which is currently not supported"
          [name; prop_Type prop] None.
Proof.
  induction properties as [|prop rest IH]; cbn [firstUnsupported];
    [discriminate |].
  destruct (Has unsupportedProps (prop_Type prop)) eqn:E.
  - intros [= <-]. exists [], prop, rest. repeat split; auto. intros ? [].
  - intro Hrest. destruct (IH Hrest) as [before [q [after [-> [Hb [Hq ->]]]]]].
    exists (prop :: before), q, after. repeat split; auto.
    intros x [<-|Hx]; auto.
Qed.

(** X20: [NoDependencyValidation] accepts a bundle exactly when none of its
    properties is of the package-required, GVK-required or constraint type;
    otherwise its error names the bundle and the type of the first such
    property. *)
Theorem NoDependencyValidation_rejects_dependencies (bundle : Bundle) :
  (NoDependencyValidation bundle = None <->
   forall prop, In prop (Properties bundle) ->
     prop_Type prop <> TypePackageRequired /\
     prop_Type prop <> TypeGVKRequired /\
     prop_Type prop <> TypeConstraint) /\
  (forall e,
      NoDependencyValidation bundle = Some e ->
      exists before prop after,
        Properties bundle = before ++ prop :: after /\
        (forall q, In q before ->
           prop_Type q <> TypePackageRequired /\
           prop_Type q <> TypeGVKRequired /\
           prop_Type q <> TypeConstraint) /\
        (prop_Type prop = TypePackageRequired \/
         prop_Type prop = TypeGVKRequired \/
         prop_Type prop = TypeConstraint) /\
        e = Errorf
              "bundle %q has a dependency declared via property %q which is currently not supported"
              [BundleName bundle; prop_Type prop] None).
Proof.
  assert (Hfalse : forall type,
    Has unsupportedProps type = false <->
    type <> TypePackageRequired /\ type <> TypeGVKRequired /\
    type <> TypeConstraint).
  { intro type. rewrite <- not_true_iff_false, Has_unsupported. tauto. }
  unfold NoDependencyValidation. split.
  - rewrite firstUnsupported_None. split; intros Hall prop Hin;
      apply Hfalse; auto.
  - intros e He. apply firstUnsupported_Some in He.
    destruct He as [before [prop [after [Hsplit [Hb [Hp ->]]]]]].
    exists before, prop, after. repeat split; auto.
    + now apply Hfalse, Hb.
    + now apply Hfalse, Hb.
    + now apply Hfalse, Hb.
    + now apply Has_unsupported.
Qed.

(** X21: a resolver that has [NoDependencyValidation] among its validations
    never returns a bundle with a property of a dependency type. *)
Theorem Resolve_with_NoDependencyValidation
        r ext allBundles installedBundle predicates b :
  In NoDependencyValidation (Validations r) ->
  Bundles r (PackageName ext) = inl allBundles ->
  GetInstalledBundle r ext = inl installedBundle ->
  resolvePredicates ext installedBundle = inl predicates ->
  Resolve r (Some ext) = inl b ->
  forall prop, In prop (Properties b) ->
    prop_Type prop <> TypePackageRequired /\
    prop_Type prop <> TypeGVKRequired /\
    prop_Type prop <> TypeConstraint.
Proof.
  intros Hin Hbundles Hinstalled Hpredicates Hresolved.
  destruct (Resolve_inl r ext allBundles installedBundle predicates b
              Hbundles Hinstalled Hpredicates Hresolved) as [_ Hpassed].
  specialize (Hpassed NoDependencyValidation Hin).
  unfold NoDependencyValidation in Hpassed.
  rewrite firstUnsupported_None in Hpassed.
  intros prop Hprop. specialize (Hpassed prop Hprop).
  rewrite <- not_true_iff_false, Has_unsupported in Hpassed. tauto.
Qed.

End Dependencies.

Import fake fake_more.

Lemma later_first_asymmetric (x y : CatalogBundle) :
  Nat.ltb (cb_Version y) (cb_Version x) = true ->
  Nat.ltb (cb_Version x) (cb_Version y) = false.
Proof. rewrite Nat.ltb_lt, Nat.ltb_ge. lia. Qed.

Lemma later_first_negatively_transitive (x y z : CatalogBundle) :
  Nat.ltb (cb_Version y) (cb_Version x) = false ->
  Nat.ltb (cb_Version z) (cb_Version y) = false ->
  Nat.ltb (cb_Version z) (cb_Version x) = false.
Proof. rewrite !Nat.ltb_ge. lia. Qed.

(** X15 on the catalog with [widgets] 1, 2 and 3: version 2 is resolved, and
    version 1, not deprecated either, does not sort before it. *)
Lemma Resolve_returns_the_first_by_version_witness :
  Resolve resolver (Some wanted) = inl widgets2 /\
  ByVersion widgets1 widgets2 = false.
Proof.
  split; [reflexivity |].
  apply (Resolve_returns_the_first_by_version
           resolver wanted [widgets1; gadgets1; widgets2; widgets3] None
           [WithPackageName "widgets"; InChannel "stable"] widgets2
           later_first_asymmetric later_first_negatively_transitive
           eq_refl eq_refl eq_refl eq_refl widgets1).
  - simpl. now left.
  - reflexivity.
Defined.

(** X16 on the same catalog with version 1 installed: version 2 comes first
    and declares a dependency; version 1 would pass, and is not resolved. *)
Lemma Resolve_does_not_fall_back_witness :
  NoDependencyValidation widgets1 = None /\
  Resolve carefulUpgrader (Some wanted) =
    inr (Errorf "validating resolved bundle: %w" []
           (Some (Errorf
                    "bundle %q has a dependency declared via property %q which is currently not supported"
                    ["widgets.v2"; "olm.package.required"] None))).
Proof.
  split; [reflexivity |].
  apply (Resolve_does_not_fall_back
           carefulUpgrader wanted [widgets1; gadgets1; widgets2; widgets3]
           (Some (mkBundleMetadata "widgets.v1" "1.0.0"))
           [WithPackageName "widgets"; InChannel "stable"; fun _ => true]
           widgets2 [widgets1; widgets3] [] NoDependencyValidation []
           _ eq_refl eq_refl eq_refl).
  - intros installed _. now exists 1.
  - reflexivity.
  - reflexivity.
  - intros v [].
  - reflexivity.
Defined.

(** X17 with version 1 of [widgets] installed. *)
Lemma Resolve_ignore_policy_witness :
  Resolve upgradingResolver (Some wantedAnyway) = inl widgets2 <->
  Resolve resolver (Some wantedAnyway) = inl widgets2.
Proof.
  exact (Resolve_ignore_policy
           upgradingResolver wantedAnyway
           (mkBundleMetadata "widgets.v1" "1.0.0") 1 widgets2
           eq_refl eq_refl eq_refl).
Defined.

(** X18 on a release labelled with the version [unknown], under the policy
    [Ignore]. *)
Lemma Resolve_needs_the_installed_version_witness :
  @Resolve strictCatalog unlabelledResolver (Some wantedAnyway) =
    inr (New "Invalid Semantic Version").
Proof.
  exact (@Resolve_needs_the_installed_version strictCatalog
           unlabelledResolver wantedAnyway
           [widgets1; gadgets1; widgets2; widgets3]
           (mkBundleMetadata "widgets.v1" "unknown")
           [@WithPackageName strictCatalog "widgets";
            @InChannel strictCatalog "stable"]
           (New "Invalid Semantic Version")
           eq_refl eq_refl eq_refl eq_refl).
Defined.

(** X19 on a package the catalog does not have. *)
Lemma Resolve_empty_result_set_witness :
  Resolve resolver (Some wantedSprockets) =
    inr (Errorf "%sno package %q in channel %q found"
                [""; "sprockets"; "stable"] None).
Proof.
  refine (Resolve_empty_result_set
            resolver wantedSprockets [widgets1; gadgets1; widgets2; widgets3]
            None [WithPackageName "sprockets"; InChannel "stable"] 1
            eq_refl eq_refl eq_refl _ eq_refl).
  intros installed Hinstalled. discriminate Hinstalled.
Defined.

(** X21 on the package [gadgets]: its only bundle declares no dependency. *)
Lemma Resolve_with_NoDependencyValidation_witness :
  Resolve carefulResolver (Some wantedGadgets) = inl gadgets1 /\
  forall prop, In prop (Properties gadgets1) ->
    prop_Type prop <> TypePackageRequired /\
    prop_Type prop <> TypeGVKRequired /\
    prop_Type prop <> TypeConstraint.
Proof.
  split; [reflexivity |].
  apply (Resolve_with_NoDependencyValidation
           carefulResolver wantedGadgets
           [widgets1; gadgets1; widgets2; widgets3] None
           [WithPackageName "gadgets"] gadgets1).
  - simpl. now left.
  - reflexivity.
  - reflexivity.
  - reflexivity.
  - reflexivity.
Defined.

End resolution_more.

(** ** The content manager *)

Module contentmanager_facts.

Import errors stmt contentmanager errors_facts stmt_facts.

Section Facts.
Context `{Runtime} `{applier.Deps}.

(** The loop over objects whose watches are all established. *)
Lemma watch_loop_passes i ctrl ce scheme c (objs : list Object)
      (s : Store Event) :
  (forall obj, In obj objs -> Watch ctrl (sourceFor i ce scheme c obj) = None) ->
  forRangeReturn objs (watchObject i ctrl ce scheme c) s =
    (None,
     mkStore (errs s)
             (calls s ++
              map (fun obj => ControllerWatch (sourceFor i ce scheme c obj))
                  objs)).
Proof.
  revert s. induction objs as [|obj rest IH]; intros s Hall; simpl.
  - unfold ret. destruct s. simpl. now rewrite app_nil_r.
  - pose proof (Hall obj (or_introl eq_refl)) as Hobj.
    unfold sourceFor in Hobj.
    unfold bind at 1. unfold watchObject at 1. unfold bind, call. cbv zeta.
    rewrite Hobj. unfold ret.
    rewrite IH by (intros o Ho; apply Hall; now right).
    simpl. now rewrite <- app_assoc.
Qed.

(** The loop up to the first watch that is refused. *)
Lemma watch_loop_fails i ctrl ce scheme c (before : list Object) obj
      (after : list Object) err (s : Store Event) :
  (forall o, In o before -> Watch ctrl (sourceFor i ce scheme c o) = None) ->
  Watch ctrl (sourceFor i ce scheme c obj) = Some err ->
  forRangeReturn (before ++ obj :: after) (watchObject i ctrl ce scheme c) s =
    (Some (Errorf
             "creating watch for ClusterExtension %q managed resource %s: %w"
             [Name ce; GroupVersionKind_String (GroupVersionKind obj)]
             (Some err)),
     mkStore (errs s)
             (calls s ++
              map (fun o => ControllerWatch (sourceFor i ce scheme c o))
                  (before ++ [obj]))).
Proof.
  intros Hbefore Hobj. revert s.
  induction before as [|o rest IH]; intro s; simpl.
  - unfold sourceFor in Hobj.
    unfold bind at 1. unfold watchObject at 1. unfold bind, call. cbv zeta.
    rewrite Hobj. reflexivity.
  - pose proof (Hbefore o (or_introl eq_refl)) as Ho.
    unfold sourceFor in Ho.
    unfold bind at 1. unfold watchObject at 1. unfold bind, call. cbv zeta.
    rewrite Ho. unfold ret.
    rewrite IH by (intros o' Ho'; apply Hbefore; now right).
    simpl. now rewrite <- app_assoc.
Qed.

(** The loop starts no cache and cancels none. *)
Lemma watch_loop_is_quiet i ctrl ce scheme c (objs : list Object)
      (s : Store Event) :
  Forall (fun ev => isStartOrCancel ev = false) (calls s) ->
  Forall (fun ev => isStartOrCancel ev = false)
         (calls (snd (forRangeReturn objs (watchObject i ctrl ce scheme c) s))).
Proof.
  revert s. induction objs as [|obj rest IH]; intros s Hs; simpl.
  - exact Hs.
  - unfold bind at 1. unfold watchObject at 1. unfold bind, call. cbv zeta.
    destruct (Watch ctrl _) as [err|]; unfold ret.
    + simpl. apply Forall_app. split; [exact Hs | now constructor].
    + apply IH. simpl. apply Forall_app. split; [exact Hs | now constructor].
Qed.

(** [undefinedKind] in words. *)
Lemma undefinedKind_true (obj : Object) :
  undefinedKind obj = true <->
  schema.Kind (GroupVersionKind obj) = "" \/
  schema.Version (GroupVersionKind obj) = "".
Proof.
  unfold undefinedKind. now rewrite orb_true_iff, !String.eqb_eq.
Qed.

Lemma undefinedKind_false (obj : Object) :
  undefinedKind obj = false <->
  schema.Kind (GroupVersionKind obj) <> "" /\
  schema.Version (GroupVersionKind obj) <> "".
Proof.
  unfold undefinedKind. now rewrite orb_false_iff, !String.eqb_neq.
Qed.

(** The only error of the loop of [buildScheme]. *)
Lemma addObject_inr scheme obj e :
  addObject scheme obj = inr e ->
  undefinedKind obj = true /\
  e = errors.New "object Kind or Version is not defined".
Proof.
  unfold addObject. cbv zeta. fold (undefinedKind obj).
  destruct (undefinedKind obj).
  - now intros [= <-].
  - destruct (negb _); discriminate.
Qed.

Lemma addObject_undefined scheme obj :
  undefinedKind obj = true ->
  addObject scheme obj =
    inr (errors.New "object Kind or Version is not defined").
Proof.
  intro Hobj. unfold addObject. cbv zeta. fold (undefinedKind obj).
  now rewrite Hobj.
Qed.

Lemma addObjects_undefined scheme objs obj :
  In obj objs ->
  undefinedKind obj = true ->
  addObjects scheme objs =
    inr (errors.New "object Kind or Version is not defined").
Proof.
  revert scheme. induction objs as [|o rest IH]; intros scheme Hin Hobj;
    [destruct Hin |].
  simpl. destruct (addObject scheme o) as [next|e] eqn:E.
  - destruct Hin as [->|Hin]; [| now apply IH].
    rewrite addObject_undefined in E by exact Hobj. discriminate.
  - apply addObject_inr in E. now destruct E as [_ ->].
Qed.

Lemma addObjects_defined scheme objs :
  (forall obj, In obj objs -> undefinedKind obj = false) ->
  exists built, addObjects scheme objs = inl built.
Proof.
  revert scheme. induction objs as [|o rest IH]; intros scheme Hall; simpl.
  - now exists scheme.
  - destruct (addObject scheme o) as [next|e] eqn:E.
    + apply IH. intros obj Hobj. apply Hall. now right.
    + apply addObject_inr in E. destruct E as [E _].
      rewrite (Hall o (or_introl eq_refl)) in E. discriminate.
Qed.

(** X22: a call of [ManageContent] that returns an error leaves the
    instance, and so its map of caches, as it was; it has started no cache
    and has not cancelled the one in place for the extension. *)
Theorem ManageContent_failure_changes_nothing i ctx ctrl ce objs e :
  fst (fst (ManageContent i ctx ctrl ce objs)) = Some e ->
  snd (fst (ManageContent i ctx ctrl ce objs)) = i /\
  forall ev, In ev (snd (ManageContent i ctx ctrl ce objs)) ->
             isStartOrCancel ev = false.
Proof.
  unfold ManageContent.
  destruct (rcm i ce (baseCfg i)) as [cfg|err]; simpl.
  - destruct (buildScheme objs) as [scheme|err]; simpl.
    + destruct (cache_New cfg scheme _) as [c|err]; simpl.
      * pose proof (watch_loop_is_quiet i ctrl ce scheme c objs empty
                      (Forall_nil _)) as Hloop.
        destruct (forRangeReturn objs (watchObject i ctrl ce scheme c) empty)
          as [[failed|] s]; simpl in *.
        -- intros _. split; [reflexivity |].
           intros ev [<-|Hin]; [reflexivity |].
           rewrite Forall_forall in Hloop. now apply Hloop.
        -- destruct (WithCancel ctx). discriminate.
      * intros _. split; [reflexivity |]. intros ev [<-|[]]. reflexivity.
    + intros _. split; [reflexivity |]. intros ev [].
  - intros _. split; [reflexivity |]. intros ev [].
Qed.

(** X23: when the configuration, the scheme and the cache are obtained and
    every watch is established, [ManageContent] returns nil after these
    calls, in this order: the cache is created with the scheme built from
    the objects and a selector on the owner labels of the extension, one
    watch is set per object in the order given, the cache in place for the
    extension, if any, is cancelled, and the new cache is started in a
    cancellable context.  The map then holds the new cache and its cancel
    function under the extension's name and is unchanged for every other
    name. *)
Theorem ManageContent_watches_then_starts
        i ctx ctrl ce objs cfg scheme c :
  rcm i ce (baseCfg i) = inl cfg ->
  buildScheme objs = inl scheme ->
  cache_New cfg scheme (AsSelector (tgtLabels ce)) = inl c ->
  (forall obj, In obj objs ->
               Watch ctrl (sourceFor i ce scheme c obj) = None) ->
  let result := ManageContent i ctx ctrl ce objs in
  fst (fst result) = None /\
  snd result =
    CacheNew cfg scheme
             (AsSelector
                [ (applier.OwnerKindKey, applier.ClusterExtensionKind);
                  (applier.OwnerNameKey, Name ce) ]) ::
    map (fun obj =>
           ControllerWatch
             (mkKind c obj (mkEnqueueRequestForOwner scheme (mapper i) ce)))
        objs ++
    match extensionCaches i (Name ce) with
    | Some data => [CancelCall (Cancel data)]
    | None => []
    end ++
    [CacheStart c (fst (WithCancel ctx))] /\
  extensionCaches (snd (fst result)) (Name ce) =
    Some (mkExtensionCacheData c (snd (WithCancel ctx))) /\
  forall name, name <> Name ce ->
    extensionCaches (snd (fst result)) name = extensionCaches i name.
Proof.
  intros Hcfg Hscheme Hcache Hwatch. unfold ManageContent.
  rewrite Hcfg, Hscheme. cbv zeta. rewrite Hcache.
  rewrite (watch_loop_passes i ctrl ce scheme c objs empty Hwatch).
  destruct (WithCancel ctx) as [started cancel]. simpl. repeat split.
  - now rewrite String.eqb_refl.
  - intros name Hname. apply String.eqb_neq in Hname. now rewrite Hname.
Qed.

(** X24: when the watch of an object is refused, [ManageContent] returns the
    controller's error wrapped with the extension's name and the object's
    kind; the watches of the objects before it were set and are left in
    place, no watch is tried for the objects after it, and the new cache is
    neither started nor recorded. *)
Theorem ManageContent_refused_watch
        i ctx ctrl ce before obj after cfg scheme c err :
  rcm i ce (baseCfg i) = inl cfg ->
  buildScheme (before ++ obj :: after) = inl scheme ->
  cache_New cfg scheme (AsSelector (tgtLabels ce)) = inl c ->
  (forall o, In o before -> Watch ctrl (sourceFor i ce scheme c o) = None) ->
  Watch ctrl (sourceFor i ce scheme c obj) = Some err ->
  ManageContent i ctx ctrl ce (before ++ obj :: after) =
    (Some (Errorf
             "creating watch for ClusterExtension %q managed resource %s: %w"
             [Name ce; GroupVersionKind_String (GroupVersionKind obj)]
             (Some err)),
     i,
     CacheNew cfg scheme (AsSelector (tgtLabels ce)) ::
     map (fun o => ControllerWatch (sourceFor i ce scheme c o))
         (before ++ [obj])).
Proof.
  intros Hcfg Hscheme Hcache Hbefore Hobj. unfold ManageContent.
  rewrite Hcfg, Hscheme. cbv zeta. rewrite Hcache.
  now rewrite (watch_loop_fails i ctrl ce scheme c before obj after err empty
                 Hbefore Hobj).
Qed.

(** X25: [RemoveManagedContent] undoes a successful [ManageContent]: it
    returns nil, calls the cancel function of the context the cache was
    started in and nothing else, and leaves no entry for the extension; the
    entries of the other extensions are those from before
    [ManageContent]. *)
Theorem RemoveManagedContent_after_ManageContent i ctx ctrl ce objs :
  fst (fst (ManageContent i ctx ctrl ce objs)) = None ->
  let managed := snd (fst (ManageContent i ctx ctrl ce objs)) in
  let removed := RemoveManagedContent managed ce in
  fst (fst removed) = None /\
  snd removed = [CancelCall (snd (WithCancel ctx))] /\
  extensionCaches (snd (fst removed)) (Name ce) = None /\
  forall name, name <> Name ce ->
    extensionCaches (snd (fst removed)) name = extensionCaches i name.
Proof.
  unfold ManageContent.
  destruct (rcm i ce (baseCfg i)) as [cfg|err]; [| discriminate].
  destruct (buildScheme objs) as [scheme|err]; [| discriminate].
  cbv zeta.
  destruct (cache_New cfg scheme _) as [c|err]; [| discriminate].
  destruct (forRangeReturn objs (watchObject i ctrl ce scheme c) empty)
    as [[failed|] s]; [discriminate |].
  destruct (WithCancel ctx) as [started cancel]. intros _.
  unfold RemoveManagedContent. simpl. rewrite String.eqb_refl. simpl.
  rewrite String.eqb_refl. repeat split.
  intros name Hname. apply String.eqb_neq in Hname. now rewrite Hname.
Qed.

(** X26: once the controller's own types are registered, [buildScheme]
    returns a scheme exactly when every object has a kind and a version; a
    single object without one, wherever it stands, makes it return the
    error [object Kind or Version is not defined] and no scheme. *)
Theorem buildScheme_needs_kind_and_version objs registered :
  AddToScheme NewScheme = inl registered ->
  ((exists scheme, buildScheme objs = inl scheme) <->
   forall obj, In obj objs ->
     schema.Kind (GroupVersionKind obj) <> "" /\
     schema.Version (GroupVersionKind obj) <> "") /\
  forall e, buildScheme objs = inr e ->
            e = errors.New "object Kind or Version is not defined".
Proof.
  intro Hregistered. unfold buildScheme. rewrite Hregistered. split.
  - split.
    + intros [scheme Hbuilt] obj Hobj. apply undefinedKind_false.
      destruct (undefinedKind obj) eqn:E; [| reflexivity].
      rewrite (addObjects_undefined registered objs obj Hobj E) in Hbuilt.
      discriminate.
    + intro Hall. apply addObjects_defined.
      intros obj Hobj. apply undefinedKind_false. now apply Hall.
  - intros e He.
    destruct (forallb (fun obj => negb (undefinedKind obj)) objs) eqn:Eall.
    + rewrite forallb_forall in Eall.
      destruct (addObjects_defined registered objs) as [built Hbuilt].
      * intros obj Hobj. apply negb_true_iff. now apply Eall.
      * rewrite Hbuilt in He. discriminate.
    + assert (Hsome : exists obj, In obj objs /\ undefinedKind obj = true).
      { clear He. induction objs as [|o rest IH]; [discriminate |].
        simpl in Eall. destruct (undefinedKind o) eqn:Eo.
        - exists o. split; [now left | exact Eo].
        - destruct (IH Eall) as [obj [Hin Hobj]].
          exists obj. split; [now right | exact Hobj]. }
      destruct Hsome as [obj [Hin Hobj]].
      rewrite (addObjects_undefined registered objs obj Hin Hobj) in He.
      now injection He as <-.
Qed.

(** X27: over a scheme registry that recognizes a kind once it is added and
    forgets none, the scheme [buildScheme] returns recognizes the kind of
    every object it was given. *)
Theorem buildScheme_recognizes_every_object objs scheme :
  (forall s gvk known,
      Recognizes (AddKnownTypeWithName s gvk known) gvk = true) ->
  (forall s gvk known g,
      Recognizes s g = true ->
      Recognizes (AddKnownTypeWithName s gvk known) g = true) ->
  (forall s gv g,
      Recognizes s g = true -> Recognizes (AddToGroupVersion s gv) g = true) ->
  buildScheme objs = inl scheme ->
  forall obj, In obj objs -> Recognizes scheme (GroupVersionKind obj) = true.
Proof.
  intros Hadded Hkept Hgroup. unfold buildScheme.
  destruct (AddToScheme NewScheme) as [registered|err]; [| discriminate].
  assert (Hstep : forall s obj next,
            addObject s obj = inl next ->
            Recognizes next (GroupVersionKind obj) = true /\
            forall g, Recognizes s g = true -> Recognizes next g = true).
  { intros s obj next. unfold addObject. cbv zeta.
    destruct (_ || _); [discriminate |].
    destruct (Recognizes s (GroupVersionKind obj)) eqn:Eknown; simpl.
    - intros [= <-]. split; [exact Eknown | auto].
    - intros [= <-]. split.
      + apply Hgroup, Hkept, Hadded.
      + intros g Hg. now apply Hgroup, Hkept, Hkept. }
  assert (Hloop : forall objs s built,
            addObjects s objs = inl built ->
            (forall g, Recognizes s g = true -> Recognizes built g = true) /\
            forall obj, In obj objs ->
                        Recognizes built (GroupVersionKind obj) = true).
  { clear objs. induction objs as [|o rest IH]; intros s built; simpl.
    - intros [= <-]. split; [auto | intros obj []].
    - destruct (addObject s o) as [next|e] eqn:E; [| discriminate].
      intro Hrest. destruct (Hstep s o next E) as [Ho Hnext].
      destruct (IH next built Hrest) as [Hbuilt Hall].
      split; [auto |].
      intros obj [<-|Hobj]; [now apply Hbuilt | now apply Hall]. }
  intro Hbuilt. exact (proj2 (Hloop objs registered scheme Hbuilt)).
Qed.

End Facts.

Import fake fake_more.

(** X22 on a controller that refuses to watch [Secret]. *)
Lemma ManageContent_failure_changes_nothing_witness :
  snd (fst (ManageContent contentInstance "root" contentController
              contentExtension [deployment; secret])) = contentInstance /\
  forall ev,
    In ev (snd (ManageContent contentInstance "root" contentController
                  contentExtension [deployment; secret])) ->
    isStartOrCancel ev = false.
Proof.
  exact (ManageContent_failure_changes_nothing
           contentInstance "root" contentController contentExtension
           [deployment; secret]
           (Errorf
              "creating watch for ClusterExtension %q managed resource %s: %w"
              ["demo"; "Secret"] (Some (errors.New "forbidden")))
           eq_refl).
Defined.

(** X23 on a fresh instance and an object the controller accepts: the cache
    is found again under the extension's name. *)
Lemma ManageContent_watches_then_starts_witness :
  extensionCaches
    (snd (fst (ManageContent contentInstance "root" contentController
                 contentExtension [deployment])))
    "demo" = Some (mkExtensionCacheData "demo-cache" "root-cancel").
Proof.
  refine (proj1 (proj2 (proj2
            (ManageContent_watches_then_starts
               contentInstance "root" contentController contentExtension
               [deployment] "demo" deploymentScheme "demo-cache"
               eq_refl eq_refl eq_refl _)))).
  intros obj [<-|[]]; reflexivity.
Defined.

(** X24 on the same controller: the watch of [Deployment] stays. *)
Lemma ManageContent_refused_watch_witness :
  ManageContent contentInstance "root" contentController contentExtension
                [deployment; secret] =
    (Some (Errorf
             "creating watch for ClusterExtension %q managed resource %s: %w"
             ["demo"; "Secret"] (Some (errors.New "forbidden"))),
     contentInstance,
     [CacheNew "demo" bothScheme (tgtLabels contentExtension);
      ControllerWatch
        (sourceFor contentInstance contentExtension bothScheme "demo-cache"
                   deployment);
      ControllerWatch
        (sourceFor contentInstance contentExtension bothScheme "demo-cache"
                   secret)]).
Proof.
  refine (ManageContent_refused_watch
            contentInstance "root" contentController contentExtension
            [deployment] secret [] "demo" bothScheme "demo-cache"
            (errors.New "forbidden") eq_refl eq_refl eq_refl _ eq_refl).
  intros o [<-|[]]. reflexivity.
Defined.

(** X25 on the fresh instance: the cancel function of the started context is
    called. *)
Lemma RemoveManagedContent_after_ManageContent_witness :
  snd (RemoveManagedContent
         (snd (fst (ManageContent contentInstance "root" contentController
                      contentExtension [deployment])))
         contentExtension) = [CancelCall "root-cancel"].
Proof.
  exact (proj1 (proj2
           (RemoveManagedContent_after_ManageContent
              contentInstance "root" contentController contentExtension
              [deployment] eq_refl))).
Defined.

(** X26 on an object without a kind behind one that has one. *)
Lemma buildScheme_needs_kind_and_version_witness :
  buildScheme [deployment; kindless] =
    inr (errors.New "object Kind or Version is not defined").
Proof.
  exact (f_equal (@inr Scheme error)
           (proj2 (buildScheme_needs_kind_and_version
                     [deployment; kindless]
                     [schema.mkGVK "olm.operatorframework.io" "v1alpha1"
                                   "ClusterExtension"]
                     eq_refl)
                  (errors.New "object Kind or Version is not defined")
                  eq_refl)).
Defined.

Lemma gvk_eqb_refl (gvk : schema.GroupVersionKind) : schema.eqb gvk gvk = true.
Proof. unfold schema.eqb. now rewrite !String.eqb_refl. Qed.

(** X27 on the registry that keeps the list of the kinds added. *)
Lemma buildScheme_recognizes_every_object_witness :
  Recognizes bothScheme secret = true.
Proof.
  refine (buildScheme_recognizes_every_object
            [deployment; secret] bothScheme _ _ _ eq_refl secret _).
  - intros s gvk known. simpl. now rewrite gvk_eqb_refl.
  - intros s gvk known g Hg. simpl in Hg |- *. rewrite Hg. apply orb_true_r.
  - intros s gv g Hg. simpl in Hg |- *. rewrite Hg. apply orb_true_r.
  - simpl. tauto.
Defined.

End contentmanager_facts.

(** ** The installed bundle *)

Module installed_facts.

Import errors stmt kappcus crdupgradesafety resolution applier errors_facts.

Section Facts.
Context `{Library} `{!Runtime} `{Deps}.
Variable Labels : release.Release -> list (string * string).

(** Reading the labels of an install or an upgrade of [Apply]. *)
Lemma label_of_install_labels (bundle : Bundle) (bundleVersion : SemVer) :
  BundleVersionKey <> BundleNameKey ->
  BundleVersionKey <> PackageNameKey ->
  label (installLabelsFor bundle bundleVersion) BundleNameKey =
    bundle_Name bundle /\
  label (installLabelsFor bundle bundleVersion) BundleVersionKey =
    SemVer_String bundleVersion.
Proof.
  intros Hname Hpackage. unfold label, installLabelsFor. simpl.
  rewrite String.eqb_refl. split; [reflexivity |].
  assert (E1 : String.eqb BundleNameKey BundleVersionKey = false)
    by (apply String.eqb_neq; congruence).
  assert (E2 : String.eqb PackageNameKey BundleVersionKey = false)
    by (apply String.eqb_neq; congruence).
  now rewrite E1, E2, String.eqb_refl.
Qed.

(** X28: the labels [Apply] installs or upgrades a release with are the ones
    [GetInstalledBundle] reads: for a release that carries them it reports
    the name and the version of the bundle [Apply] was given, provided the
    key of the version label differs from the keys of the name and package
    labels. *)
Theorem GetInstalledBundle_reads_the_labels_of_Apply
        (d : DefaultInstalledBundleGetter) ext cl rel err
        (bundle : Bundle) (bundleVersion : SemVer) post :
  BundleVersionKey <> BundleNameKey ->
  BundleVersionKey <> PackageNameKey ->
  getter_ActionClientFor d ext = inl cl ->
  resolution.Get cl (ext_Name ext) = (Some rel, err) ->
  (forall e, err = Some e -> Is e ErrReleaseNotFound = true) ->
  Labels rel =
    install_Labels
      (installOptions (installLabelsFor bundle bundleVersion) post) \/
  Labels rel =
    upgrade_Labels
      (upgradeOptions (installLabelsFor bundle bundleVersion) post) ->
  DefaultInstalledBundleGetter_GetInstalledBundle Labels d ext =
    inl (Some (mkBundleMetadata (bundle_Name bundle)
                                (SemVer_String bundleVersion))).
Proof.
  intros Hname Hpackage Hclient Hget Hnotfound Hlabels.
  unfold DefaultInstalledBundleGetter_GetInstalledBundle.
  rewrite Hclient, Hget.
  assert (Hrel : Labels rel = installLabelsFor bundle bundleVersion)
    by (destruct Hlabels as [-> | ->]; reflexivity).
  rewrite Hrel.
  destruct (label_of_install_labels bundle bundleVersion Hname Hpackage)
    as [-> ->].
  destruct err as [e|]; [| reflexivity].
  now rewrite (Hnotfound e eq_refl).
Qed.

(** X29: when [Get] answers the getter as it answers the applier, with a
    release and no error or with an error and no release, the resolver's
    getter and the applier agree: [GetInstalledBundle] reports that nothing
    is installed exactly when [getReleaseState] computes [NeedsInstall], and
    an error of [GetInstalledBundle] on this client is the error
    [getReleaseState] returns. *)
Theorem GetInstalledBundle_agrees_with_getReleaseState
        (d : DefaultInstalledBundleGetter) ext cl
        (ac : applier.ActionInterface) chrt post :
  getter_ActionClientFor d ext = inl cl ->
  resolution.Get cl (ext_Name ext) =
    match ac_Get ac (ext_Name ext) with
    | inl rel => (Some rel, None)
    | inr err => (None, Some err)
    end ->
  let '(_, _, state, err) := fst (getReleaseState ac ext chrt post empty) in
  (DefaultInstalledBundleGetter_GetInstalledBundle Labels d ext = inl None <->
   state = stateNeedsInstall) /\
  forall e,
    DefaultInstalledBundleGetter_GetInstalledBundle Labels d ext = inr e ->
    state = stateError /\ err = Some e.
Proof.
  intros Hclient Hget.
  unfold DefaultInstalledBundleGetter_GetInstalledBundle, getReleaseState.
  rewrite Hclient, Hget. unfold bind, call, ret. cbv zeta.
  destruct (ac_Get ac (ext_Name ext)) as [currentRelease|getErr].
  - destruct (ac_Upgrade ac _ _ _ _) as [desiredRelease|upgradeErr];
      cbn [fst snd].
    + destruct (_ || _ || _); (split; [split |]); discriminate.
    + (split; [split |]); discriminate.
  - destruct (negb (Is getErr ErrReleaseNotFound)); cbn [fst snd].
    + split; [split; discriminate |]. now intros e [= <-].
    + split; [split; reflexivity |]. discriminate.
Qed.

End Facts.

Import fake fake_more.

(** X28 on the release [demo] of the bundle [widgets.v2]. *)
Lemma GetInstalledBundle_reads_the_labels_of_Apply_witness :
  DefaultInstalledBundleGetter_GetInstalledBundle
    releaseLabels installedGetter plainExtension =
    inl (Some (mkBundleMetadata "widgets.v2" "2.0.0")).
Proof.
  refine (GetInstalledBundle_reads_the_labels_of_Apply
            releaseLabels installedGetter plainExtension installedClient
            currentRelease None bundle "2.0.0"
            (postrendererFor plainExtension bundle "2.0.0")
            _ _ eq_refl eq_refl _ (or_introl eq_refl)); discriminate.
Defined.

(** X29 on a client that has the release: something is installed, and the
    state is not [NeedsInstall]. *)
Lemma GetInstalledBundle_agrees_with_getReleaseState_witness :
  (DefaultInstalledBundleGetter_GetInstalledBundle
     releaseLabels installedGetter plainExtension = inl None <->
   stateNeedsUpgrade = stateNeedsInstall) /\
  forall e,
    DefaultInstalledBundleGetter_GetInstalledBundle
      releaseLabels installedGetter plainExtension = inr e ->
    stateNeedsUpgrade = stateError /\ None = Some e.
Proof.
  exact (GetInstalledBundle_agrees_with_getReleaseState
           releaseLabels installedGetter plainExtension installedClient
           helmClient "chart"
           (postrendererFor plainExtension bundle "2.0.0") eq_refl eq_refl).
Defined.

End installed_facts.
